(** * Cortex dashboard: stream client and state reconciliation

    A shallow embedding of [src/pages/Dashboard.tsx]: the wire normalizers
    ([normalizeModelId], [normalizeProvisioningCommand], [normalizeSnapshot],
    [normalizeMessage]), the websocket lifecycle callbacks ([onopen],
    [onmessage], [onerror], [onclose]), the reconnect timer
    ([scheduleReconnectPoll]) and the connection effect of the [Dashboard]
    component, followed by the properties of the design document that can be
    stated over them. *)

From Stdlib Require Import Ascii String DecimalString.
From stdpp Require Import base option list sorting strings gmap.

Open Scope string_scope.

(** ** JavaScript values

    Everything the dashboard receives is the result of [JSON.parse], so a
    value is a JSON tree; [JUndefined] is added for absent properties.  A
    number is kept as its canonical decimal text (what [String(x)] and
    [JSON.stringify(x)] print), an object as its property list in property
    order, with pairwise distinct keys. *)

#[warnings="-register-all"]
Inductive jsval : Type :=
| JUndefined
| JNull
| JBool (b : bool)
| JNumber (repr : string)
| JString (s : string)
| JArray (items : list jsval)
| JObject (props : list (string * jsval)).

(** A JavaScript evaluation either completes with a value or throws; the
    payload of [Throw] is the [message] of the exception. *)

Inductive result (A : Type) : Type :=
| Ok (a : A)
| Throw (message : string).

Arguments Ok {A} a.
Arguments Throw {A} message.

Definition result_bind {A B : Type} (f : A -> result B) (r : result A) : result B :=
  match r with
  | Ok a => f a
  | Throw m => Throw m
  end.

#[global] Instance result_ret : MRet result := fun A a => Ok a.
#[global] Instance result_mbind : MBind result := fun A B f r => result_bind f r.

Fixpoint mapM_result {A B : Type} (f : A -> result B) (l : list A) : result (list B) :=
  match l with
  | [] => Ok []
  | x :: l' => y ← f x; ys ← mapM_result f l'; Ok (y :: ys)
  end.

(** [Array.prototype.map] with the element index as second argument. *)
Fixpoint mapM_index {A B : Type} (f : A -> nat -> result B) (idx : nat) (l : list A)
  : result (list B) :=
  match l with
  | [] => Ok []
  | x :: l' => y ← f x idx; ys ← mapM_index f (S idx) l'; Ok (y :: ys)
  end.

Module JS.

(** [typeof v]. *)
Definition typeof (v : jsval) : string :=
  match v with
  | JUndefined => "undefined"
  | JNull => "object"
  | JBool _ => "boolean"
  | JNumber _ => "number"
  | JString _ => "string"
  | JArray _ => "object"
  | JObject _ => "object"
  end.

(** [ToBoolean]: the falsy values are [undefined], [null], [false], zero
    and the empty string. *)
Definition truthy (v : jsval) : bool :=
  match v with
  | JUndefined | JNull => false
  | JBool b => b
  | JNumber r => negb (String.eqb r "0")
  | JString s => negb (String.eqb s "")
  | JArray _ | JObject _ => true
  end.

Definition nullish (v : jsval) : bool :=
  match v with
  | JUndefined | JNull => true
  | _ => false
  end.

(** [a ?? b]. *)
Definition coalesce (a b : jsval) : jsval := if nullish a then b else a.

Definition isArray (v : jsval) : bool :=
  match v with JArray _ => true | _ => false end.

(** [v === "s"] against a string literal. *)
Definition is_string (v : jsval) (s : string) : bool :=
  match v with JString t => String.eqb t s | _ => false end.

Definition decimal (n : nat) : string := NilZero.string_of_uint (Nat.to_uint n).

Fixpoint lookup_prop (k : string) (props : list (string * jsval)) : option jsval :=
  match props with
  | [] => None
  | (k', v) :: rest => if String.eqb k k' then Some v else lookup_prop k rest
  end.

(** The position named by an array index key such as ["0"]. *)
Definition array_index (k : string) (len : nat) : option nat :=
  find (fun i => String.eqb k (decimal i)) (seq 0 len).

(** [v[k]] on a value that is neither [null] nor [undefined].  On
    primitives, and for the names of array methods, the answer would come
    from a prototype; the dashboard reads no such name, so those cases
    answer [undefined]. *)
Definition prop (v : jsval) (k : string) : jsval :=
  match v with
  | JObject props => default JUndefined (lookup_prop k props)
  | JArray items =>
      match array_index k (length items) with
      | Some i => nth i items JUndefined
      | None =>
          if String.eqb k "length" then JNumber (decimal (length items))
          else JUndefined
      end
  | _ => JUndefined
  end.

Definition typeof_null_or_undefined (v : jsval) : string :=
  match v with JNull => "null" | _ => "undefined" end.

(** [v.k]: reading a property of [null] or [undefined] is a [TypeError]. *)
Definition get (v : jsval) (k : string) : result jsval :=
  if nullish v
  then Throw ("Cannot read properties of " ++ typeof_null_or_undefined v
              ++ " (reading '" ++ k ++ "')")
  else Ok (prop v k).

(** [k in v]: a [TypeError] unless [v] is an object. *)
Definition has (k : string) (v : jsval) : result bool :=
  match v with
  | JObject props => Ok (bool_decide (is_Some (lookup_prop k props)))
  | JArray items =>
      Ok (bool_decide (is_Some (array_index k (length items))) || String.eqb k "length")
  | _ => Throw ("Cannot use 'in' operator to search for '" ++ k ++ "'")
  end.

(** [{...o, k: v}]: an existing key keeps its place, a new one goes last. *)
Fixpoint set_prop (k : string) (v : jsval) (props : list (string * jsval))
  : list (string * jsval) :=
  match props with
  | [] => [(k, v)]
  | (k', v') :: rest =>
      if String.eqb k k' then (k, v) :: rest else (k', v') :: set_prop k v rest
  end.

Fixpoint join (sep : string) (parts : list string) : string :=
  match parts with
  | [] => ""
  | [p] => p
  | p :: rest => p ++ sep ++ join sep rest
  end.

(** [String(v)].  An object converts through [Object.prototype.toString]
    unless an own [toString] property (never callable in parsed JSON)
    shadows it, in which case the conversion throws; an array joins the
    conversions of its elements, [null] and [undefined] giving the empty
    string. *)
Fixpoint toString (v : jsval) : result string :=
  match v with
  | JUndefined => Ok "undefined"
  | JNull => Ok "null"
  | JBool b => Ok (if b then "true" else "false")
  | JNumber r => Ok r
  | JString s => Ok s
  | JArray items =>
      parts ← mapM_result
                (fun x => if nullish x then Ok "" else toString x) items;
      Ok (join "," parts)
  | JObject props =>
      match lookup_prop "toString" props with
      | Some _ => Throw "Cannot convert object to primitive value"
      | None => Ok "[object Object]"
      end
  end.

Definition hex_digit (n : nat) : string :=
  String (nth n (list_ascii_of_string "0123456789abcdef") (ascii_of_nat 48)) "".

Definition escape_char (c : ascii) : string :=
  let n := nat_of_ascii c in
  if Nat.eqb n 34 then "\" ++ String c ""
  else if Nat.eqb n 92 then "\\"
  else if Nat.eqb n 8 then "\b"
  else if Nat.eqb n 9 then "\t"
  else if Nat.eqb n 10 then "\n"
  else if Nat.eqb n 12 then "\f"
  else if Nat.eqb n 13 then "\r"
  else if Nat.ltb n 32 then "\u00" ++ hex_digit (n / 16) ++ hex_digit (n mod 16)
  else String c "".

Fixpoint escape (s : string) : string :=
  match s with
  | EmptyString => ""
  | String c rest => escape_char c ++ escape rest
  end.

Definition quote (s : string) : string :=
  String (ascii_of_nat 34) (escape s) ++ String (ascii_of_nat 34) "".

(** [JSON.stringify(v)]: [None] stands for the result [undefined], which
    only [undefined] itself gives; inside an array [undefined] prints as
    [null], inside an object the property is left out. *)
Fixpoint stringify (v : jsval) : option string :=
  match v with
  | JUndefined => None
  | JNull => Some "null"
  | JBool b => Some (if b then "true" else "false")
  | JNumber r => Some r
  | JString s => Some (quote s)
  | JArray items =>
      Some ("[" ++ join "," (map (fun x => default "null" (stringify x)) items) ++ "]")
  | JObject props =>
      Some ("{" ++
            join "," (omap (fun kv => s ← stringify (snd kv);
                                      Some (quote (fst kv) ++ ":" ++ s)) props)
            ++ "}")
  end.

Definition JSON_stringify (v : jsval) : jsval :=
  match stringify v with
  | Some s => JString s
  | None => JUndefined
  end.

(** [Boolean(v)]. *)
Definition Boolean (v : jsval) : jsval := JBool (truthy v).

End JS.

(** ** The wire normalizers *)

Definition typeof_is (v : jsval) (t : string) : bool := String.eqb (JS.typeof v) t.

Definition normalizeModelId (id : jsval) : result jsval :=
  if typeof_is id "string" then Ok id
  else
    wrapped ← (if JS.truthy id && typeof_is id "object" then JS.has "0" id else Ok false);
    if (wrapped : bool) then
      v ← JS.get id "0";
      Ok (if typeof_is v "string" then v else JS.JSON_stringify id)
    else Ok (JS.JSON_stringify id).

Definition upsert_model_config (config : jsval) : jsval :=
  JObject [("kind", JString "upsert_model_config"); ("config", config)].

Definition model_command (kind model_id : jsval) : jsval :=
  JObject [("kind", kind); ("model_id", model_id)].

(** [typeof mid === "string" ? mid : normalizeModelId(mid)] *)
Definition string_or_normalized (mid : jsval) : result jsval :=
  if typeof_is mid "string" then Ok mid else normalizeModelId mid.

(** The explicit-kind branch of [normalizeProvisioningCommand]: [Some] of
    the value it returns, [None] when control falls through to the legacy
    shapes. *)
Definition explicit_kind_command (wire : jsval) : result (option jsval) :=
  has_kind ← JS.has "kind" wire;
  if (has_kind : bool) then
    k ← JS.get wire "kind";
    if JS.is_string k "upsert_model_config" then
      config ← JS.get wire "config";
      Ok (Some (upsert_model_config config))
    else if JS.is_string k "load_model" || JS.is_string k "unload_model" then
      mid ← JS.get wire "model_id";
      model_id ← string_or_normalized mid;
      Ok (Some (model_command k model_id))
    else Ok None
  else Ok None.

Definition legacy_command (wire : jsval) : result jsval :=
  has_upsert ← JS.has "UpsertModelConfig" wire;
  if (has_upsert : bool) then
    config ← JS.get wire "UpsertModelConfig";
    Ok (upsert_model_config config)
  else
    has_load ← JS.has "LoadModel" wire;
    if (has_load : bool) then
      mid ← JS.get wire "LoadModel";
      model_id ← string_or_normalized mid;
      Ok (model_command (JString "load_model") model_id)
    else
      has_unload ← JS.has "UnloadModel" wire;
      if (has_unload : bool) then
        mid ← JS.get wire "UnloadModel";
        model_id ← string_or_normalized mid;
        Ok (model_command (JString "unload_model") model_id)
      else Ok (upsert_model_config wire).

Definition normalizeProvisioningCommand (wire : jsval) : result jsval :=
  if negb (JS.truthy wire) || negb (typeof_is wire "object") then
    Ok (upsert_model_config wire)
  else
    explicit ← explicit_kind_command wire;
    match explicit with
    | Some cmd => Ok cmd
    | None => legacy_command wire
    end.

(** The arrow function mapped over a [models] array, the same in
    [normalizeSnapshot] and in the [model_state_changed] case of
    [normalizeMessage]. *)
Definition normalizeModelStatus (m : jsval) : result jsval :=
  mid ← JS.get m "model_id";
  model_id ← normalizeModelId mid;
  last_cmd_kind ← JS.get m "last_cmd_kind";
  last_response ← JS.get m "last_response";
  effective_status ← JS.get m "effective_status";
  Ok (JObject [("model_id", model_id);
               ("last_cmd_kind", JS.coalesce last_cmd_kind (JString "unknown"));
               ("last_response", JS.coalesce last_response JNull);
               ("effective_status", JS.coalesce effective_status (JString "unknown"))]).

(** [Array.isArray(models) ? models.map(normalizeModelStatus) : []] *)
Definition normalizeModels (models : jsval) : result jsval :=
  match models with
  | JArray items => ms ← mapM_result normalizeModelStatus items; Ok (JArray ms)
  | _ => Ok (JArray [])
  end.

(** [n && n.k] *)
Definition and_get (n : jsval) (k : string) : result jsval :=
  if JS.truthy n then JS.get n k else Ok n.

(** The arrow function [(n, idx) => ...] mapped over [snapshot.neurons]. *)
Definition normalizeNeuron (n : jsval) (idx : nat) : result jsval :=
  structured ← (if JS.truthy n && typeof_is n "object" then JS.has "descriptor" n else Ok false);
  if (structured : bool) then
    descriptor ← JS.get n "descriptor";
    last_heartbeat_at ← JS.get n "last_heartbeat_at";
    health ← JS.get n "health";
    offline ← JS.get n "offline";
    models_wire ← JS.get n "models";
    models ← normalizeModels models_wire;
    Ok (JObject [("descriptor", descriptor);
                 ("last_heartbeat_at", JS.coalesce last_heartbeat_at JNull);
                 ("health", JS.coalesce health (JString "unknown"));
                 ("offline", JS.Boolean offline);
                 ("models", models)])
  else
    node_id ← and_get n "node_id";
    label ← and_get n "label";
    label_fallback ← (if JS.nullish label then and_get n "node_id" else Ok label);
    metadata ← and_get n "metadata";
    let descriptor :=
      JObject [("node_id", JS.coalesce node_id JNull);
               ("label", JS.coalesce label_fallback
                           (JString ("Neuron #" ++ JS.decimal (idx + 1))));
               ("metadata", JS.coalesce metadata (JObject []))] in
    Ok (JObject [("descriptor", descriptor);
                 ("last_heartbeat_at", JNull);
                 ("health", JString "unknown");
                 ("offline", JBool false);
                 ("models", JArray [])]).

Definition normalizeSnapshot (snapshot : jsval) : result jsval :=
  neurons ← JS.get snapshot "neurons";
  let neuronsWire := match neurons with JArray items => items | _ => [] end in
  normalized ← mapM_index normalizeNeuron 0 neuronsWire;
  Ok (JObject [("neurons", JArray normalized)]).

Definition event_message (event : list (string * jsval)) : jsval :=
  JObject [("kind", JString "event"); ("event", JObject event)].

(** [String(e.neuron_id)] *)
Definition neuron_id_of (e : jsval) : result jsval :=
  neuron_id ← JS.get e "neuron_id";
  s ← JS.toString neuron_id;
  Ok (JString s).

(** The [switch (e.type)] of [normalizeMessage]. *)
Definition normalizeEvent (wire e : jsval) (type : string) : result jsval :=
  if String.eqb type "neuron_registered" then
    neuron ← JS.get e "neuron";
    Ok (event_message [("type", JString "neuron_registered"); ("neuron", neuron)])
  else if String.eqb type "neuron_removed" then
    neuron_id ← neuron_id_of e;
    Ok (event_message [("type", JString "neuron_removed"); ("neuron_id", neuron_id)])
  else if String.eqb type "neuron_heartbeat" then
    neuron_id ← neuron_id_of e;
    metrics ← JS.get e "metrics";
    Ok (event_message [("type", JString "neuron_heartbeat"); ("neuron_id", neuron_id);
                       ("metrics", JS.coalesce metrics (JObject []))])
  else if String.eqb type "provisioning_sent" then
    neuron_id ← neuron_id_of e;
    cmd_wire ← JS.get e "cmd";
    cmd ← normalizeProvisioningCommand cmd_wire;
    Ok (event_message [("type", JString "provisioning_sent"); ("neuron_id", neuron_id);
                       ("cmd", cmd)])
  else if String.eqb type "provisioning_response" then
    neuron_id ← neuron_id_of e;
    response ← JS.get e "response";
    Ok (event_message [("type", JString "provisioning_response"); ("neuron_id", neuron_id);
                       ("response", response)])
  else if String.eqb type "model_state_changed" then
    models_wire ← JS.get e "models";
    models ← normalizeModels models_wire;
    neuron_id ← neuron_id_of e;
    Ok (event_message [("type", JString "model_state_changed"); ("neuron_id", neuron_id);
                       ("models", models)])
  else if String.eqb type "cortex_shutdown_notice" then
    reason ← JS.get e "reason";
    Ok (event_message [("type", JString "cortex_shutdown_notice");
                       ("reason", JS.coalesce reason JNull)])
  else Ok wire.

Definition normalizeMessage (wire : jsval) : result jsval :=
  kind ← JS.get wire "kind";
  if JS.is_string kind "snapshot" then
    snapshot_wire ← JS.get wire "snapshot";
    snapshot ← normalizeSnapshot snapshot_wire;
    Ok (JObject [("kind", JString "snapshot"); ("snapshot", snapshot)])
  else
    e ← JS.get wire "event";
    if negb (JS.truthy e) || negb (typeof_is e "object") then Ok wire
    else
      type ← JS.get e "type";
      match type with
      | JString t => normalizeEvent wire e t
      | _ => Ok wire
      end.

(** ** The state of the [Dashboard] component *)

Inductive ConnectionStatus : Type :=
| StatusConnecting
| StatusOpen
| StatusPolling
| StatusClosed
| StatusError.

#[global] Instance ConnectionStatus_eq_dec : EqDecision ConnectionStatus.
Proof. solve_decision. Defined.

Record EventLogItem : Type := {
  id : nat;
  receivedAt : string;
  kind : jsval;
  eventType : jsval;
  payload : jsval;
}.

Record ShutdownState : Type := {
  seenShutdownNotice : bool;
  lastReason : jsval;
  lastSeenAt : option string;
}.

(** What a pending [window.setTimeout] will run: the reconnect callback of
    [scheduleReconnectPoll], or the pulse expiry scheduled by a heartbeat
    for [neuronKey] with the pulse id [nextId] it captured. *)
Inductive TimerCallback : Type :=
| ReconnectPoll
| PulseExpiry (neuronKey : string) (nextId : nat).

Record Timeout : Type := {
  timer_id : nat;
  delay_ms : N;
  callback : TimerCallback;
}.

(** The [useState] cells and [useRef] cells of the component, followed by
    the part of the browser they talk to: the pending timeouts, the
    websockets constructed so far ([socketCount] of them, handles
    [0 .. socketCount - 1], those in [closedSockets] having [readyState]
    [CLOSED]), the number of [new WebSocket(endpoint)] evaluations, and what
    that constructor throws for the configured endpoint, if anything (the
    endpoint is memoised, so this is fixed for the session).  An exception
    escaping a state updater surfaces while React renders, outside the
    handler's [try]; [renderError] records it.  The id counter is a
    JavaScript number that starts at 1 and only ever grows by 1; it is kept
    as a natural number, which it equals as long as it stays below 2^53. *)
Record State : Type := {
  connectionStatus : ConnectionStatus;
  lastError : option string;
  snapshot : jsval;
  events : list EventLogItem;
  shutdownState : ShutdownState;
  isInitialLoading : bool;
  heartbeatAnimIds : gmap string nat;
  wsRef : option nat;
  nextEventIdRef : nat;
  pollingTimerRef : option nat;
  renderError : option string;
  timeouts : list Timeout;
  nextTimerId : nat;
  socketCount : nat;
  closedSockets : list nat;
  constructorCalls : nat;
  constructorError : option string;
}.

Definition set_connectionStatus (x : ConnectionStatus) (st : State) : State :=
  {| connectionStatus := x; lastError := lastError st; snapshot := snapshot st;
     events := events st; shutdownState := shutdownState st;
     isInitialLoading := isInitialLoading st; heartbeatAnimIds := heartbeatAnimIds st;
     wsRef := wsRef st; nextEventIdRef := nextEventIdRef st;
     pollingTimerRef := pollingTimerRef st; renderError := renderError st;
     timeouts := timeouts st; nextTimerId := nextTimerId st; socketCount := socketCount st;
     closedSockets := closedSockets st; constructorCalls := constructorCalls st;
     constructorError := constructorError st |}.

Definition set_lastError (x : option string) (st : State) : State :=
  {| connectionStatus := connectionStatus st; lastError := x; snapshot := snapshot st;
     events := events st; shutdownState := shutdownState st;
     isInitialLoading := isInitialLoading st; heartbeatAnimIds := heartbeatAnimIds st;
     wsRef := wsRef st; nextEventIdRef := nextEventIdRef st;
     pollingTimerRef := pollingTimerRef st; renderError := renderError st;
     timeouts := timeouts st; nextTimerId := nextTimerId st; socketCount := socketCount st;
     closedSockets := closedSockets st; constructorCalls := constructorCalls st;
     constructorError := constructorError st |}.

Definition set_snapshot (x : jsval) (st : State) : State :=
  {| connectionStatus := connectionStatus st; lastError := lastError st; snapshot := x;
     events := events st; shutdownState := shutdownState st;
     isInitialLoading := isInitialLoading st; heartbeatAnimIds := heartbeatAnimIds st;
     wsRef := wsRef st; nextEventIdRef := nextEventIdRef st;
     pollingTimerRef := pollingTimerRef st; renderError := renderError st;
     timeouts := timeouts st; nextTimerId := nextTimerId st; socketCount := socketCount st;
     closedSockets := closedSockets st; constructorCalls := constructorCalls st;
     constructorError := constructorError st |}.

Definition set_events (x : list EventLogItem) (st : State) : State :=
  {| connectionStatus := connectionStatus st; lastError := lastError st;
     snapshot := snapshot st; events := x; shutdownState := shutdownState st;
     isInitialLoading := isInitialLoading st; heartbeatAnimIds := heartbeatAnimIds st;
     wsRef := wsRef st; nextEventIdRef := nextEventIdRef st;
     pollingTimerRef := pollingTimerRef st; renderError := renderError st;
     timeouts := timeouts st; nextTimerId := nextTimerId st; socketCount := socketCount st;
     closedSockets := closedSockets st; constructorCalls := constructorCalls st;
     constructorError := constructorError st |}.

Definition set_shutdownState (x : ShutdownState) (st : State) : State :=
  {| connectionStatus := connectionStatus st; lastError := lastError st;
     snapshot := snapshot st; events := events st; shutdownState := x;
     isInitialLoading := isInitialLoading st; heartbeatAnimIds := heartbeatAnimIds st;
     wsRef := wsRef st; nextEventIdRef := nextEventIdRef st;
     pollingTimerRef := pollingTimerRef st; renderError := renderError st;
     timeouts := timeouts st; nextTimerId := nextTimerId st; socketCount := socketCount st;
     closedSockets := closedSockets st; constructorCalls := constructorCalls st;
     constructorError := constructorError st |}.

Definition set_isInitialLoading (x : bool) (st : State) : State :=
  {| connectionStatus := connectionStatus st; lastError := lastError st;
     snapshot := snapshot st; events := events st; shutdownState := shutdownState st;
     isInitialLoading := x; heartbeatAnimIds := heartbeatAnimIds st; wsRef := wsRef st;
     nextEventIdRef := nextEventIdRef st; pollingTimerRef := pollingTimerRef st;
     renderError := renderError st; timeouts := timeouts st; nextTimerId := nextTimerId st;
     socketCount := socketCount st; closedSockets := closedSockets st;
     constructorCalls := constructorCalls st; constructorError := constructorError st |}.

Definition set_heartbeatAnimIds (x : gmap string nat) (st : State) : State :=
  {| connectionStatus := connectionStatus st; lastError := lastError st;
     snapshot := snapshot st; events := events st; shutdownState := shutdownState st;
     isInitialLoading := isInitialLoading st; heartbeatAnimIds := x; wsRef := wsRef st;
     nextEventIdRef := nextEventIdRef st; pollingTimerRef := pollingTimerRef st;
     renderError := renderError st; timeouts := timeouts st; nextTimerId := nextTimerId st;
     socketCount := socketCount st; closedSockets := closedSockets st;
     constructorCalls := constructorCalls st; constructorError := constructorError st |}.

Definition set_wsRef (x : option nat) (st : State) : State :=
  {| connectionStatus := connectionStatus st; lastError := lastError st;
     snapshot := snapshot st; events := events st; shutdownState := shutdownState st;
     isInitialLoading := isInitialLoading st; heartbeatAnimIds := heartbeatAnimIds st;
     wsRef := x; nextEventIdRef := nextEventIdRef st;
     pollingTimerRef := pollingTimerRef st; renderError := renderError st;
     timeouts := timeouts st; nextTimerId := nextTimerId st; socketCount := socketCount st;
     closedSockets := closedSockets st; constructorCalls := constructorCalls st;
     constructorError := constructorError st |}.

Definition set_nextEventIdRef (x : nat) (st : State) : State :=
  {| connectionStatus := connectionStatus st; lastError := lastError st;
     snapshot := snapshot st; events := events st; shutdownState := shutdownState st;
     isInitialLoading := isInitialLoading st; heartbeatAnimIds := heartbeatAnimIds st;
     wsRef := wsRef st; nextEventIdRef := x; pollingTimerRef := pollingTimerRef st;
     renderError := renderError st; timeouts := timeouts st; nextTimerId := nextTimerId st;
     socketCount := socketCount st; closedSockets := closedSockets st;
     constructorCalls := constructorCalls st; constructorError := constructorError st |}.

Definition set_pollingTimerRef (x : option nat) (st : State) : State :=
  {| connectionStatus := connectionStatus st; lastError := lastError st;
     snapshot := snapshot st; events := events st; shutdownState := shutdownState st;
     isInitialLoading := isInitialLoading st; heartbeatAnimIds := heartbeatAnimIds st;
     wsRef := wsRef st; nextEventIdRef := nextEventIdRef st; pollingTimerRef := x;
     renderError := renderError st; timeouts := timeouts st; nextTimerId := nextTimerId st;
     socketCount := socketCount st; closedSockets := closedSockets st;
     constructorCalls := constructorCalls st; constructorError := constructorError st |}.

Definition set_renderError (x : option string) (st : State) : State :=
  {| connectionStatus := connectionStatus st; lastError := lastError st;
     snapshot := snapshot st; events := events st; shutdownState := shutdownState st;
     isInitialLoading := isInitialLoading st; heartbeatAnimIds := heartbeatAnimIds st;
     wsRef := wsRef st; nextEventIdRef := nextEventIdRef st;
     pollingTimerRef := pollingTimerRef st; renderError := x; timeouts := timeouts st;
     nextTimerId := nextTimerId st; socketCount := socketCount st;
     closedSockets := closedSockets st; constructorCalls := constructorCalls st;
     constructorError := constructorError st |}.

Definition set_timeouts (x : list Timeout) (st : State) : State :=
  {| connectionStatus := connectionStatus st; lastError := lastError st;
     snapshot := snapshot st; events := events st; shutdownState := shutdownState st;
     isInitialLoading := isInitialLoading st; heartbeatAnimIds := heartbeatAnimIds st;
     wsRef := wsRef st; nextEventIdRef := nextEventIdRef st;
     pollingTimerRef := pollingTimerRef st; renderError := renderError st; timeouts := x;
     nextTimerId := nextTimerId st; socketCount := socketCount st;
     closedSockets := closedSockets st; constructorCalls := constructorCalls st;
     constructorError := constructorError st |}.

Definition set_nextTimerId (x : nat) (st : State) : State :=
  {| connectionStatus := connectionStatus st; lastError := lastError st;
     snapshot := snapshot st; events := events st; shutdownState := shutdownState st;
     isInitialLoading := isInitialLoading st; heartbeatAnimIds := heartbeatAnimIds st;
     wsRef := wsRef st; nextEventIdRef := nextEventIdRef st;
     pollingTimerRef := pollingTimerRef st; renderError := renderError st;
     timeouts := timeouts st; nextTimerId := x; socketCount := socketCount st;
     closedSockets := closedSockets st; constructorCalls := constructorCalls st;
     constructorError := constructorError st |}.

Definition set_socketCount (x : nat) (st : State) : State :=
  {| connectionStatus := connectionStatus st; lastError := lastError st;
     snapshot := snapshot st; events := events st; shutdownState := shutdownState st;
     isInitialLoading := isInitialLoading st; heartbeatAnimIds := heartbeatAnimIds st;
     wsRef := wsRef st; nextEventIdRef := nextEventIdRef st;
     pollingTimerRef := pollingTimerRef st; renderError := renderError st;
     timeouts := timeouts st; nextTimerId := nextTimerId st; socketCount := x;
     closedSockets := closedSockets st; constructorCalls := constructorCalls st;
     constructorError := constructorError st |}.

Definition set_closedSockets (x : list nat) (st : State) : State :=
  {| connectionStatus := connectionStatus st; lastError := lastError st;
     snapshot := snapshot st; events := events st; shutdownState := shutdownState st;
     isInitialLoading := isInitialLoading st; heartbeatAnimIds := heartbeatAnimIds st;
     wsRef := wsRef st; nextEventIdRef := nextEventIdRef st;
     pollingTimerRef := pollingTimerRef st; renderError := renderError st;
     timeouts := timeouts st; nextTimerId := nextTimerId st; socketCount := socketCount st;
     closedSockets := x; constructorCalls := constructorCalls st;
     constructorError := constructorError st |}.

Definition set_constructorCalls (x : nat) (st : State) : State :=
  {| connectionStatus := connectionStatus st; lastError := lastError st;
     snapshot := snapshot st; events := events st; shutdownState := shutdownState st;
     isInitialLoading := isInitialLoading st; heartbeatAnimIds := heartbeatAnimIds st;
     wsRef := wsRef st; nextEventIdRef := nextEventIdRef st;
     pollingTimerRef := pollingTimerRef st; renderError := renderError st;
     timeouts := timeouts st; nextTimerId := nextTimerId st; socketCount := socketCount st;
     closedSockets := closedSockets st; constructorCalls := x;
     constructorError := constructorError st |}.

(** The state before the first render; [mount] below runs the connection
    effect on it. *)
Definition initial_state (ctor_error : option string) : State :=
  {| connectionStatus := StatusConnecting; lastError := None; snapshot := JNull;
     events := [];
     shutdownState := {| seenShutdownNotice := false; lastReason := JNull;
                         lastSeenAt := None |};
     isInitialLoading := true; heartbeatAnimIds := ∅; wsRef := None;
     nextEventIdRef := 1; pollingTimerRef := None; renderError := None;
     timeouts := []; nextTimerId := 1; socketCount := 0; closedSockets := [];
     constructorCalls := 0; constructorError := ctor_error |}.

(** ** Timers *)

(** [window.setTimeout(cb, delay)]: the new timer's id and the state. *)
Definition setTimeout (cb : TimerCallback) (delay : N) (st : State) : nat * State :=
  let tid := nextTimerId st in
  (tid, set_nextTimerId (S tid)
          (set_timeouts (timeouts st ++ [{| timer_id := tid; delay_ms := delay;
                                            callback := cb |}]) st)).

Definition clearTimeout (tid : nat) (st : State) : State :=
  set_timeouts (filter (fun t => timer_id t ≠ tid) (timeouts st)) st.

Definition clearPollingTimer (st : State) : State :=
  match pollingTimerRef st with
  | Some tid => set_pollingTimerRef None (clearTimeout tid st)
  | None => st
  end.

Definition scheduleReconnectPoll (st : State) : State :=
  let st := clearPollingTimer st in
  let st := set_connectionStatus StatusPolling st in
  let '(tid, st) := setTimeout ReconnectPoll 60000%N st in
  set_pollingTimerRef (Some tid) st.

(** The callback handed to [setTimeout] by [scheduleReconnectPoll]. *)
Definition reconnect_poll_fired (st : State) : State :=
  let st := set_pollingTimerRef None st in
  match connectionStatus st with
  | StatusPolling | StatusError | StatusClosed => set_connectionStatus StatusConnecting st
  | _ => st
  end.

(** The callback handed to [setTimeout] by a heartbeat: the pulse is
    cleared unless a newer heartbeat replaced its id. *)
Definition pulse_expired (neuronKey : string) (nextId : nat) (st : State) : State :=
  if decide (heartbeatAnimIds st !! neuronKey = Some nextId)
  then set_heartbeatAnimIds (delete neuronKey (heartbeatAnimIds st)) st
  else st.

(** ** The event log *)

(** [l.slice(-n)], for [n > 0] *)
Definition slice_last {A : Type} (n : nat) (l : list A) : list A :=
  drop (length l - n) l.

Record Clock : Type := {
  timeOfDay : string;   (* formatTime(new Date()) *)
  nowIso : string;      (* new Date().toISOString() *)
}.

(** The [kind] and [eventType] fields of the [EventLogItem] literal of
    [onmessage]: [data.kind], and ["snapshot"] or [data.event.type]. *)
Definition item_tags (data : jsval) : result (jsval * jsval) :=
  data_kind ← JS.get data "kind";
  event_type ← (if JS.is_string data_kind "snapshot" then Ok (JString "snapshot")
                else event ← JS.get data "event"; JS.get event "type");
  Ok (data_kind, event_type).

(** The [EventLogItem] literal itself. *)
Definition log_item (item_id : nat) (clock : Clock) (data : jsval) : result EventLogItem :=
  tags ← item_tags data;
  Ok {| id := item_id; receivedAt := timeOfDay clock; kind := tags.1;
        eventType := tags.2; payload := data |}.

Definition append_event (item : EventLogItem) (st : State) : State :=
  set_events (slice_last 300 (events st ++ [item])) st.

(** ** The reconciler *)

(** [a === b]: primitives compare by value; two objects are equal only
    when they are the same object, which values parsed from different
    frames never are. *)
Definition strict_eq (a b : jsval) : bool :=
  match a, b with
  | JUndefined, JUndefined | JNull, JNull => true
  | JBool x, JBool y => bool_decide (x = y)
  | JNumber x, JNumber y => String.eqb x y
  | JString x, JString y => String.eqb x y
  | _, _ => false
  end.

(** [{...o, k: v}] *)
Definition spread_set (o : jsval) (k : string) (v : jsval) : jsval :=
  match o with
  | JObject props => JObject (JS.set_prop k v props)
  | JArray items => JObject (JS.set_prop k v (imap (fun i x => (JS.decimal i, x)) items))
  | JString s =>
      JObject (JS.set_prop k v
                 (imap (fun i c => (JS.decimal i, JString (String c "")))
                       (list_ascii_of_string s)))
  | _ => JObject [(k, v)]
  end.

(** The arrow function mapped over [prev.neurons] on a heartbeat. *)
Definition heartbeat_neuron (neuronId : jsval) (now : string) (n : jsval) : result jsval :=
  descriptor ← JS.get n "descriptor";
  matched ← (if JS.truthy descriptor then
               node_id ← JS.get descriptor "node_id";
               if strict_eq node_id neuronId then Ok true
               else label ← JS.get descriptor "label"; Ok (strict_eq label neuronId)
             else Ok false);
  if (matched : bool) then Ok (spread_set n "last_heartbeat_at" (JString now)) else Ok n.

(** The updater handed to [setSnapshot] on a heartbeat. *)
Definition heartbeat_snapshot (neuronId : jsval) (now : string) (prev : jsval)
  : result jsval :=
  if negb (JS.truthy prev) then Ok prev
  else
    neurons ← JS.get prev "neurons";
    match neurons with
    | JArray items =>
        updatedNeurons ← mapM_result (heartbeat_neuron neuronId now) items;
        Ok (spread_set prev "neurons" (JArray updatedNeurons))
    | _ => Throw "prev.neurons.map is not a function"
    end.

(** [setSnapshot(updater)] *)
Definition update_snapshot (updater : jsval -> result jsval) (st : State) : State :=
  match updater (snapshot st) with
  | Ok next => set_snapshot next st
  | Throw m => set_renderError (Some m) st
  end.

(** The updater handed to [setHeartbeatAnimIds] on a heartbeat, with the
    expiry timer it schedules.  The record of pulse ids is a finite map
    from keys to numbers (a key that names a member of [Object.prototype]
    would read that member instead; no neuron is expected to be called
    [constructor]). *)
Definition bump_pulse (neuronKey : jsval) (st : State) : State :=
  match JS.toString neuronKey with
  | Ok key =>
      let nextId := default 0 (heartbeatAnimIds st !! key) + 1 in
      let st := set_heartbeatAnimIds (<[key := nextId]> (heartbeatAnimIds st)) st in
      snd (setTimeout (PulseExpiry key nextId) 4000%N st)
  | Throw m => set_renderError (Some m) st
  end.

(** What [onmessage] does with the normalized message after logging it. *)
Definition apply_message (data : jsval) (clock : Clock) (st : State) : result State :=
  data_kind ← JS.get data "kind";
  if JS.is_string data_kind "snapshot" then
    data_snapshot ← JS.get data "snapshot";
    Ok (set_isInitialLoading false (set_snapshot data_snapshot st))
  else
    e ← JS.get data "event";
    type ← JS.get e "type";
    if JS.is_string type "neuron_heartbeat" then
      neuron_id ← JS.get e "neuron_id";
      Ok (bump_pulse neuron_id
            (update_snapshot (heartbeat_snapshot neuron_id (nowIso clock)) st))
    else if JS.is_string type "cortex_shutdown_notice" then
      reason ← JS.get e "reason";
      Ok (scheduleReconnectPoll
            (set_shutdownState {| seenShutdownNotice := true;
                                  lastReason := JS.coalesce reason JNull;
                                  lastSeenAt := Some (nowIso clock) |} st))
    else Ok st.

(** ** The websocket callbacks

    Each takes the socket [ws] its closure captured when [connect] created
    it. *)

Definition is_current (ws : nat) (st : State) : bool :=
  bool_decide (wsRef st = Some ws).

Definition onopen (ws : nat) (st : State) : State :=
  if negb (is_current ws st) then st
  else
    let st := clearPollingTimer st in
    let st := set_connectionStatus StatusOpen st in
    let st := set_lastError None st in
    let st := set_isInitialLoading true st in
    let st := set_snapshot JNull st in
    let st := set_events [] st in
    set_shutdownState {| seenShutdownNotice := false; lastReason := JNull;
                         lastSeenAt := None |} st.

(** [ev.data] as [JSON.parse] sees it: text that does not parse (with the
    message of the [SyntaxError]), or the value it parses to. *)
Inductive Frame : Type :=
| Undecodable (message : string)
| Decoded (wire : jsval).

Definition JSON_parse (frame : Frame) : result jsval :=
  match frame with
  | Undecodable m => Throw m
  | Decoded wire => Ok wire
  end.

(** The [try] block of [onmessage]: the state it leaves behind and the
    message of the exception it threw, if any. *)
Definition try_message (frame : Frame) (clock : Clock) (st : State)
  : State * option string :=
  match wire ← JSON_parse frame; normalizeMessage wire with
  | Throw m => (st, Some m)
  | Ok data =>
      let item_id := nextEventIdRef st in
      let st := set_nextEventIdRef (item_id + 1) st in
      match log_item item_id clock data with
      | Throw m => (st, Some m)
      | Ok item =>
          let st := append_event item st in
          match apply_message data clock st with
          | Ok st' => (st', None)
          | Throw m => (st, Some m)
          end
      end
  end.

Definition onmessage (ws : nat) (frame : Frame) (clock : Clock) (st : State) : State :=
  if negb (is_current ws st) then st
  else
    match try_message frame clock st with
    | (st, None) => st
    | (st, Some m) => set_lastError (Some ("Failed to parse message: " ++ m)) st
    end.

Definition onerror (ws : nat) (st : State) : State :=
  if negb (is_current ws st) then st
  else
    let st := set_connectionStatus StatusError st in
    let st := set_isInitialLoading false st in
    set_lastError (Some "WebSocket error (see browser console for details)") st.

Definition onclose (ws : nat) (st : State) : State :=
  if negb (is_current ws st) then st
  else
    let st := match connectionStatus st with
              | StatusPolling => st
              | _ => set_connectionStatus StatusClosed st
              end in
    let st := set_isInitialLoading false st in
    scheduleReconnectPoll st.

(** [closeSocket] is the only place that would reset [wsRef] to [null].
    The component defines it and lists it among the effect's dependencies,
    but nothing calls it: the effect's cleanup leaves the socket alone on
    purpose.  (Its [close()] call only asks the browser to close the
    socket; the [close] event follows later.) *)
Definition closeSocket (st : State) : State :=
  match wsRef st with
  | Some _ => set_wsRef None st
  | None => st
  end.

(** ** The connection effect *)

(** [connect], as the effect body calls it: [rendered] is the
    [connectionStatus] of the render the effect belongs to.  The effect's
    [cancelled] flag is still [false] whenever the body runs, so its two
    tests are left out. *)
Definition connect (rendered : ConnectionStatus) (st : State) : State :=
  let live := match wsRef st with
              | Some existing => bool_decide (existing ∉ closedSockets st)
              | None => false
              end in
  if live then st
  else
    let st := match rendered with
              | StatusPolling => set_lastError None st
              | _ => st
              end in
    let st := set_connectionStatus StatusConnecting st in
    let st := set_constructorCalls (S (constructorCalls st)) st in
    match constructorError st with
    | None =>
        let ws := socketCount st in
        set_wsRef (Some ws) (set_socketCount (S ws) st)
    | Some m =>
        let st := set_connectionStatus StatusError st in
        let st := set_lastError (Some m) st in
        scheduleReconnectPoll st
    end.

Definition effect_body (st : State) : State :=
  match connectionStatus st, wsRef st with
  | StatusConnecting, None => connect StatusConnecting (set_isInitialLoading true st)
  | _, _ => st
  end.

Definition effect_cleanup (st : State) : State := clearPollingTimer st.

(** React re-renders after a handler that changed [connectionStatus], the
    one dependency of the effect that varies: the previous effect is
    cleaned up and the body runs again.  The body can itself change the
    status (a constructor that throws ends in [polling]), which re-renders
    once more; that second body does nothing, the status being [polling]. *)
Definition run_effect (st : State) : State :=
  let st1 := effect_body st in
  if decide (connectionStatus st1 = connectionStatus st) then st1
  else effect_body (effect_cleanup st1).

Definition rerender (rendered : ConnectionStatus) (st : State) : State :=
  if decide (connectionStatus st = rendered) then st
  else run_effect (effect_cleanup st).

(** The first render of the component. *)
Definition mount (ctor_error : option string) : State :=
  run_effect (initial_state ctor_error).

(** ** What the browser delivers *)

Inductive Event : Type :=
| WsOpen (ws : nat)
| WsMessage (ws : nat) (frame : Frame) (clock : Clock)
| WsError (ws : nat)
| WsClose (ws : nat)
| TimerFired (tid : nat).

Definition fire_timer (tid : nat) (st : State) : State :=
  match find (fun t => bool_decide (timer_id t = tid)) (timeouts st) with
  | Some t =>
      let st := clearTimeout tid st in
      match callback t with
      | ReconnectPoll => reconnect_poll_fired st
      | PulseExpiry neuronKey nextId => pulse_expired neuronKey nextId st
      end
  | None => st
  end.

Definition handler (ev : Event) (st : State) : State :=
  match ev with
  | WsOpen ws => onopen ws st
  | WsMessage ws frame clock => onmessage ws frame clock st
  | WsError ws => onerror ws st
  | WsClose ws =>
      (* the socket's readyState is CLOSED by the time the handler runs *)
      onclose ws (set_closedSockets (ws :: closedSockets st) st)
  | TimerFired tid => fire_timer tid st
  end.

(** One turn of the event loop: the handler, then the re-render. *)
Definition step (ev : Event) (st : State) : State :=
  rerender (connectionStatus st) (handler ev st).

Definition run (evs : list Event) (st : State) : State :=
  foldl (fun st ev => step ev st) st evs.

(** * Presentation helpers

    The pure helpers the render path of [Dashboard] calls on the state:
    [describeEvent], [formatHeartbeatTimestamp], [isNeuronBeating] and
    [statusBadgeVariant]. *)

(** ** [String.prototype.trim]

    A string is the UTF-8 text of the JavaScript string.  [trim] removes
    the white space and line terminators of ECMAScript from both ends:
    TAB, LF, VT, FF, CR, SP, U+00A0, U+1680, U+2000..U+200A, U+2028,
    U+2029, U+202F, U+205F, U+3000 and U+FEFF. *)

Definition is_space1 (c : ascii) : bool :=
  let n := nat_of_ascii c in
  (Nat.leb 9 n && Nat.leb n 13) || Nat.eqb n 32.

Definition is_space2 (c1 c2 : ascii) : bool :=
  Nat.eqb (nat_of_ascii c1) 194 && Nat.eqb (nat_of_ascii c2) 160.

Definition is_space3 (c1 c2 c3 : ascii) : bool :=
  let a := nat_of_ascii c1 in
  let b := nat_of_ascii c2 in
  let c := nat_of_ascii c3 in
  (Nat.eqb a 225 && Nat.eqb b 154 && Nat.eqb c 128) ||
  (Nat.eqb a 226 && Nat.eqb b 128 &&
     ((Nat.leb 128 c && Nat.leb c 138) || Nat.eqb c 168 || Nat.eqb c 169 || Nat.eqb c 175)) ||
  (Nat.eqb a 226 && Nat.eqb b 129 && Nat.eqb c 159) ||
  (Nat.eqb a 227 && Nat.eqb b 128 && Nat.eqb c 128) ||
  (Nat.eqb a 239 && Nat.eqb b 187 && Nat.eqb c 191).

Fixpoint trimStart (s : string) : string :=
  match s with
  | EmptyString => EmptyString
  | String c1 r1 =>
      if is_space1 c1 then trimStart r1
      else
        match r1 with
        | String c2 r2 =>
            if is_space2 c1 c2 then trimStart r2
            else
              match r2 with
              | String c3 r3 => if is_space3 c1 c2 c3 then trimStart r3 else s
              | EmptyString => s
              end
        | EmptyString => s
        end
  end.

(** Nothing but white space. *)
Definition blank (s : string) : bool := String.eqb (trimStart s) "".

Fixpoint trimEnd (s : string) : string :=
  match s with
  | EmptyString => EmptyString
  | String c r => if blank s then EmptyString else String c (trimEnd r)
  end.

Definition trim (s : string) : string := trimEnd (trimStart s).

(** ** [describeEvent] *)

(** [a || b] *)
Definition or_else (a b : jsval) : jsval := if JS.truthy a then a else b.

(** An array index as a property key: the decimal numeral, without
    leading zeros, of a number below [2^32 - 1]. *)
Definition digit_of (c : ascii) : option N :=
  let n := N_of_ascii c in
  if (48 <=? n)%N && (n <=? 57)%N then Some (n - 48)%N else None.

Fixpoint index_value_from (acc : N) (s : string) : option N :=
  match s with
  | EmptyString => Some acc
  | String c r => d ← digit_of c; index_value_from (acc * 10 + d)%N r
  end.

Definition integer_index (k : string) : option N :=
  match k with
  | EmptyString => None
  | String c r =>
      if Nat.eqb (nat_of_ascii c) 48 && negb (String.eqb r "") then None
      else n ← index_value_from 0%N k;
           if (n <? 4294967295)%N then Some n else None
  end.

Fixpoint least_index (best : N * string) (l : list (N * string)) : string :=
  match l with
  | [] => best.2
  | x :: r => least_index (if (x.1 <? best.1)%N then x else best) r
  end.

(** [Object.keys(v)[0]] on an object or array: the keys that are array
    indices come first, in ascending order, then the others in the order
    they were created. *)
Definition first_key (v : jsval) : jsval :=
  match v with
  | JObject props =>
      match omap (fun kv : string * jsval => n ← integer_index kv.1; Some (n, kv.1)) props with
      | x :: r => JString (least_index x r)
      | [] => match props with
              | (k, _) :: _ => JString k
              | [] => JUndefined
              end
      end
  | JArray (_ :: _) => JString "0"
  | _ => JUndefined
  end.

(** [typeof s === "string" && s.length > 0] *)
Definition nonempty_string (v : jsval) : option string :=
  match v with
  | JString s => if String.eqb s "" then None else Some s
  | _ => None
  end.

(** The [switch (e.type)] of [describeEvent]. *)
Definition describe_event (e type : jsval) : result string :=
  if JS.is_string type "neuron_registered" then
    neuron ← JS.get e "neuron";
    label ← JS.get neuron "label";
    shown ← (if JS.nullish label then
               node_id ← JS.get neuron "node_id";
               Ok (JS.coalesce node_id (JString "unknown neuron"))
             else Ok label);
    text ← JS.toString shown;
    Ok ("neuron_registered: " ++ text)
  else if JS.is_string type "neuron_removed" then
    neuron_id ← JS.get e "neuron_id";
    text ← JS.toString neuron_id;
    Ok ("neuron_removed: " ++ text)
  else if JS.is_string type "neuron_heartbeat" then
    neuron_id ← JS.get e "neuron_id";
    text ← JS.toString neuron_id;
    Ok ("neuron_heartbeat: " ++ text)
  else if JS.is_string type "provisioning_sent" then
    cmd ← JS.get e "cmd";
    cmd_kind ← JS.get cmd "kind";
    kind_text ← JS.toString cmd_kind;
    let base := "provisioning_sent: " ++ kind_text in
    if JS.is_string cmd_kind "upsert_model_config" then
      config ← JS.get cmd "config";
      config_id ← (if JS.truthy config then JS.get config "id" else Ok config);
      text ← JS.toString (or_else config_id (JString "model"));
      Ok (base ++ " (" ++ text ++ ")")
    else if JS.is_string cmd_kind "load_model" || JS.is_string cmd_kind "unload_model" then
      model_id ← JS.get cmd "model_id";
      text ← JS.toString (or_else model_id (JString "model"));
      Ok (base ++ " (" ++ text ++ ")")
    else Ok base
  else if JS.is_string type "provisioning_response" then
    raw ← JS.get e "response";
    let tag := if JS.truthy raw && typeof_is raw "object" then first_key raw
               else JString "response" in
    tag_text ← JS.toString tag;
    neuron_id ← JS.get e "neuron_id";
    text ← JS.toString neuron_id;
    Ok ("provisioning_response: " ++ tag_text ++ " for " ++ text)
  else if JS.is_string type "model_state_changed" then
    models_field ← JS.get e "models";
    match JS.coalesce models_field (JArray []) with
    | JArray models =>
        model_ids ← mapM_result (fun m => JS.get m "model_id") models;
        let ids := omap nonempty_string model_ids in
        let summary := match ids with
                       | [] => "models updated"
                       | _ => "models updated: " ++ JS.join ", " ids
                       end in
        neuron_id ← JS.get e "neuron_id";
        text ← JS.toString neuron_id;
        Ok ("model_state_changed for " ++ text ++ ": " ++ summary)
    | _ => Throw "models.map is not a function"
    end
  else if JS.is_string type "cortex_shutdown_notice" then
    reason ← JS.get e "reason";
    match reason with
    | JUndefined | JNull => Ok "cortex_shutdown_notice: cortex is shutting down"
    | JString s =>
        let trimmed := trim s in
        Ok ("cortex_shutdown_notice: " ++
            (if String.eqb trimmed "" then "cortex is shutting down" else trimmed))
    | _ => Throw "e.reason?.trim is not a function"
    end
  else Ok "event".

(** The number of UTF-16 code units of a string given as UTF-8 text: one
    for each character of up to three bytes, two for a four-byte one. *)
Fixpoint utf16_length (s : string) : nat :=
  match s with
  | EmptyString => 0
  | String c r =>
      let n := nat_of_ascii c in
      (if Nat.leb 128 n && Nat.ltb n 192 then 0 else if Nat.leb 240 n then 2 else 1)
      + utf16_length r
  end.

(** [v.length] *)
Definition length_of (v : jsval) : result jsval :=
  match v with
  | JString s => Ok (JNumber (JS.decimal (utf16_length s)))
  | _ => JS.get v "length"
  end.

Definition describeEvent (msg : jsval) : result string :=
  msg_kind ← JS.get msg "kind";
  if JS.is_string msg_kind "snapshot" then
    msg_snapshot ← JS.get msg "snapshot";
    neurons ← JS.get msg_snapshot "neurons";
    count ← length_of neurons;
    count_text ← JS.toString count;
    Ok ("snapshot: " ++ count_text ++ " neuron" ++
        (if strict_eq count (JNumber "1") then "" else "s"))
  else
    e ← JS.get msg "event";
    type ← JS.get e "type";
    describe_event e type.

(** ** [statusBadgeVariant] *)

Definition statusBadgeVariant (status : ConnectionStatus) : string :=
  match status with
  | StatusConnecting => "warning"
  | StatusOpen => "success"
  | StatusPolling => "info"
  | StatusClosed => "secondary"
  | StatusError => "danger"
  end.

(** ** [isNeuronBeating]

    [Boolean(heartbeatAnimIds[neuronId])] for the key
    [descriptor.node_id ?? descriptor.label].  The record of pulse ids is
    a plain object, so a key it does not hold itself is looked up in
    [Object.prototype], whose members are all truthy. *)

Definition object_prototype_names : list string :=
  ["constructor"; "__defineGetter__"; "__defineSetter__"; "hasOwnProperty";
   "__lookupGetter__"; "__lookupSetter__"; "isPrototypeOf"; "propertyIsEnumerable";
   "toString"; "valueOf"; "__proto__"; "toLocaleString"].

Definition inherited_name (k : string) : bool :=
  bool_decide (k ∈ object_prototype_names).

Definition isNeuronBeating (st : State) (descriptor : jsval) : result bool :=
  if negb (JS.truthy descriptor) then Ok false
  else
    node_id ← JS.get descriptor "node_id";
    neuronId ← (if JS.nullish node_id then JS.get descriptor "label" else Ok node_id);
    if negb (JS.truthy neuronId) then Ok false
    else
      key ← JS.toString neuronId;
      Ok (match heartbeatAnimIds st !! key with
          | Some pulse => negb (Nat.eqb pulse 0)
          | None => inherited_name key
          end).

(** ** The rows of the neuron list

    The label the render path computes for row [idx] of the table,
    [descriptor.label ?? descriptor.node_id ?? `Neuron #${idx + 1}`]. *)

Definition row_label (n : jsval) (idx : nat) : result jsval :=
  descriptor ← JS.get n "descriptor";
  label ← JS.get descriptor "label";
  if JS.nullish label then
    node_id ← JS.get descriptor "node_id";
    Ok (JS.coalesce node_id (JString ("Neuron #" ++ JS.decimal (idx + 1))))
  else Ok label.

(** ** The connection card

    The error line, [!isInitialLoading && lastError && <div>...</div>]:
    the text it shows, if it is rendered. *)

Definition error_line (st : State) : option string :=
  if isInitialLoading st then None
  else match lastError st with
       | Some m => if String.eqb m "" then None else Some m
       | None => None
       end.

(** ** [formatHeartbeatTimestamp]

    [iso_of_seconds secs] stands for [new Date(secs * 1000).toISOString()]
    on the number printed as [secs]: [None] when the number is not finite
    or the date is out of range, the cases the function answers with
    ["heartbeat time unavailable"]. *)

Section HeartbeatTimestamp.

Variable iso_of_seconds : string -> option string.

Definition formatHeartbeatTimestamp (value : jsval) : jsval :=
  if JS.nullish value then JString "no heartbeat yet"
  else
    match value with
    | JString s => if blank s then JString "no heartbeat yet" else value
    | _ =>
        match (if typeof_is value "object" then JS.has "secs_since_epoch" value
               else Ok false) with
        | Ok true =>
            match JS.prop value "secs_since_epoch" with
            | JNumber secs =>
                match iso_of_seconds secs with
                | Some iso => JString iso
                | None => JString "heartbeat time unavailable"
                end
            | _ => JString "heartbeat time unavailable"
            end
        | _ => JS.JSON_stringify value
        end
    end.

End HeartbeatTimestamp.

(** * The vocabulary of the properties

    The shapes of normalized values, the predicates that state the
    design's claims in its own words, and the concrete states and frames
    the examples run on. *)

(** ** Shapes of normalized values *)

(** A normalized model id is a string, or [undefined] when the wire had
    none. *)
Definition is_model_id (v : jsval) : Prop :=
  v = JUndefined \/ exists s, v = JString s.

(** The two shapes [normalizeProvisioningCommand] returns. *)
Definition is_command (cmd : jsval) : Prop :=
  (exists config, cmd = upsert_model_config config) \/
  (exists k m, (k = "load_model" \/ k = "unload_model") /\ is_model_id m /\
               cmd = model_command (JString k) m).

Definition is_object (v : jsval) : Prop := exists props, v = JObject props.

(** A normalized snapshot, [{neurons: [...]}]. *)
Definition table_of (neurons : list jsval) : jsval := JObject [("neurons", JArray neurons)].

(** [{kind: "snapshot", snapshot: table}] *)
Definition snapshot_message (table : jsval) : jsval :=
  JObject [("kind", JString "snapshot"); ("snapshot", table)].

(** The payloads of the normalized [model_state_changed] and
    [neuron_heartbeat] events. *)
Definition model_state_changed (neuron_id : string) (models : jsval) : list (string * jsval) :=
  [("type", JString "model_state_changed"); ("neuron_id", JString neuron_id);
   ("models", models)].

Definition neuron_heartbeat (neuron_id : string) (metrics : jsval) : list (string * jsval) :=
  [("type", JString "neuron_heartbeat"); ("neuron_id", JString neuron_id);
   ("metrics", metrics)].

(** The log entries of a snapshot and of an event received when the id
    counter is [n]. *)
Definition snapshot_item (n : nat) (clock : Clock) (table : jsval) : EventLogItem :=
  {| id := n; receivedAt := timeOfDay clock; kind := JString "snapshot";
     eventType := JString "snapshot"; payload := snapshot_message table |}.

Definition event_item (n : nat) (clock : Clock) (event : list (string * jsval)) : EventLogItem :=
  {| id := n; receivedAt := timeOfDay clock; kind := JString "event";
     eventType := JS.prop (JObject event) "type"; payload := event_message event |}.

(** The state right after the log entry was appended. *)
Definition logged (item : EventLogItem) (st : State) : State :=
  append_event item (set_nextEventIdRef (nextEventIdRef st + 1) st).

(** ** Provisioning commands *)

(** The command shapes in the words of the design: the explicit-kind
    shape names one of the three operations in its [kind]; the legacy
    shape has the operation's variant name as its sole key; every other
    shape is unrecognized. *)
Definition explicit_kind_shape (wire : jsval) : Prop :=
  exists k, JS.prop wire "kind" = JString k /\
            k ∈ ["upsert_model_config"; "load_model"; "unload_model"].

Definition legacy_shape (wire : jsval) : Prop :=
  exists k v, k ∈ ["UpsertModelConfig"; "LoadModel"; "UnloadModel"] /\ wire = JObject [(k, v)].

Definition unrecognized_shape (wire : jsval) : Prop :=
  ~ explicit_kind_shape wire /\ ~ legacy_shape wire.

(** What the code tests in place of the legacy shape: that a variant
    name is among the keys, alone or not. *)
Definition holds_legacy_key (wire : jsval) : Prop :=
  exists k, k ∈ ["UpsertModelConfig"; "LoadModel"; "UnloadModel"] /\ JS.has k wire = Ok true.

(** The design's claim about unrecognized shapes, for one payload: it
    comes back whole, as the config of an [upsert_model_config]. *)
Definition preserved_raw (wire : jsval) : Prop :=
  normalizeProvisioningCommand wire = Ok (upsert_model_config wire).

(** A payload with the key [LoadModel] and one more member. *)
Definition annotated_load : jsval :=
  JObject [("LoadModel", JString "gpt-small"); ("priority", JNumber "9")].

(** ** The neuron table *)

(** The neuron an event's [neuron_id] names, in the words of the design:
    its descriptor's [node_id] or its descriptor's [label] equals the id. *)
Definition names_neuron (neuron_id : string) (n : jsval) : Prop :=
  JS.prop (JS.prop n "descriptor") "node_id" = JString neuron_id \/
  JS.prop (JS.prop n "descriptor") "label" = JString neuron_id.

(** The test of [heartbeat_neuron], as a boolean. *)
Definition names_neuron_b (neuron_id : string) (n : jsval) : bool :=
  let descriptor := JS.prop n "descriptor" in
  JS.truthy descriptor &&
  (strict_eq (JS.prop descriptor "node_id") (JString neuron_id) ||
   strict_eq (JS.prop descriptor "label") (JString neuron_id)).

(** The claim about [model_state_changed] as the design states it, for
    one frame: the table entry of every neuron the event names ends up
    holding the event's model list. *)
Definition replaces_model_list (st : State) (ws : nat) (wire : jsval) (clock : Clock) : Prop :=
  forall neuron_id models neurons,
    normalizeMessage wire = Ok (event_message (model_state_changed neuron_id models)) ->
    snapshot st = table_of neurons ->
    exists neurons',
      snapshot (step (WsMessage ws (Decoded wire) clock) st) = table_of neurons' /\
      forall i n, neurons !! i = Some n -> names_neuron neuron_id n ->
                  exists n', neurons' !! i = Some n' /\ JS.prop n' "models" = models.

(** ** Malformed frames *)

(** A decoded frame without the [kind: snapshot] or [kind: event]
    framing. *)
Definition lacks_framing (wire : jsval) : Prop :=
  JS.prop wire "kind" <> JString "snapshot" /\ JS.prop wire "kind" <> JString "event".

Definition malformed (frame : Frame) : Prop :=
  (exists m, frame = Undecodable m) \/
  (exists wire, frame = Decoded wire /\ lacks_framing wire).

(** The frames [onmessage] rejects among the malformed ones: text that
    does not parse, and decoded frames without the framing whose [event]
    member is absent or [null]. *)
Definition rejected (frame : Frame) : Prop :=
  (exists m, frame = Undecodable m) \/
  (exists wire, frame = Decoded wire /\ lacks_framing wire /\
                JS.nullish (JS.prop wire "event") = true).

(** The failure is only reported: an error message is set, while the
    connection state, the table and the log stay as they were. *)
Definition only_reports_error (st st' : State) : Prop :=
  (exists m, lastError st' = Some m) /\
  connectionStatus st' = connectionStatus st /\
  snapshot st' = snapshot st /\
  events st' = events st.

(** Two decoded frames, neither [null] nor a snapshot, that carry the
    same [event] member. *)
Definition same_event (w1 w2 : jsval) : Prop :=
  JS.nullish w1 = false /\ JS.nullish w2 = false /\
  JS.prop w1 "kind" <> JString "snapshot" /\ JS.prop w2 "kind" <> JString "snapshot" /\
  JS.prop w1 "event" = JS.prop w2 "event".

(** Two log entries with the same id, time and event type: they can
    differ in the [kind] shown and in the payload kept. *)
Definition same_entry (a b : EventLogItem) : Prop :=
  id a = id b /\ receivedAt a = receivedAt b /\ eventType a = eventType b.

(** Two states that are equal in everything but the log, whose entries
    correspond one to one. *)
Definition same_but_log (st1 st2 : State) : Prop :=
  set_events [] st1 = set_events [] st2 /\
  Forall2 same_entry (events st1) (events st2).

(** ** The audit trail *)

(** [JSON.parse] followed by [normalizeMessage]. *)
Definition delivered (frame : Frame) : result jsval :=
  wire ← JSON_parse frame; normalizeMessage wire.

(** The normalized payload of a frame that is processed: it decodes,
    normalizes, and has the tags a log entry needs. *)
Definition processed (frame : Frame) : option jsval :=
  match data ← delivered frame; _ ← item_tags data; Ok data with
  | Ok data => Some data
  | Throw _ => None
  end.

(** The unbounded audit trail of a run of arrivals: the entry of every
    processed frame, in arrival order, [next] being the id counter when
    the first one arrives.  A frame that normalizes but cannot be tagged
    consumes an id without leaving an entry. *)
Fixpoint audit_trail (next : nat) (arrivals : list (Frame * Clock)) : list EventLogItem :=
  match arrivals with
  | [] => []
  | (frame, clock) :: rest =>
      match delivered frame with
      | Throw _ => audit_trail next rest
      | Ok data =>
          match log_item next clock data with
          | Ok item => item :: audit_trail (next + 1) rest
          | Throw _ => audit_trail (next + 1) rest
          end
      end
  end.

(** The arrivals as events on socket [ws]. *)
Definition messages (ws : nat) (arrivals : list (Frame * Clock)) : list Event :=
  map (fun a => WsMessage ws a.1 a.2) arrivals.

(** Every id in the log lies between [lo] and the id counter. *)
Definition log_between (lo : nat) (st : State) : Prop :=
  lo <= nextEventIdRef st /\
  Forall (fun item => lo <= id item < nextEventIdRef st) (events st).

(** ** Invariants of reachable states *)

(** A first render whose constructor threw is left in [polling] with the
    reconnect timer already cancelled by the effect's cleanup: nothing is
    pending, and no socket exists whose callbacks could run. *)
Definition stranded (st : State) : Prop :=
  wsRef st = None /\ timeouts st = [] /\ connectionStatus st = StatusPolling.

(** The table is [null] or a list of neuron objects. *)
Definition table_ok (table : jsval) : Prop :=
  table = JNull \/ exists neurons, table = table_of neurons /\ Forall is_object neurons.

Definition state_ok (st : State) : Prop :=
  table_ok (snapshot st) /\ renderError st = None /\ length (events st) <= 300.

(** What [normalizeMessage] can return, as far as [apply_message] looks
    at it: a snapshot message carrying a table, or something that is not a
    snapshot and, if it is a heartbeat, has a string for [neuron_id]. *)
Definition message_ok (data : jsval) : Prop :=
  (exists table neurons, data = snapshot_message table /\ table = table_of neurons /\
                         Forall is_object neurons) \/
  (JS.prop data "kind" <> JString "snapshot" /\
   (JS.prop (JS.prop data "event") "type" = JString "neuron_heartbeat" ->
    exists s, JS.prop (JS.prop data "event") "neuron_id" = JString s)).

(** ** Example states and frames *)

Definition noon : Clock := {| timeOfDay := "12:00:00"; nowIso := "2025-06-01T12:00:00.000Z" |}.

(** What [normalizeSnapshot] makes of the legacy descriptor
    [{node_id, label: null, metadata: {}}]. *)
Definition legacy_neuron (node_id : string) : jsval :=
  JObject [("descriptor", JObject [("node_id", JString node_id); ("label", JString node_id);
                                   ("metadata", JObject [])]);
           ("last_heartbeat_at", JNull); ("health", JString "unknown");
           ("offline", JBool false); ("models", JArray [])].

(** A neuron whose label differs from its [node_id]. *)
Definition labelled_neuron : jsval :=
  JObject [("descriptor", JObject [("node_id", JString "n1"); ("label", JString "alpha");
                                   ("metadata", JObject [])]);
           ("last_heartbeat_at", JNull); ("health", JString "healthy");
           ("offline", JBool false); ("models", JArray [])].

(** An open connection on socket 0 showing one neuron, [n1]. *)
Definition one_neuron_state : State :=
  set_snapshot (table_of [legacy_neuron "n1"])
    (set_isInitialLoading false
       (set_connectionStatus StatusOpen
          (set_wsRef (Some 0) (set_socketCount 1 (set_constructorCalls 1 (initial_state None)))))).

(** The same connection showing [labelled_neuron] and [n2]. *)
Definition two_neuron_state : State :=
  set_snapshot (table_of [labelled_neuron; legacy_neuron "n2"]) one_neuron_state.

(** Socket 0 was superseded by socket 1. *)
Definition stale_example : State :=
  set_wsRef (Some 1) (set_socketCount 2 (set_connectionStatus StatusOpen (initial_state None))).

Definition snapshot_frame : jsval :=
  JObject [("kind", JString "snapshot");
           ("snapshot", JObject [("neurons", JArray [labelled_neuron])])].

Definition neurons_not_a_list : jsval :=
  JObject [("kind", JString "snapshot");
           ("snapshot", JObject [("neurons", JString "none")])].

Definition gpt_small_loaded : jsval :=
  JObject [("model_id", JString "gpt-small"); ("last_cmd_kind", JString "load_model");
           ("last_response", JNull); ("effective_status", JString "loaded")].

Definition model_state_frame : jsval :=
  JObject [("kind", JString "event");
           ("event", JObject [("type", JString "model_state_changed");
                              ("neuron_id", JString "n1");
                              ("models", JArray [gpt_small_loaded])])].

Definition heartbeat_by_label : jsval :=
  JObject [("kind", JString "event");
           ("event", JObject [("type", JString "neuron_heartbeat");
                              ("neuron_id", JString "alpha")])].

Definition shutdown_frame : jsval :=
  JObject [("kind", JString "event");
           ("event", JObject [("type", JString "cortex_shutdown_notice");
                              ("reason", JString "maintenance")])].

(** A shutdown notice under a [kind] the protocol does not have. *)
Definition unframed_notice : jsval :=
  JObject [("kind", JString "notice");
           ("event", JObject [("type", JString "cortex_shutdown_notice");
                              ("reason", JString "drill")])].

Definition kind_only_frame : Frame := Decoded (JObject [("kind", JString "ping")]).

(** The notice of [unframed_notice] under the framing of an event. *)
Definition framed_notice : jsval :=
  JObject [("kind", JString "event");
           ("event", JObject [("type", JString "cortex_shutdown_notice");
                              ("reason", JString "drill")])].

Definition heartbeat_arrivals : list (Frame * Clock) :=
  replicate 301 (Decoded heartbeat_by_label, noon).

(** A first epoch that logged a snapshot and a heartbeat. *)
Definition first_epoch : State :=
  run [WsOpen 0; WsMessage 0 (Decoded snapshot_frame) noon;
       WsMessage 0 (Decoded heartbeat_by_label) noon] (mount None).

(** ** Vocabulary of the further properties *)

(** A wire neuron in the structured shape: an object with a [descriptor]
    member. *)
Definition structured (n : jsval) : Prop :=
  exists props, n = JObject props /\ is_Some (JS.lookup_prop "descriptor" props).

(** A structured neuron whose [models] array has a [null] entry. *)
Definition poisoned (n : jsval) : Prop :=
  structured n /\
  exists items, JS.prop n "models" = JArray items /\
                Exists (fun m => JS.nullish m = true) items.

Definition poisoned_frame : jsval :=
  JObject [("kind", JString "snapshot");
           ("snapshot",
            JObject [("neurons",
                      JArray [JObject [("descriptor", JObject [("node_id", JString "n9")]);
                                       ("models", JArray [JNull])]])])].

(** A row of the normalized table. *)
Definition neuron_row (descriptor last_heartbeat_at health : jsval) (offline : bool)
    (models : list jsval) : jsval :=
  JObject [("descriptor", descriptor); ("last_heartbeat_at", last_heartbeat_at);
           ("health", health); ("offline", JBool offline); ("models", JArray models)].

(** [n && n.k]: the member [k] of a legacy entry, or the entry itself
    when it is falsy. *)
Definition wire_member (n : jsval) (k : string) : jsval :=
  if JS.truthy n then JS.prop n k else n.

(** A legacy flat descriptor without a label. *)
Definition unlabelled_descriptor : jsval :=
  JObject [("node_id", JNull); ("metadata", JObject [("backend", JString "vllm")])].

(** The event types [normalizeMessage] and [describeEvent] know. *)
Definition known_event_types : list string :=
  ["neuron_registered"; "neuron_removed"; "neuron_heartbeat"; "provisioning_sent";
   "provisioning_response"; "model_state_changed"; "cortex_shutdown_notice"].

(** An event of a type a later cortex might send. *)
Definition future_frame : jsval :=
  JObject [("kind", JString "event");
           ("event", JObject [("type", JString "neuron_drained");
                              ("neuron_id", JString "n1")])].

(** A heartbeat frame for the neuron id [n1]. *)
Definition heartbeat_n1 : jsval :=
  JObject [("kind", JString "event");
           ("event", JObject [("type", JString "neuron_heartbeat");
                              ("neuron_id", JString "n1")])].

(** The expiry timer a heartbeat for [neuronKey] schedules. *)
Definition pulse_timer (tid : nat) (neuronKey : string) (nextId : nat) : Timeout :=
  {| timer_id := tid; delay_ms := 4000%N; callback := PulseExpiry neuronKey nextId |}.

(** Every pending timer was handed out before [nextTimerId]. *)
Definition timers_fresh (st : State) : Prop :=
  Forall (fun t => timer_id t < nextTimerId st) (timeouts st).

(** Two heartbeats for [n1] in a row. *)
Definition two_beats : State :=
  run [WsMessage 0 (Decoded heartbeat_n1) noon; WsMessage 0 (Decoded heartbeat_n1) noon]
    one_neuron_state.

Definition n1_descriptor : jsval :=
  JObject [("node_id", JString "n1"); ("label", JString "n1"); ("metadata", JObject [])].

(** ** Timer discipline *)

(** The pending timers are well-formed for the id counter [next] and the
    reference [ref] of the reconnect timer: ids are unique and below
    [next], a reconnect timer is the one [ref] holds and waits 60 s, a
    pulse expiry waits 4 s. *)
Definition timers_ok_at (ts : list Timeout) (next : nat) (ref : option nat) : Prop :=
  NoDup (timer_id <$> ts) /\
  forall t, t ∈ ts ->
    timer_id t < next /\
    match callback t with
    | ReconnectPoll => ref = Some (timer_id t) /\ delay_ms t = 60000%N
    | PulseExpiry _ _ => delay_ms t = 4000%N
    end.

Definition timers_ok (st : State) : Prop :=
  timers_ok_at (timeouts st) (nextTimerId st) (pollingTimerRef st).

Definition no_reconnect_timer (ts : list Timeout) : Prop :=
  forall t, t ∈ ts -> callback t <> ReconnectPoll.

(** A reconnect timer is pending only while the status is [polling]. *)
Definition polling_only (st : State) : Prop :=
  forall t, t ∈ timeouts st -> callback t = ReconnectPoll ->
            connectionStatus st = StatusPolling.

Definition timers_disciplined (st : State) : Prop :=
  timers_ok st /\ polling_only st.

(** A log entry holds a message in normal form, tagged as [onmessage]
    tags it. *)
Definition entry_ok (item : EventLogItem) : Prop :=
  normalizeMessage (payload item) = Ok (payload item) /\
  item_tags (payload item) = Ok (kind item, eventType item).

(** The banners of the connection card: the error line and the notice of
    a planned shutdown. *)
Definition error_shown (st : State) : Prop := is_Some (lastError st).

Definition shutdown_shown (st : State) : Prop :=
  seenShutdownNotice (shutdownState st) = true.

(** [one_neuron_state] after a frame that did not parse. *)
Definition failed_state : State :=
  set_lastError (Some "Failed to parse message: Unexpected end of JSON input")
    one_neuron_state.

(** A [neuron_removed] event for the neuron [one_neuron_state] shows. *)
Definition removal_frame : jsval :=
  JObject [("kind", JString "event");
           ("event", JObject [("type", JString "neuron_removed");
                              ("neuron_id", JString "n1")])].

(** The event types whose description reads members that
    [normalizeMessage] passes through unchecked. *)
Definition unchecked_event_types : list string :=
  ["neuron_registered"; "provisioning_sent"; "cortex_shutdown_notice"].

(** The normalized [cortex_shutdown_notice] event. *)
Definition shutdown_notice (reason : jsval) : list (string * jsval) :=
  [("type", JString "cortex_shutdown_notice"); ("reason", reason)].

(** A shutdown notice whose reason is a structured value. *)
Definition coded_shutdown_frame : jsval :=
  JObject [("kind", JString "event");
           ("event", JObject [("type", JString "cortex_shutdown_notice");
                              ("reason", JObject [("code", JNumber "503")])])].

(** The normalized [neuron_registered] event. *)
Definition neuron_registered (neuron : jsval) : list (string * jsval) :=
  [("type", JString "neuron_registered"); ("neuron", neuron)].

(** A registration that names no neuron. *)
Definition empty_registration : jsval :=
  JObject [("kind", JString "event");
           ("event", JObject [("type", JString "neuron_registered")])].

(** A structured neuron whose descriptor is [null]. *)
Definition anonymous_neuron : jsval :=
  JObject [("descriptor", JNull); ("health", JString "healthy")].

(** A row is identified by text when its [node_id] or its label is a
    string. *)
Definition text_identified (n : jsval) : Prop :=
  (exists s, JS.prop (JS.prop n "descriptor") "node_id" = JString s) \/
  (exists s, JS.prop (JS.prop n "descriptor") "label" = JString s).

(** A table whose only neuron has the number 7 for [node_id], and a
    heartbeat for the neuron 7. *)
Definition numbered_neuron : jsval :=
  neuron_row (JObject [("node_id", JNumber "7"); ("label", JNumber "7");
                       ("metadata", JObject [])])
    JNull (JString "unknown") false [].

Definition numbered_state : State := set_snapshot (table_of [numbered_neuron]) one_neuron_state.

Definition numbered_heartbeat : jsval :=
  JObject [("kind", JString "event");
           ("event", JObject [("type", JString "neuron_heartbeat");
                              ("neuron_id", JNumber "7")])].

(** The normalized [provisioning_sent] event. *)
Definition provisioning_sent (neuron_id : string) (cmd : jsval) : list (string * jsval) :=
  [("type", JString "provisioning_sent"); ("neuron_id", JString neuron_id); ("cmd", cmd)].

(** What [describeEvent] prints between the parentheses for a model id:
    the id, or ["model"] when it is missing or empty. *)
Definition model_text (model_id : jsval) : string :=
  match model_id with
  | JString s => if String.eqb s "" then "model" else s
  | _ => "model"
  end.

(** A legacy [LoadModel] command that names no model. *)
Definition anonymous_load_frame : jsval :=
  JObject [("kind", JString "event");
           ("event", JObject [("type", JString "provisioning_sent");
                              ("neuron_id", JString "n1");
                              ("cmd", JObject [("LoadModel", JString "")])])].

(** ** Tables in normal form *)

(** A row as [normalizeSnapshot] builds it: the five members in order, a
    heartbeat time that is never [undefined], a health that is never
    [null], a boolean [offline] and a normalized list of models. *)
Definition normal_row (r : jsval) : Prop :=
  exists descriptor last_heartbeat_at health offline models,
    r = neuron_row descriptor last_heartbeat_at health offline models /\
    last_heartbeat_at <> JUndefined /\
    JS.nullish health = false /\
    normalizeModels (JArray models) = Ok (JArray models).

Definition table_normal (table : jsval) : Prop :=
  table = JNull \/ exists rows, table = table_of rows /\ Forall normal_row rows.

(** ** Model rows *)

(** A model status as [normalizeModels] builds it. *)
Definition model_row (m : jsval) : Prop :=
  exists model_id last_cmd_kind last_response effective_status,
    m = JObject [("model_id", model_id); ("last_cmd_kind", last_cmd_kind);
                 ("last_response", last_response); ("effective_status", effective_status)] /\
    is_model_id model_id /\
    JS.nullish last_cmd_kind = false /\
    last_response <> JUndefined /\
    JS.nullish effective_status = false.

(** A model list in the newtype wire format, with one bare entry. *)
Definition wrapped_models : jsval :=
  JArray [JObject [("model_id", JObject [("0", JString "gpt-small")]);
                   ("effective_status", JString "loaded")];
          JNumber "3"].

(** Frames that arrive right after [open], before any snapshot: one that
    does not parse, and a heartbeat. *)
Definition early_arrivals : list (Frame * Clock) :=
  [(Undecodable "Unexpected end of JSON input", noon); (Decoded heartbeat_n1, noon)].

(** * Properties *)

(** ** Model ids and provisioning commands *)

Lemma JSON_stringify_model_id (v : jsval) : is_model_id (JS.JSON_stringify v).
Proof.
  unfold JS.JSON_stringify. destruct (JS.stringify v) as [s|].
  - right. by exists s.
  - by left.
Qed.

Lemma normalizeModelId_total (id : jsval) :
  exists m, normalizeModelId id = Ok m /\ is_model_id m.
Proof.
  unfold normalizeModelId.
  destruct id as [| |b|r|s|items|props]; cbn -[JS.JSON_stringify JS.array_index];
    try (eexists; split; [reflexivity|apply JSON_stringify_model_id]).
  - destruct b; cbn -[JS.JSON_stringify];
      eexists; (split; [reflexivity|apply JSON_stringify_model_id]).
  - destruct (negb (String.eqb r "0")); cbn -[JS.JSON_stringify];
      eexists; (split; [reflexivity|apply JSON_stringify_model_id]).
  - eexists; split; [reflexivity|]. right. by exists s.
  - destruct (_ || _); cbn -[JS.JSON_stringify JS.array_index].
    + destruct (typeof_is _ "string") eqn:Ht.
      * eexists; split; [reflexivity|].
        destruct (match JS.array_index "0" (length items) with Some _ => _ | None => _ end);
          try discriminate. right. eauto.
      * eexists; split; [reflexivity|apply JSON_stringify_model_id].
    + eexists; split; [reflexivity|apply JSON_stringify_model_id].
  - destruct (bool_decide _); cbn -[JS.JSON_stringify].
    + destruct (typeof_is _ "string") eqn:Ht.
      * eexists; split; [reflexivity|].
        destruct (default JUndefined (JS.lookup_prop "0" props)); try discriminate.
        right. eauto.
      * eexists; split; [reflexivity|apply JSON_stringify_model_id].
    + eexists; split; [reflexivity|apply JSON_stringify_model_id].
Qed.

Lemma normalizeModelId_string (s : string) : normalizeModelId (JString s) = Ok (JString s).
Proof. reflexivity. Qed.

Lemma string_or_normalized_total (mid : jsval) :
  exists m, string_or_normalized mid = Ok m /\ is_model_id m.
Proof.
  unfold string_or_normalized. destruct (typeof_is mid "string") eqn:Ht.
  - exists mid. split; [done|]. destruct mid; try discriminate. right. eauto.
  - apply normalizeModelId_total.
Qed.

Lemma is_string_spec (v : jsval) (s : string) : JS.is_string v s = true <-> v = JString s.
Proof.
  destruct v; cbn; try (split; [discriminate|by inversion 1]).
  rewrite String.eqb_eq. split; [by intros ->|by inversion 1].
Qed.

Lemma is_string_false (v : jsval) (s : string) : v <> JString s -> JS.is_string v s = false.
Proof.
  intros Hne. destruct (JS.is_string v s) eqn:E; [|done].
  by apply is_string_spec in E.
Qed.

Lemma get_defined (v : jsval) (k : string) :
  JS.nullish v = false -> JS.get v k = Ok (JS.prop v k).
Proof. intros H. unfold JS.get. by rewrite H. Qed.

Lemma truthy_not_nullish (v : jsval) : JS.truthy v = true -> JS.nullish v = false.
Proof. by destruct v. Qed.

Lemma get_truthy (v : jsval) (k : string) :
  JS.truthy v = true -> JS.get v k = Ok (JS.prop v k).
Proof. intros H. by apply get_defined, truthy_not_nullish. Qed.

Lemma has_object (k : string) (v : jsval) :
  JS.truthy v = true -> typeof_is v "object" = true -> exists b, JS.has k v = Ok b.
Proof. intros Ht Ho. destruct v; try discriminate; cbn -[JS.array_index]; eauto. Qed.

(** Unfolds the binds of the [result] monad and nothing else. *)
Ltac rsimpl := cbn [mbind result_mbind result_bind mret result_ret].
Tactic Notation "rsimpl" "in" hyp(H) :=
  cbn [mbind result_mbind result_bind mret result_ret] in H.

Lemma explicit_kind_command_total (wire : jsval) :
  JS.truthy wire = true -> typeof_is wire "object" = true ->
  exists r, explicit_kind_command wire = Ok r.
Proof.
  intros Ht Ho. unfold explicit_kind_command.
  destruct (has_object "kind" wire Ht Ho) as [b ->]. rsimpl.
  destruct b; [|eauto]. rewrite !get_truthy by done. rsimpl.
  destruct (JS.is_string _ "upsert_model_config"); [eauto|].
  destruct (_ || _); [|eauto].
  destruct (string_or_normalized_total (JS.prop wire "model_id")) as (m & -> & _).
  rsimpl. eauto.
Qed.

Lemma legacy_command_total (wire : jsval) :
  JS.truthy wire = true -> typeof_is wire "object" = true ->
  exists r, legacy_command wire = Ok r.
Proof.
  intros Ht Ho. unfold legacy_command.
  destruct (has_object "UpsertModelConfig" wire Ht Ho) as [b1 ->].
  destruct (has_object "LoadModel" wire Ht Ho) as [b2 ->].
  destruct (has_object "UnloadModel" wire Ht Ho) as [b3 ->].
  rewrite !get_truthy by done. rsimpl.
  destruct (string_or_normalized_total (JS.prop wire "LoadModel")) as (m1 & -> & _).
  destruct (string_or_normalized_total (JS.prop wire "UnloadModel")) as (m2 & -> & _).
  rsimpl. destruct b1, b2, b3; eauto.
Qed.

Lemma normalizeProvisioningCommand_total (wire : jsval) :
  exists cmd, normalizeProvisioningCommand wire = Ok cmd.
Proof.
  unfold normalizeProvisioningCommand.
  destruct (JS.truthy wire) eqn:Ht; cbn; [|eauto].
  destruct (typeof_is wire "object") eqn:Ho; cbn; [|eauto].
  destruct (explicit_kind_command_total wire Ht Ho) as ([cmd|] & ->); rsimpl; [eauto|].
  by apply legacy_command_total.
Qed.

Lemma has_true_object (k : string) (wire : jsval) :
  JS.has k wire = Ok true -> JS.truthy wire = true /\ typeof_is wire "object" = true.
Proof. by destruct wire. Qed.

Lemma explicit_kind_absent (wire : jsval) :
  JS.truthy wire = true -> typeof_is wire "object" = true ->
  ~ explicit_kind_shape wire -> explicit_kind_command wire = Ok None.
Proof.
  intros Ht Ho Hexp.
  assert (Hkind : forall k, k ∈ ["upsert_model_config"; "load_model"; "unload_model"] ->
                            JS.is_string (JS.prop wire "kind") k = false).
  { intros k Hk. apply is_string_false. intros E. apply Hexp. by exists k. }
  unfold explicit_kind_command. destruct (has_object "kind" wire Ht Ho) as [b ->]. rsimpl.
  destruct b; [|done]. rewrite !get_truthy by done. rsimpl.
  rewrite !Hkind; [done|set_solver..].
Qed.

Lemma string_or_normalized_eq (mid : jsval) : string_or_normalized mid = normalizeModelId mid.
Proof.
  unfold string_or_normalized, normalizeModelId. by destruct (typeof_is mid "string").
Qed.

(** A payload without a recognized [kind]: the legacy keys are tried in
    the order [UpsertModelConfig], [LoadModel], [UnloadModel]. *)
Lemma legacy_keys_in_order (wire : jsval) :
  JS.truthy wire = true -> typeof_is wire "object" = true ->
  ~ explicit_kind_shape wire ->
  normalizeProvisioningCommand wire = legacy_command wire.
Proof.
  intros Ht Ho Hexp. unfold normalizeProvisioningCommand. rewrite Ht, Ho. cbn [negb orb].
  by rewrite explicit_kind_absent.
Qed.

Lemma unmatched_is_upsert (wire : jsval) :
  ~ explicit_kind_shape wire -> ~ holds_legacy_key wire -> preserved_raw wire.
Proof.
  intros Hexp Hleg. unfold preserved_raw.
  destruct (JS.truthy wire) eqn:Ht; [|unfold normalizeProvisioningCommand; by rewrite Ht].
  destruct (typeof_is wire "object") eqn:Ho;
    [|unfold normalizeProvisioningCommand; by rewrite Ht, Ho].
  rewrite legacy_keys_in_order by done.
  assert (Hkey : forall k b, k ∈ ["UpsertModelConfig"; "LoadModel"; "UnloadModel"] ->
                             JS.has k wire = Ok b -> b = false).
  { intros k [] Hk E; [|done]. exfalso. apply Hleg. by exists k. }
  assert (Hhas : forall k, exists b, JS.has k wire = Ok b) by (intros; by apply has_object).
  unfold legacy_command.
  destruct (Hhas "UpsertModelConfig") as [b1 E1]. rewrite E1.
  rewrite (Hkey "UpsertModelConfig" b1) by (done || set_solver). rsimpl.
  destruct (Hhas "LoadModel") as [b2 E2]. rewrite E2.
  rewrite (Hkey "LoadModel" b2) by (done || set_solver). rsimpl.
  destruct (Hhas "UnloadModel") as [b3 E3]. rewrite E3.
  rewrite (Hkey "UnloadModel" b3) by (done || set_solver). done.
Qed.

(** The payload [{"LoadModel":"gpt-small","priority":9}] has neither a
    [kind] nor a sole key, so it is unrecognized in the design's terms;
    the code reads it as a [LoadModel] command and drops [priority]. *)
Lemma annotated_load_not_preserved :
  unrecognized_shape annotated_load /\
  normalizeProvisioningCommand annotated_load
  = Ok (model_command (JString "load_model") (JString "gpt-small")) /\
  ~ preserved_raw annotated_load.
Proof.
  split; [|split; [reflexivity|discriminate]].
  split.
  - intros (k & Hk & _). discriminate Hk.
  - intros (k & v & _ & Heq). discriminate Heq.
Qed.

(** C8, amended. [normalizeProvisioningCommand] maps the legacy
    single-key shapes to the explicit-kind shape, so that
    [{"LoadModel":"gpt-small"}] becomes
    [{kind:"load_model", model_id:"gpt-small"}], and no input makes it
    throw.  A payload without a recognized [kind] is preserved whole, as
    the config of an [upsert_model_config], when it holds none of the
    keys [UpsertModelConfig], [LoadModel], [UnloadModel]; when it holds
    one of them, alone or among other members, it is normalized by the
    first of them in that order and its other members are dropped. *)
Theorem normalizeProvisioningCommand_spec :
  normalizeProvisioningCommand (JObject [("LoadModel", JString "gpt-small")])
  = Ok (JObject [("kind", JString "load_model"); ("model_id", JString "gpt-small")])
  /\ (forall wire, legacy_shape wire ->
        exists cmd, normalizeProvisioningCommand wire = Ok cmd /\ explicit_kind_shape cmd)
  /\ (forall config,
        normalizeProvisioningCommand (JObject [("UpsertModelConfig", config)])
        = Ok (JObject [("kind", JString "upsert_model_config"); ("config", config)]))
  /\ (forall verb kind id,
        (verb, kind) ∈ [("LoadModel", "load_model"); ("UnloadModel", "unload_model")] ->
        exists model_id,
          normalizeModelId id = Ok model_id /\
          normalizeProvisioningCommand (JObject [(verb, id)])
          = Ok (JObject [("kind", JString kind); ("model_id", model_id)]))
  /\ (forall wire,
        ~ explicit_kind_shape wire -> ~ holds_legacy_key wire ->
        normalizeProvisioningCommand wire
        = Ok (JObject [("kind", JString "upsert_model_config"); ("config", wire)]))
  /\ (forall wire,
        ~ explicit_kind_shape wire ->
        (JS.has "UpsertModelConfig" wire = Ok true ->
         normalizeProvisioningCommand wire
         = Ok (upsert_model_config (JS.prop wire "UpsertModelConfig"))) /\
        (JS.has "UpsertModelConfig" wire = Ok false ->
         JS.has "LoadModel" wire = Ok true ->
         exists model_id,
           normalizeModelId (JS.prop wire "LoadModel") = Ok model_id /\
           normalizeProvisioningCommand wire
           = Ok (model_command (JString "load_model") model_id)) /\
        (JS.has "UpsertModelConfig" wire = Ok false ->
         JS.has "LoadModel" wire = Ok false ->
         JS.has "UnloadModel" wire = Ok true ->
         exists model_id,
           normalizeModelId (JS.prop wire "UnloadModel") = Ok model_id /\
           normalizeProvisioningCommand wire
           = Ok (model_command (JString "unload_model") model_id)))
  /\ (forall wire, exists cmd, normalizeProvisioningCommand wire = Ok cmd).
Proof.
  assert (Hverbs : forall verb kind id,
            (verb, kind) ∈ [("LoadModel", "load_model"); ("UnloadModel", "unload_model")] ->
            exists model_id,
              normalizeModelId id = Ok model_id /\
              normalizeProvisioningCommand (JObject [(verb, id)])
              = Ok (JObject [("kind", JString kind); ("model_id", model_id)])).
  { intros verb kind id Hin.
    destruct (normalizeModelId_total id) as (m & Hm & _). exists m. split; [done|].
    assert (Hs : string_or_normalized id = Ok m) by (by rewrite string_or_normalized_eq).
    apply elem_of_cons in Hin as [[= -> ->]|Hin];
      [|apply elem_of_cons in Hin as [[= -> ->]|Hin]; [|by apply elem_of_nil in Hin]].
    - unfold normalizeProvisioningCommand, explicit_kind_command, legacy_command.
      cbn. rewrite Hs. done.
    - unfold normalizeProvisioningCommand, explicit_kind_command, legacy_command.
      cbn. rewrite Hs. done. }
  split; [reflexivity|]. split; [|split; [reflexivity|split; [exact Hverbs|]]].
  { intros wire (k & v & Hk & ->).
    apply elem_of_cons in Hk as [->|Hk];
      [|apply elem_of_cons in Hk as [->|Hk];
        [|apply elem_of_cons in Hk as [->|Hk]; [|by apply elem_of_nil in Hk]]].
    - eexists. split; [reflexivity|]. exists "upsert_model_config". split; [done|set_solver].
    - destruct (Hverbs "LoadModel" "load_model" v) as (m & _ & ->); [set_solver|].
      eexists. split; [reflexivity|]. exists "load_model". split; [done|set_solver].
    - destruct (Hverbs "UnloadModel" "unload_model" v) as (m & _ & ->); [set_solver|].
      eexists. split; [reflexivity|]. exists "unload_model". split; [done|set_solver]. }
  split; [apply unmatched_is_upsert|]. split; [|apply normalizeProvisioningCommand_total].
  intros wire Hexp. repeat split.
  - intros H1. destruct (has_true_object _ _ H1) as [Ht Ho].
    rewrite legacy_keys_in_order by done. unfold legacy_command. rewrite H1. rsimpl.
    by rewrite get_truthy.
  - intros H1 H2. destruct (has_true_object _ _ H2) as [Ht Ho].
    destruct (normalizeModelId_total (JS.prop wire "LoadModel")) as (m & Hm & _).
    exists m. split; [done|].
    rewrite legacy_keys_in_order by done. unfold legacy_command. rewrite H1. rsimpl.
    rewrite H2. rsimpl. rewrite get_truthy by done. rsimpl.
    rewrite string_or_normalized_eq, Hm. by rsimpl.
  - intros H1 H2 H3. destruct (has_true_object _ _ H3) as [Ht Ho].
    destruct (normalizeModelId_total (JS.prop wire "UnloadModel")) as (m & Hm & _).
    exists m. split; [done|].
    rewrite legacy_keys_in_order by done. unfold legacy_command. rewrite H1. rsimpl.
    rewrite H2. rsimpl. rewrite H3. rsimpl. rewrite get_truthy by done. rsimpl.
    rewrite string_or_normalized_eq, Hm. by rsimpl.
Qed.

Lemma normalizeProvisioningCommand_spec_witness :
  (forall wire, legacy_shape wire ->
     exists cmd, normalizeProvisioningCommand wire = Ok cmd /\ explicit_kind_shape cmd) /\
  normalizeProvisioningCommand (JObject [("Restart", JBool true)])
  = Ok (JObject [("kind", JString "upsert_model_config");
                 ("config", JObject [("Restart", JBool true)])]) /\
  (exists model_id,
     normalizeModelId (JS.prop annotated_load "LoadModel") = Ok model_id /\
     normalizeProvisioningCommand annotated_load
     = Ok (model_command (JString "load_model") model_id)).
Proof.
  destruct normalizeProvisioningCommand_spec as (_ & Hlegacy & _ & _ & Hraw & Hkeys & _).
  split; [exact Hlegacy|]. split.
  - apply Hraw.
    + intros (k & Hk & _). discriminate Hk.
    + intros (k & Hin & Hk).
      repeat (apply elem_of_cons in Hin as [->|Hin]; [discriminate Hk|]).
      by apply elem_of_nil in Hin.
  - assert (Hexp : ~ explicit_kind_shape annotated_load)
      by (intros (k & Hk & _); discriminate Hk).
    destruct (Hkeys annotated_load Hexp) as (_ & Hload & _). by apply Hload.
Defined.

(** ** What the timer helpers and the re-render leave alone *)

Lemma clearPollingTimer_view (st : State) :
  connectionStatus (clearPollingTimer st) = connectionStatus st /\
  lastError (clearPollingTimer st) = lastError st /\
  snapshot (clearPollingTimer st) = snapshot st /\
  events (clearPollingTimer st) = events st /\
  shutdownState (clearPollingTimer st) = shutdownState st /\
  wsRef (clearPollingTimer st) = wsRef st /\
  nextEventIdRef (clearPollingTimer st) = nextEventIdRef st /\
  renderError (clearPollingTimer st) = renderError st /\
  constructorCalls (clearPollingTimer st) = constructorCalls st /\
  pollingTimerRef (clearPollingTimer st) = None.
Proof. unfold clearPollingTimer. destruct (pollingTimerRef st) eqn:E; cbn; by rewrite ?E. Qed.

Lemma scheduleReconnectPoll_view (st : State) :
  connectionStatus (scheduleReconnectPoll st) = StatusPolling /\
  lastError (scheduleReconnectPoll st) = lastError st /\
  snapshot (scheduleReconnectPoll st) = snapshot st /\
  events (scheduleReconnectPoll st) = events st /\
  shutdownState (scheduleReconnectPoll st) = shutdownState st /\
  wsRef (scheduleReconnectPoll st) = wsRef st /\
  nextEventIdRef (scheduleReconnectPoll st) = nextEventIdRef st /\
  renderError (scheduleReconnectPoll st) = renderError st /\
  constructorCalls (scheduleReconnectPoll st) = constructorCalls st.
Proof.
  unfold scheduleReconnectPoll, setTimeout. cbn.
  destruct (clearPollingTimer_view st) as (?&?&?&?&?&?&?&?&?&?). by repeat split.
Qed.

Lemma effect_body_has_socket (st : State) (ws : nat) :
  wsRef st = Some ws -> effect_body st = st.
Proof. intros H. unfold effect_body. rewrite H. by destruct (connectionStatus st). Qed.

(** Once a socket is stored, a re-render can only cancel the reconnect
    timer. *)
Lemma rerender_has_socket (rendered : ConnectionStatus) (st : State) (ws : nat) :
  wsRef st = Some ws ->
  rerender rendered st = st \/ rerender rendered st = clearPollingTimer st.
Proof.
  intros H. unfold rerender. destruct (decide _); [by left|right].
  unfold run_effect, effect_cleanup.
  assert (Hws : wsRef (clearPollingTimer st) = Some ws).
  { destruct (clearPollingTimer_view st) as (?&?&?&?&?&->&?); done. }
  rewrite (effect_body_has_socket _ ws Hws). by rewrite decide_True.
Qed.

Lemma rerender_view (rendered : ConnectionStatus) (st : State) (ws : nat) :
  wsRef st = Some ws ->
  connectionStatus (rerender rendered st) = connectionStatus st /\
  lastError (rerender rendered st) = lastError st /\
  snapshot (rerender rendered st) = snapshot st /\
  events (rerender rendered st) = events st /\
  shutdownState (rerender rendered st) = shutdownState st /\
  wsRef (rerender rendered st) = wsRef st /\
  nextEventIdRef (rerender rendered st) = nextEventIdRef st /\
  renderError (rerender rendered st) = renderError st /\
  constructorCalls (rerender rendered st) = constructorCalls st.
Proof.
  intros H. destruct (rerender_has_socket rendered st ws H) as [-> | ->]; [done|].
  destruct (clearPollingTimer_view st) as (?&?&?&?&?&?&?&?&?&?). by repeat split.
Qed.

(** ** Stale sockets *)

(** C4. A lifecycle callback whose captured socket is not the one stored
    in [wsRef] changes nothing: the whole state, with connection status,
    neuron table, event log, last error, shutdown state and timers, is the
    one it started from, and no re-render follows. *)
Theorem stale_callback_is_noop (ws : nat) (st : State) :
  wsRef st <> Some ws ->
  onopen ws st = st /\
  (forall frame clock, onmessage ws frame clock st = st) /\
  onerror ws st = st /\
  onclose ws st = st /\
  (forall frame clock,
      step (WsOpen ws) st = st /\ step (WsMessage ws frame clock) st = st /\
      step (WsError ws) st = st).
Proof.
  intros Hstale.
  assert (Hcur : is_current ws st = false) by (unfold is_current; by rewrite bool_decide_eq_false).
  assert (Hre : rerender (connectionStatus st) st = st)
    by (unfold rerender; by rewrite decide_True).
  unfold step, handler, onopen, onmessage, onerror, onclose. rewrite !Hcur. cbn.
  by rewrite Hre.
Qed.

Lemma stale_callback_is_noop_witness :
  wsRef stale_example <> Some 0 /\ onclose 0 stale_example = stale_example.
Proof.
  assert (H : wsRef stale_example <> Some 0) by (vm_compute; discriminate).
  split; [exact H|].
  exact (proj1 (proj2 (proj2 (proj2 (stale_callback_is_noop 0 stale_example H))))).
Defined.

(** ** Processing one frame on the current socket *)

Lemma is_current_true (ws : nat) (st : State) : wsRef st = Some ws -> is_current ws st = true.
Proof. intros H. unfold is_current. by rewrite bool_decide_eq_true. Qed.

Lemma onmessage_processed ws wire clock st data item :
  wsRef st = Some ws ->
  normalizeMessage wire = Ok data ->
  log_item (nextEventIdRef st) clock data = Ok item ->
  onmessage ws (Decoded wire) clock st
  = match apply_message data clock (logged item st) with
    | Ok st' => st'
    | Throw m => set_lastError (Some ("Failed to parse message: " ++ m)) (logged item st)
    end.
Proof.
  intros Hws Hdata Hitem. unfold onmessage, try_message.
  rewrite (is_current_true _ _ Hws). cbn [negb JSON_parse]. rsimpl.
  rewrite Hdata, Hitem. unfold logged.
  by destruct (apply_message _ _ _).
Qed.

Lemma onmessage_rejected ws frame clock st m :
  wsRef st = Some ws ->
  (wire ← JSON_parse frame; normalizeMessage wire) = Throw m ->
  onmessage ws frame clock st = set_lastError (Some ("Failed to parse message: " ++ m)) st.
Proof.
  intros Hws Hthrow. unfold onmessage, try_message.
  rewrite (is_current_true _ _ Hws). cbn [negb]. by rewrite Hthrow.
Qed.

Lemma onmessage_unloggable ws frame clock st data m :
  wsRef st = Some ws ->
  (wire ← JSON_parse frame; normalizeMessage wire) = Ok data ->
  log_item (nextEventIdRef st) clock data = Throw m ->
  onmessage ws frame clock st
  = set_lastError (Some ("Failed to parse message: " ++ m))
      (set_nextEventIdRef (nextEventIdRef st + 1) st).
Proof.
  intros Hws Hdata Hitem. unfold onmessage, try_message.
  rewrite (is_current_true _ _ Hws). cbn [negb]. by rewrite Hdata, Hitem.
Qed.

(** What handling the normalized message leaves alone: the stored
    socket, the log, the id counter and the count of constructor calls. *)
Lemma apply_message_view data clock st st' :
  apply_message data clock st = Ok st' ->
  wsRef st' = wsRef st /\
  events st' = events st /\
  nextEventIdRef st' = nextEventIdRef st /\
  constructorCalls st' = constructorCalls st.
Proof.
  unfold apply_message. intros H.
  destruct (JS.get data "kind") as [k|]; [|done]. rsimpl in H.
  destruct (JS.is_string k "snapshot").
  - destruct (JS.get data "snapshot"); [|done]. by inversion H.
  - destruct (JS.get data "event") as [e|]; [|done]. rsimpl in H.
    destruct (JS.get e "type") as [t|]; [|done]. rsimpl in H.
    destruct (JS.is_string t "neuron_heartbeat").
    + destruct (JS.get e "neuron_id") as [nid|]; [|done]. inversion H.
      unfold bump_pulse, update_snapshot.
      by destruct (JS.toString nid), (heartbeat_snapshot _ _ _).
    + destruct (JS.is_string t "cortex_shutdown_notice"); [|by inversion H].
      destruct (JS.get e "reason") as [reason|]; [|done]. inversion H.
      by destruct (scheduleReconnectPoll_view
                     (set_shutdownState
                        {| seenShutdownNotice := true; lastReason := JS.coalesce reason JNull;
                           lastSeenAt := Some (nowIso clock) |} st))
        as (_&_&_&->&_&->&->&_&->).
Qed.

Lemma onmessage_wsRef ws frame clock st :
  wsRef (onmessage ws frame clock st) = wsRef st.
Proof.
  unfold onmessage. destruct (negb _); [done|]. unfold try_message.
  destruct (_ ≫= _) as [data|]; [|done].
  destruct (log_item _ _ _) as [item|]; [|done].
  destruct (apply_message _ _ _) as [st'|] eqn:E; [|done].
  by apply apply_message_view in E as (-> & _).
Qed.

Lemma onmessage_constructorCalls ws frame clock st :
  constructorCalls (onmessage ws frame clock st) = constructorCalls st.
Proof.
  unfold onmessage. destruct (negb _); [done|]. unfold try_message.
  destruct (_ ≫= _) as [data|]; [|done].
  destruct (log_item _ _ _) as [item|]; [|done].
  destruct (apply_message _ _ _) as [st'|] eqn:E; [|done].
  by apply apply_message_view in E as (_ & _ & _ & ->).
Qed.

(** ** Snapshots *)

(** A frame that normalizes to a snapshot is logged and replaces the
    table. *)
Lemma step_snapshot ws wire clock st table :
  wsRef st = Some ws ->
  normalizeMessage wire = Ok (snapshot_message table) ->
  let st' := step (WsMessage ws (Decoded wire) clock) st in
  snapshot st' = table /\
  events st' = slice_last 300 (events st ++ [snapshot_item (nextEventIdRef st) clock table]) /\
  lastError st' = lastError st /\
  renderError st' = renderError st /\
  connectionStatus st' = connectionStatus st.
Proof.
  intros Hws Hdata. cbn zeta. unfold step, handler.
  rewrite (onmessage_processed ws wire clock st _
             (snapshot_item (nextEventIdRef st) clock table) Hws Hdata) by reflexivity.
  cbn -[slice_last].
  match goal with
  | |- context [rerender ?r ?s] =>
      destruct (rerender_view r s ws Hws) as (-> & -> & -> & -> & _ & _ & _ & -> & _)
  end.
  done.
Qed.

(** The legacy flat descriptor [{node_id: "n1", label: null, metadata: {}}]
    is promoted to a full neuron labelled [n1]. *)
Example legacy_descriptor_promoted :
  normalizeSnapshot
    (JObject [("neurons", JArray [JObject [("node_id", JString "n1"); ("label", JNull);
                                           ("metadata", JObject [])]])])
  = Ok (table_of [legacy_neuron "n1"]).
Proof. reflexivity. Qed.

(** C10. A frame of kind [snapshot] whose [neurons] field is not an array
    normalizes to an empty neuron list, and applying it replaces the
    neuron table with an empty one: no failure is signalled, and nothing
    of the table held before is kept. *)
Theorem non_array_neurons_empty_table ws st wire payload neurons clock :
  wsRef st = Some ws ->
  JS.get wire "kind" = Ok (JString "snapshot") ->
  JS.get wire "snapshot" = Ok payload ->
  JS.get payload "neurons" = Ok neurons ->
  JS.isArray neurons = false ->
  normalizeSnapshot payload = Ok (JObject [("neurons", JArray [])]) /\
  let st' := step (WsMessage ws (Decoded wire) clock) st in
  snapshot st' = JObject [("neurons", JArray [])] /\
  lastError st' = lastError st /\
  renderError st' = renderError st.
Proof.
  intros Hws Hkind Hsnap Hneurons Harr.
  assert (Hnorm : normalizeSnapshot payload = Ok (JObject [("neurons", JArray [])])).
  { unfold normalizeSnapshot. rewrite Hneurons. rsimpl. by destruct neurons. }
  split; [exact Hnorm|].
  assert (Hdata : normalizeMessage wire = Ok (snapshot_message (JObject [("neurons", JArray [])]))).
  { unfold normalizeMessage. rewrite Hkind. rsimpl. cbn [JS.is_string String.eqb Ascii.eqb Bool.eqb].
    rewrite Hsnap. rsimpl. by rewrite Hnorm. }
  destruct (step_snapshot ws wire clock st _ Hws Hdata) as (H1 & _ & H3 & H4 & _).
  done.
Qed.

Lemma non_array_neurons_empty_table_witness :
  snapshot (step (WsMessage 0 (Decoded neurons_not_a_list) noon) one_neuron_state)
  = JObject [("neurons", JArray [])].
Proof.
  refine (proj1 (proj2 (non_array_neurons_empty_table 0 one_neuron_state neurons_not_a_list
                          (JObject [("neurons", JString "none")]) (JString "none") noon
                          _ _ _ _ _))); reflexivity.
Defined.

(** ** Events and the neuron table *)

(** An event that is neither a heartbeat nor a shutdown notice is logged
    and changes nothing else the consumer sees. *)
Lemma step_other_event ws wire clock st event :
  wsRef st = Some ws ->
  normalizeMessage wire = Ok (event_message event) ->
  JS.prop (JObject event) "type" <> JString "neuron_heartbeat" ->
  JS.prop (JObject event) "type" <> JString "cortex_shutdown_notice" ->
  let st' := step (WsMessage ws (Decoded wire) clock) st in
  snapshot st' = snapshot st /\
  events st' = slice_last 300 (events st ++ [event_item (nextEventIdRef st) clock event]) /\
  connectionStatus st' = connectionStatus st /\
  lastError st' = lastError st /\
  shutdownState st' = shutdownState st.
Proof.
  intros Hws Hdata Hhb Hsd. cbn zeta. unfold step, handler.
  rewrite (onmessage_processed ws wire clock st _
             (event_item (nextEventIdRef st) clock event) Hws Hdata) by reflexivity.
  assert (apply_message (event_message event) clock
            (logged (event_item (nextEventIdRef st) clock event) st)
          = Ok (logged (event_item (nextEventIdRef st) clock event) st)) as ->.
  { unfold apply_message, event_message.
    rewrite !get_defined by done. rsimpl.
    change (JS.prop (JObject [("kind", JString "event"); ("event", JObject event)]) "kind")
      with (JString "event").
    change (JS.prop (JObject [("kind", JString "event"); ("event", JObject event)]) "event")
      with (JObject event).
    cbn [JS.is_string String.eqb Ascii.eqb Bool.eqb].
    rewrite !get_defined by done. rsimpl.
    by rewrite !is_string_false. }
  match goal with
  | |- context [rerender ?r ?s] =>
      destruct (rerender_view r s ws Hws) as (-> & -> & -> & -> & -> & _)
  end.
  done.
Qed.

Lemma model_state_frame_normalized :
  normalizeMessage model_state_frame
  = Ok (event_message (model_state_changed "n1" (JArray [gpt_small_loaded]))).
Proof. reflexivity. Qed.

(** The table keeps the empty model list of [n1] although the event
    carries one model for it. *)
Lemma model_state_changed_leaves_table :
  ~ replaces_model_list one_neuron_state 0 model_state_frame noon.
Proof.
  intros Hclaim.
  destruct (Hclaim "n1" (JArray [gpt_small_loaded]) [legacy_neuron "n1"]
              model_state_frame_normalized eq_refl) as (neurons' & Htable & Hentry).
  destruct (step_other_event 0 model_state_frame noon one_neuron_state _
              eq_refl model_state_frame_normalized) as (Hsame & _); [discriminate..|].
  rewrite Hsame in Htable. injection Htable as <-.
  destruct (Hentry 0 (legacy_neuron "n1") eq_refl) as (n' & Hn' & Hmodels).
  { by left. }
  injection Hn' as <-. discriminate Hmodels.
Qed.

(** C1, amended. A [model_state_changed] event processed on the current
    socket leaves the neuron table as it was, the neuron it names
    included; the event, with its normalized model list, is appended to
    the event log and nothing else changes. *)
Theorem model_state_changed_only_logged ws st wire clock neuron_id models :
  wsRef st = Some ws ->
  normalizeMessage wire = Ok (event_message (model_state_changed neuron_id models)) ->
  let st' := step (WsMessage ws (Decoded wire) clock) st in
  snapshot st' = snapshot st /\
  events st'
  = slice_last 300
      (events st ++ [event_item (nextEventIdRef st) clock
                       (model_state_changed neuron_id models)]).
Proof.
  intros Hws Hdata.
  destruct (step_other_event ws wire clock st _ Hws Hdata) as (H1 & H2 & _);
    [discriminate..|done].
Qed.

Lemma model_state_changed_only_logged_witness :
  snapshot (step (WsMessage 0 (Decoded model_state_frame) noon) one_neuron_state)
  = table_of [legacy_neuron "n1"].
Proof.
  exact (proj1 (model_state_changed_only_logged 0 one_neuron_state model_state_frame noon
                  "n1" (JArray [gpt_small_loaded]) eq_refl model_state_frame_normalized)).
Defined.

(** *** Heartbeats *)

Lemma lookup_set_prop_eq k v props : JS.lookup_prop k (JS.set_prop k v props) = Some v.
Proof.
  induction props as [|[k' v'] props IH]; cbn.
  - by rewrite String.eqb_refl.
  - destruct (String.eqb k k') eqn:E; cbn; by rewrite ?String.eqb_refl, ?E.
Qed.

Lemma lookup_set_prop_ne k k' v props :
  k' <> k -> JS.lookup_prop k' (JS.set_prop k v props) = JS.lookup_prop k' props.
Proof.
  intros Hne. apply String.eqb_neq in Hne.
  induction props as [|[k0 v0] props IH]; cbn.
  - by rewrite Hne.
  - destruct (String.eqb k k0) eqn:E; cbn.
    + apply String.eqb_eq in E as <-. by rewrite Hne.
    + by rewrite IH.
Qed.

Lemma strict_eq_string (v : jsval) (s : string) : strict_eq v (JString s) = true <-> v = JString s.
Proof.
  destruct v; cbn; try (split; [discriminate|by inversion 1]).
  rewrite String.eqb_eq. split; [by intros ->|by inversion 1].
Qed.

Lemma names_neuron_b_spec neuron_id n :
  names_neuron_b neuron_id n = true <-> names_neuron neuron_id n.
Proof.
  unfold names_neuron_b, names_neuron. cbn zeta.
  rewrite andb_true_iff, orb_true_iff, !strict_eq_string. split; [tauto|].
  intros H. split; [|done].
  destruct (JS.prop n "descriptor") as [| |b|r|s|items|props]; try done;
    destruct H; discriminate.
Qed.

Lemma heartbeat_neuron_spec neuron_id now n :
  JS.nullish n = false ->
  heartbeat_neuron (JString neuron_id) now n
  = Ok (if names_neuron_b neuron_id n
        then spread_set n "last_heartbeat_at" (JString now) else n).
Proof.
  intros Hn. unfold heartbeat_neuron, names_neuron_b. cbn zeta.
  rewrite (get_defined _ _ Hn). rsimpl.
  destruct (JS.truthy (JS.prop n "descriptor")) eqn:Ht; cbn [andb]; [|done].
  rewrite !get_truthy by done. rsimpl.
  destruct (strict_eq (JS.prop _ "node_id") _); cbn [orb]; [done|]. rsimpl.
  by destruct (strict_eq (JS.prop _ "label") _).
Qed.

Lemma heartbeat_neurons_spec neuron_id now neurons :
  Forall is_object neurons ->
  mapM_result (heartbeat_neuron (JString neuron_id) now) neurons
  = Ok (map (fun n => if names_neuron_b neuron_id n
                      then spread_set n "last_heartbeat_at" (JString now) else n) neurons).
Proof.
  induction 1 as [|n neurons [props ->] _ IH]; [done|].
  cbn [mapM_result map]. rewrite heartbeat_neuron_spec by done. rsimpl.
  by rewrite IH.
Qed.

(** C5. A [neuron_heartbeat] event processed while a neuron table is
    present sets [last_heartbeat_at] to the current time on every neuron
    whose descriptor [node_id] or [label] equals the event's [neuron_id],
    so a match on the label alone is enough; every other neuron, and every
    other field of a matched one, stays as it was; whether none, one or
    several neurons match, no error is raised. *)
Theorem heartbeat_updates_named_neurons ws st wire clock neuron_id metrics neurons :
  wsRef st = Some ws ->
  normalizeMessage wire = Ok (event_message (neuron_heartbeat neuron_id metrics)) ->
  snapshot st = table_of neurons ->
  Forall is_object neurons ->
  let st' := step (WsMessage ws (Decoded wire) clock) st in
  exists neurons',
    snapshot st' = table_of neurons' /\
    length neurons' = length neurons /\
    (forall i n, neurons !! i = Some n ->
       exists n', neurons' !! i = Some n' /\
         (names_neuron neuron_id n ->
            JS.prop n' "last_heartbeat_at" = JString (nowIso clock) /\
            forall k, k <> "last_heartbeat_at" -> JS.prop n' k = JS.prop n k) /\
         (~ names_neuron neuron_id n -> n' = n)) /\
    lastError st' = lastError st /\
    renderError st' = renderError st.
Proof.
  intros Hws Hdata Htable Hobjects. cbn zeta.
  set (touch := fun n => if names_neuron_b neuron_id n
                         then spread_set n "last_heartbeat_at" (JString (nowIso clock))
                         else n).
  exists (map touch neurons).
  unfold step, handler.
  rewrite (onmessage_processed ws wire clock st _
             (event_item (nextEventIdRef st) clock (neuron_heartbeat neuron_id metrics))
             Hws Hdata) by reflexivity.
  change (apply_message _ clock ?s)
    with (Ok (bump_pulse (JString neuron_id)
                (update_snapshot (heartbeat_snapshot (JString neuron_id) (nowIso clock)) s))).
  cbv beta iota.
  assert (Hupd : forall s, snapshot s = table_of neurons ->
                           update_snapshot (heartbeat_snapshot (JString neuron_id) (nowIso clock)) s
                           = set_snapshot (table_of (map touch neurons)) s).
  { intros s Hs. unfold update_snapshot, heartbeat_snapshot. rewrite Hs.
    cbn [JS.truthy negb table_of]. rewrite get_defined by done. rsimpl.
    change (JS.prop (table_of neurons) "neurons") with (JArray neurons).
    cbv iota. by rewrite heartbeat_neurons_spec. }
  rewrite Hupd by exact Htable.
  match goal with
  | |- context [rerender ?r ?s] =>
      destruct (rerender_view r s ws Hws) as (_ & -> & -> & _ & _ & _ & _ & -> & _)
  end.
  split; [done|]. split; [by rewrite length_map|]. split; [|done].
  intros i n Hi. exists (touch n). split; [by rewrite list_lookup_fmap, Hi|].
  unfold touch. split.
  - intros Hnamed. apply names_neuron_b_spec in Hnamed as ->.
    apply (proj1 (Forall_lookup _ _) Hobjects) in Hi as [props ->].
    cbn [spread_set JS.prop]. split; [by rewrite lookup_set_prop_eq|].
    intros k Hk. by rewrite lookup_set_prop_ne.
  - intros Hnot. destruct (names_neuron_b neuron_id n) eqn:E; [|done].
    by apply names_neuron_b_spec in E.
Qed.

Lemma heartbeat_updates_named_neurons_witness :
  exists neurons',
    snapshot (step (WsMessage 0 (Decoded heartbeat_by_label) noon) two_neuron_state)
    = table_of neurons' /\ length neurons' = 2.
Proof.
  destruct (heartbeat_updates_named_neurons 0 two_neuron_state heartbeat_by_label noon
              "alpha" (JObject []) [labelled_neuron; legacy_neuron "n2"])
    as (neurons' & Htable & Hlen & _);
    [reflexivity | reflexivity | reflexivity
     | repeat constructor; eexists; reflexivity |].
  exists neurons'. split; [exact Htable|exact Hlen].
Defined.

(** The same frame, evaluated: the neuron labelled [alpha] gets the
    timestamp although its [node_id] is [n1]; [n2] is untouched. *)
Example heartbeat_by_label_evaluated :
  snapshot (step (WsMessage 0 (Decoded heartbeat_by_label) noon) two_neuron_state)
  = table_of
      [JObject [("descriptor", JObject [("node_id", JString "n1"); ("label", JString "alpha");
                                        ("metadata", JObject [])]);
                ("last_heartbeat_at", JString "2025-06-01T12:00:00.000Z");
                ("health", JString "healthy"); ("offline", JBool false);
                ("models", JArray [])];
       legacy_neuron "n2"].
Proof. reflexivity. Qed.

(** ** Malformed frames *)

(** A frame of unknown [kind] that carries an [event] member is treated
    as that event: here the shutdown notice is logged and the connection
    goes to [polling], and no error is reported. *)
Lemma unframed_event_is_processed :
  malformed (Decoded unframed_notice) /\
  ~ only_reports_error one_neuron_state
      (step (WsMessage 0 (Decoded unframed_notice) noon) one_neuron_state).
Proof.
  split.
  - right. exists unframed_notice. split; [done|]. split; discriminate.
  - intros (_ & Hstatus & _). vm_compute in Hstatus. discriminate.
Qed.

(** *** The framing is not checked *)

Lemma set_events_self (st : State) : set_events (events st) st = st.
Proof. by destruct st. Qed.

(** Nothing the reconciler does reads the log. *)
Lemma apply_message_set_events data clock l st :
  apply_message data clock (set_events l st)
  = (st' ← apply_message data clock st; Ok (set_events l st')).
Proof.
  unfold apply_message.
  destruct (JS.get data "kind") as [k|]; [|done]. rsimpl.
  destruct (JS.is_string k "snapshot").
  { by destruct (JS.get data "snapshot"). }
  destruct (JS.get data "event") as [e|]; [|done]. rsimpl.
  destruct (JS.get e "type") as [t|]; [|done]. rsimpl.
  destruct (JS.is_string t "neuron_heartbeat").
  { destruct (JS.get e "neuron_id") as [nid|]; [|done]. rsimpl. f_equal.
    unfold bump_pulse, update_snapshot. cbn [snapshot set_events].
    by destruct (heartbeat_snapshot _ _ _), (JS.toString nid). }
  destruct (JS.is_string t "cortex_shutdown_notice"); [|done].
  destruct (JS.get e "reason") as [reason|]; [|done]. rsimpl. f_equal.
  unfold scheduleReconnectPoll, clearPollingTimer, setTimeout. cbn.
  by destruct (pollingTimerRef st).
Qed.

(** What the reconciler does with a message depends on its [event]
    member alone, once it is not a snapshot. *)
Lemma apply_message_same_event d1 d2 clock st :
  same_event d1 d2 -> apply_message d1 clock st = apply_message d2 clock st.
Proof.
  intros (H1 & H2 & Hk1 & Hk2 & He). unfold apply_message.
  rewrite !get_defined by done. rsimpl.
  by rewrite (is_string_false _ _ Hk1), (is_string_false _ _ Hk2), He.
Qed.

Lemma item_tags_same_event d1 d2 :
  same_event d1 d2 ->
  match item_tags d1, item_tags d2 with
  | Ok t1, Ok t2 => t1.2 = t2.2
  | Throw m1, Throw m2 => m1 = m2
  | _, _ => False
  end.
Proof.
  intros (H1 & H2 & Hk1 & Hk2 & He). unfold item_tags.
  rewrite !get_defined by done. rsimpl.
  rewrite (is_string_false _ _ Hk1), (is_string_false _ _ Hk2), He.
  destruct (JS.get (JS.prop d2 "event") "type"); by rsimpl.
Qed.

(** [normalizeMessage] looks at the [kind] only to tell a snapshot. *)
Lemma normalizeMessage_same_event w1 w2 :
  same_event w1 w2 ->
  match normalizeMessage w1, normalizeMessage w2 with
  | Ok d1, Ok d2 => same_event d1 d2
  | Throw m1, Throw m2 => m1 = m2
  | _, _ => False
  end.
Proof.
  intros Hsame. pose proof Hsame as (H1 & H2 & Hk1 & Hk2 & He). unfold normalizeMessage.
  rewrite !get_defined by done. rsimpl.
  rewrite (is_string_false _ _ Hk1), (is_string_false _ _ Hk2), He.
  set (e := JS.prop w2 "event").
  destruct (negb (JS.truthy e) || negb (typeof_is e "object")); [done|].
  destruct (JS.get e "type") as [t|]; [|done]. rsimpl.
  destruct t as [| | | |t| |]; try done.
  unfold normalizeEvent.
  repeat match goal with
         | |- context [if String.eqb t ?k then _ else _] => destruct (String.eqb t k)
         end;
    try done;
    repeat match goal with
           | |- context [?c ≫= _] =>
               lazymatch c with
               | Ok _ => fail
               | Throw _ => fail
               | _ => destruct c; rsimpl; [|done]
               end
           end;
    by repeat split.
Qed.

(** Two frames with the same [event] member leave [onmessage] in states
    that are the same but for the log. *)
Lemma onmessage_same_event ws w1 w2 clock st :
  wsRef st = Some ws ->
  same_event w1 w2 ->
  exists common l1 l2,
    onmessage ws (Decoded w1) clock st = set_events l1 common /\
    onmessage ws (Decoded w2) clock st = set_events l2 common /\
    Forall2 same_entry l1 l2.
Proof.
  intros Hws Hsame.
  assert (Hrefl : Forall2 same_entry (events st) (events st))
    by (apply Forall_Forall2_diag, Forall_forall; by intros).
  unfold onmessage, try_message. rewrite (is_current_true _ _ Hws).
  cbn [negb JSON_parse]. rsimpl.
  pose proof (normalizeMessage_same_event w1 w2 Hsame) as Hnorm.
  destruct (normalizeMessage w1) as [d1|m1], (normalizeMessage w2) as [d2|m2]; try done.
  - pose proof (item_tags_same_event d1 d2 Hnorm) as Htags. unfold log_item.
    destruct (item_tags d1) as [t1|m1], (item_tags d2) as [t2|m2]; try done; rsimpl.
    + unfold append_event. cbn [events set_nextEventIdRef].
      rewrite !apply_message_set_events.
      rewrite (apply_message_same_event d1 d2 clock _ Hnorm).
      destruct (apply_message d2 clock _) as [st'|m]; rsimpl.
      * eexists st', _, _. split; [reflexivity|]. split; [reflexivity|].
        unfold slice_last. rewrite !length_app. cbn [length].
        apply Forall2_drop, Forall2_app; [done|]. by repeat constructor.
      * exists (set_lastError (Some ("Failed to parse message: " ++ m))
                  (set_nextEventIdRef (nextEventIdRef st + 1) st)).
        eexists _, _. split; [reflexivity|]. split; [reflexivity|].
        unfold slice_last. rewrite !length_app. cbn [length].
        apply Forall2_drop, Forall2_app; [done|]. by repeat constructor.
    + subst m2.
      match goal with
      | |- exists common l1 l2, ?X = _ /\ _ => exists X, (events X), (events X)
      end.
      rewrite set_events_self. by repeat split.
  - subst m2.
    match goal with
    | |- exists common l1 l2, ?X = _ /\ _ => exists X, (events X), (events X)
    end.
    rewrite set_events_self. by repeat split.
Qed.

Lemma rerender_set_events rendered l st ws :
  wsRef st = Some ws ->
  rerender rendered (set_events l st) = set_events l (rerender rendered st).
Proof.
  intros Hws. unfold rerender. cbn [connectionStatus set_events].
  destruct (decide _); [done|].
  unfold run_effect, effect_cleanup.
  assert (Hclear : clearPollingTimer (set_events l st) = set_events l (clearPollingTimer st)).
  { unfold clearPollingTimer. cbn. by destruct (pollingTimerRef st). }
  assert (Hws' : wsRef (clearPollingTimer st) = Some ws).
  { destruct (clearPollingTimer_view st) as (?&?&?&?&?&->&?); done. }
  rewrite Hclear.
  rewrite (effect_body_has_socket (set_events l (clearPollingTimer st)) ws) by done.
  rewrite (effect_body_has_socket (clearPollingTimer st) ws) by done.
  by rewrite !decide_True.
Qed.

(** C7, amended. A frame that is not valid JSON, or that lacks both
    framings and has no [event] member, is only reported as a local error
    message: the connection state, the neuron table and the event log are
    left as they were.  The framing itself is not checked: a decoded
    frame that lacks both framings is handled by its [event] member
    alone, as the frame with the same [event] member under [kind: event]
    is; the two are rejected with the same error or logged alike, and
    they leave states that are equal in everything but the log, whose
    entries correspond one to one under the same id, time and event
    type (an entry can differ in the [kind] shown and the payload
    kept). *)
Theorem rejected_frame_only_reports_error ws st clock :
  wsRef st = Some ws ->
  (forall frame,
     rejected frame ->
     only_reports_error st (step (WsMessage ws frame clock) st)) /\
  (forall wire framed,
     lacks_framing wire ->
     JS.nullish wire = false ->
     JS.prop framed "kind" = JString "event" ->
     JS.prop framed "event" = JS.prop wire "event" ->
     same_but_log (step (WsMessage ws (Decoded wire) clock) st)
                  (step (WsMessage ws (Decoded framed) clock) st)).
Proof.
  intros Hws. split.
  - intros frame Hrej. unfold step, handler.
    assert (Hquiet : forall m st0,
              connectionStatus st0 = connectionStatus st -> wsRef st0 = Some ws ->
              snapshot st0 = snapshot st -> events st0 = events st ->
              only_reports_error st
                (rerender (connectionStatus st) (set_lastError (Some m) st0))).
    { intros m st0 Hc Hw Hs He.
      destruct (rerender_view (connectionStatus st) (set_lastError (Some m) st0) ws Hw)
        as (H1 & H2 & H3 & H4 & _).
      unfold only_reports_error. rewrite H1, H2, H3, H4. cbn. eauto. }
    destruct Hrej as [[m ->] | (wire & -> & [Hsnap Hev] & Hnone)].
    + rewrite (onmessage_rejected ws _ clock st m Hws) by reflexivity. by apply Hquiet.
    + destruct (JS.nullish wire) eqn:Hwire.
      * assert (exists m, JS.get wire "kind" = Throw m) as [m Hm]
          by (unfold JS.get; rewrite Hwire; eauto).
        rewrite (onmessage_rejected ws _ clock st m Hws); [by apply Hquiet|].
        cbn [JSON_parse]. rsimpl. unfold normalizeMessage. by rewrite Hm.
      * assert (Hdata : normalizeMessage wire = Ok wire).
        { unfold normalizeMessage. rewrite !get_defined by done. rsimpl.
          rewrite is_string_false by done.
          by destruct (JS.prop wire "event"). }
        assert (exists m, log_item (nextEventIdRef st) clock wire = Throw m) as [m Hm].
        { unfold log_item, item_tags. rewrite !get_defined by done. rsimpl.
          rewrite is_string_false by done. unfold JS.get. rewrite Hnone. rsimpl. eauto. }
        rewrite (onmessage_unloggable ws (Decoded wire) clock st wire m Hws Hdata Hm).
        by apply Hquiet.
  - intros wire framed [Hsnap _] Hwire Hkind Hevent.
    assert (Hsame : same_event wire framed).
    { repeat split; [done| |done| |done].
      - destruct framed; done.
      - rewrite Hkind. discriminate. }
    destruct (onmessage_same_event ws wire framed clock st Hws Hsame)
      as (common & l1 & l2 & H1 & H2 & Hlog).
    assert (Hcommon : wsRef common = Some ws).
    { change (wsRef common) with (wsRef (set_events l1 common)).
      by rewrite <- H1, onmessage_wsRef. }
    unfold step, handler. rewrite H1, H2.
    rewrite !(rerender_set_events _ _ _ ws Hcommon). by split.
Qed.

Lemma rejected_frame_only_reports_error_witness :
  only_reports_error one_neuron_state
    (step (WsMessage 0 kind_only_frame noon) one_neuron_state) /\
  same_but_log (step (WsMessage 0 (Decoded unframed_notice) noon) one_neuron_state)
               (step (WsMessage 0 (Decoded framed_notice) noon) one_neuron_state).
Proof.
  destruct (rejected_frame_only_reports_error 0 one_neuron_state noon eq_refl)
    as [Hrejected Hunchecked].
  split.
  - apply Hrejected. right. exists (JObject [("kind", JString "ping")]).
    split; [reflexivity|]. split; [split; discriminate|reflexivity].
  - apply Hunchecked; [split; discriminate|reflexivity..].
Defined.

(** ** The event log *)

Lemma slice_last_length {A} (n : nat) (l : list A) :
  length (slice_last n l) = length l `min` n.
Proof. unfold slice_last. rewrite length_drop. lia. Qed.

Lemma slice_last_app {A} (n : nat) (l k : list A) :
  slice_last n (slice_last n l ++ k) = slice_last n (l ++ k).
Proof.
  unfold slice_last. destruct (decide (length l <= n)) as [Hle|Hgt].
  - by replace (length l - n) with 0 by lia.
  - rewrite !length_app, length_drop.
    replace (length l - (length l - n) + length k - n) with (length k) by lia.
    replace (length l + length k - n) with (length l - n + length k) by lia.
    rewrite <- (drop_drop (l ++ k)), (drop_app_le l k) by lia. done.
Qed.

Lemma slice_last_covers {A} (n : nat) (l k : list A) :
  n <= length k -> slice_last n (l ++ k) = slice_last n k.
Proof.
  intros Hle. unfold slice_last. rewrite length_app.
  replace (length l + length k - n) with (length l + (length k - n)) by lia.
  by rewrite drop_app_add.
Qed.

Lemma log_item_fields n clock data item :
  log_item n clock data = Ok item -> id item = n /\ payload item = data.
Proof.
  unfold log_item. destruct (item_tags data); rsimpl; [|done]. by intros [= <-].
Qed.

Lemma log_item_processed n clock frame data :
  delivered frame = Ok data ->
  processed frame = (if log_item n clock data is Ok _ then Some data else None).
Proof.
  intros Hd. unfold processed, log_item. rewrite Hd. rsimpl.
  by destruct (item_tags data).
Qed.

Lemma apply_message_log data clock st st' :
  apply_message data clock st = Ok st' ->
  events st' = events st /\ nextEventIdRef st' = nextEventIdRef st.
Proof. intros H. by apply apply_message_view in H as (_ & -> & -> & _). Qed.

(** One message on the current socket: the log gains the frame's entry,
    if it has one, and is trimmed to its last 300. *)
Lemma step_message_log ws frame clock st rest :
  wsRef st = Some ws ->
  length (events st) <= 300 ->
  let st' := step (WsMessage ws frame clock) st in
  wsRef st' = Some ws /\
  length (events st') <= 300 /\
  slice_last 300 (events st' ++ audit_trail (nextEventIdRef st') rest)
  = slice_last 300 (events st ++ audit_trail (nextEventIdRef st) ((frame, clock) :: rest)).
Proof.
  intros Hws Hcap. cbn zeta. unfold step, handler.
  assert (Hws' : wsRef (onmessage ws frame clock st) = Some ws)
    by (by rewrite onmessage_wsRef).
  destruct (rerender_view (connectionStatus st) _ ws Hws')
    as (_ & _ & _ & -> & _ & -> & -> & _).
  split; [done|]. clear Hws'.
  unfold onmessage, try_message. rewrite (is_current_true _ _ Hws). cbn [negb audit_trail].
  fold (delivered frame). destruct (delivered frame) as [data|m]; [|done].
  destruct (log_item (nextEventIdRef st) clock data) as [item|m]; [|done].
  destruct (apply_message data clock _) as [st'|m] eqn:E.
  - apply apply_message_log in E as [-> ->]. cbn -[slice_last].
    rewrite slice_last_length, slice_last_app, <- app_assoc. split; [lia|done].
  - cbn -[slice_last].
    rewrite slice_last_length, slice_last_app, <- app_assoc. split; [lia|done].
Qed.

Lemma run_cons ev evs st : run (ev :: evs) st = run evs (step ev st).
Proof. reflexivity. Qed.

Lemma run_messages_log ws arrivals st :
  wsRef st = Some ws ->
  length (events st) <= 300 ->
  let st' := run (messages ws arrivals) st in
  events st' = slice_last 300 (events st ++ audit_trail (nextEventIdRef st) arrivals) /\
  length (events st') <= 300.
Proof.
  revert st. induction arrivals as [|[frame clock] rest IH]; intros st Hws Hcap; cbn zeta.
  - cbn [messages map run foldl audit_trail]. rewrite app_nil_r. split; [|done].
    unfold slice_last. by replace (length (events st) - 300) with 0 by lia.
  - change (messages ws ((frame, clock) :: rest))
      with (WsMessage ws frame clock :: messages ws rest).
    rewrite run_cons.
    destruct (step_message_log ws frame clock st rest Hws Hcap) as (Hws1 & Hcap1 & Heq).
    destruct (IH _ Hws1 Hcap1) as [Hlog Hlen]. split; [by rewrite Hlog, Heq|exact Hlen].
Qed.

Lemma audit_trail_ids next arrivals :
  StronglySorted lt (map id (audit_trail next arrivals)) /\
  Forall (le next) (map id (audit_trail next arrivals)).
Proof.
  revert next. induction arrivals as [|[frame clock] rest IH]; intros next; cbn.
  - split; constructor.
  - destruct (delivered frame) as [data|m]; [|apply IH].
    destruct (IH (next + 1)) as [Hsorted Hfloor].
    destruct (log_item next clock data) as [item|m] eqn:E.
    + apply log_item_fields in E as [E _]. cbn. rewrite E. split.
      * constructor; [done|]. eapply Forall_impl; [exact Hfloor|]. cbn. lia.
      * constructor; [done|]. eapply Forall_impl; [exact Hfloor|]. cbn. lia.
    + split; [done|]. eapply Forall_impl; [exact Hfloor|]. cbn. lia.
Qed.

Lemma audit_trail_payloads next arrivals :
  map payload (audit_trail next arrivals) = omap processed arrivals.*1.
Proof.
  revert next. induction arrivals as [|[frame clock] rest IH]; intros next; cbn; [done|].
  destruct (delivered frame) as [data|m] eqn:Hd.
  - rewrite (log_item_processed next clock frame data Hd).
    destruct (log_item next clock data) as [item|m] eqn:E; [|apply IH].
    apply log_item_fields in E as [_ E]. cbn. by rewrite E, IH.
  - unfold processed. rewrite Hd. rsimpl. apply IH.
Qed.

(** C3. Once more than 300 messages have been appended, the event log
    holds exactly the most recent 300 entries, in arrival order and with
    strictly increasing ids; the log never grows beyond 300 entries; and
    the entries are those of the audit trail, which has every processed
    snapshot or event exactly once, in arrival order. *)
Theorem event_log_bounded ws st arrivals :
  wsRef st = Some ws ->
  length (events st) <= 300 ->
  let trail := audit_trail (nextEventIdRef st) arrivals in
  let st' := run (messages ws arrivals) st in
  events st' = slice_last 300 (events st ++ trail) /\
  length (events st') <= 300 /\
  map payload trail = omap processed arrivals.*1 /\
  StronglySorted lt (map id trail) /\
  (300 < length trail ->
   events st' = slice_last 300 trail /\
   length (events st') = 300 /\
   StronglySorted lt (map id (events st'))).
Proof.
  intros Hws Hcap. cbn zeta.
  destruct (run_messages_log ws arrivals st Hws Hcap) as [Hlog Hlen].
  destruct (audit_trail_ids (nextEventIdRef st) arrivals) as [Hsorted _].
  split; [done|]. split; [done|]. split; [apply audit_trail_payloads|]. split; [done|].
  intros Hmany. rewrite Hlog, slice_last_covers by lia.
  split; [done|]. split; [rewrite slice_last_length; lia|].
  unfold slice_last. rewrite <- skipn_map.
  rewrite <- (take_drop (length (audit_trail (nextEventIdRef st) arrivals) - 300)
                (map id _)) in Hsorted.
  by apply StronglySorted_app_1_r in Hsorted.
Qed.

Lemma event_log_bounded_witness :
  length (events (run (messages 0 heartbeat_arrivals) one_neuron_state)) = 300.
Proof.
  destruct (event_log_bounded 0 one_neuron_state heartbeat_arrivals) as (_ & _ & _ & _ & H).
  - reflexivity.
  - cbn. lia.
  - apply H. vm_compute. lia.
Defined.

(** ** Ids across connection epochs *)

Lemma connect_log rendered st :
  events (connect rendered st) = events st /\
  nextEventIdRef (connect rendered st) = nextEventIdRef st.
Proof.
  unfold connect. destruct (match wsRef st with Some _ => _ | None => _ end); [done|].
  destruct (constructorError _) eqn:E.
  - match goal with
    | |- context [scheduleReconnectPoll ?s] =>
        destruct (scheduleReconnectPoll_view s) as (_&_&_&->&_&_&->&_)
    end.
    by destruct rendered.
  - by destruct rendered.
Qed.

Lemma effect_body_log st :
  events (effect_body st) = events st /\
  nextEventIdRef (effect_body st) = nextEventIdRef st.
Proof.
  unfold effect_body. destruct (connectionStatus st), (wsRef st); try done.
  by destruct (connect_log StatusConnecting (set_isInitialLoading true st)) as [-> ->].
Qed.

Lemma rerender_log rendered st :
  events (rerender rendered st) = events st /\
  nextEventIdRef (rerender rendered st) = nextEventIdRef st.
Proof.
  assert (Hround : forall s, events (effect_body (effect_cleanup s)) = events s /\
                             nextEventIdRef (effect_body (effect_cleanup s)) = nextEventIdRef s).
  { intros s. destruct (effect_body_log (effect_cleanup s)) as [-> ->].
    unfold effect_cleanup. by destruct (clearPollingTimer_view s) as (_&_&_&->&_&_&->&_). }
  unfold rerender. destruct (decide _); [done|]. unfold run_effect.
  destruct (decide _).
  - destruct (effect_body_log (effect_cleanup st)) as [-> ->].
    unfold effect_cleanup. by destruct (clearPollingTimer_view st) as (_&_&_&->&_&_&->&_).
  - destruct (Hround (effect_body (effect_cleanup st))) as [-> ->].
    destruct (effect_body_log (effect_cleanup st)) as [-> ->].
    unfold effect_cleanup. by destruct (clearPollingTimer_view st) as (_&_&_&->&_&_&->&_).
Qed.

Lemma log_between_same lo st st' :
  events st' = events st -> nextEventIdRef st' = nextEventIdRef st ->
  log_between lo st -> log_between lo st'.
Proof. unfold log_between. by intros -> ->. Qed.

Lemma onmessage_log_between lo ws frame clock st :
  log_between lo st -> log_between lo (onmessage ws frame clock st).
Proof.
  intros [Hlo Hall]. unfold onmessage. destruct (negb _); [done|]. unfold try_message.
  destruct (_ ≫= _) as [data|]; [|done].
  assert (Hbump : log_between lo (set_nextEventIdRef (nextEventIdRef st + 1) st)).
  { split; cbn; [lia|]. eapply Forall_impl; [exact Hall|]. cbn. lia. }
  destruct (log_item _ _ _) as [item|] eqn:Hitem; [|done].
  assert (Hlogged : log_between lo (logged item st)).
  { apply log_item_fields in Hitem as [Hid _].
    split; cbn -[slice_last]; [lia|]. unfold slice_last. apply Forall_drop.
    apply Forall_app. split.
    - eapply Forall_impl; [exact Hall|]. cbn. lia.
    - repeat constructor; lia. }
  destruct (apply_message _ _ _) as [st'|] eqn:E; [|done].
  apply apply_message_log in E as [He Hn]. by apply (log_between_same lo _ _ He Hn).
Qed.

Lemma fire_timer_log tid st :
  events (fire_timer tid st) = events st /\
  nextEventIdRef (fire_timer tid st) = nextEventIdRef st.
Proof.
  unfold fire_timer. destruct (find _ _) as [t|]; [|done].
  destruct (callback t).
  - unfold reconnect_poll_fired. cbn. by destruct (connectionStatus st).
  - unfold pulse_expired. by destruct (decide _).
Qed.

Lemma step_log_between lo ev st : log_between lo st -> log_between lo (step ev st).
Proof.
  intros H. unfold step.
  destruct (rerender_log (connectionStatus st) (handler ev st)) as [He Hn].
  apply (log_between_same lo _ _ He Hn). clear He Hn.
  destruct ev as [ws|ws frame clock|ws|ws|tid]; cbn [handler].
  - unfold onopen. destruct (negb _); [done|]. destruct H as [Hlo _].
    split; cbn; [|constructor].
    by destruct (clearPollingTimer_view st) as (_&_&_&_&_&_&->&_).
  - by apply onmessage_log_between.
  - unfold onerror. by destruct (negb _).
  - unfold onclose. destruct (negb _); [done|].
    match goal with
    | |- context [scheduleReconnectPoll ?s] =>
        destruct (scheduleReconnectPoll_view s) as (_&_&_&He&_&_&Hn&_);
        apply (log_between_same lo _ _ He Hn)
    end.
    by destruct (connectionStatus _).
  - destruct (fire_timer_log tid st) as [He Hn]. by apply (log_between_same lo _ _ He Hn).
Qed.

Lemma run_log_between lo evs st : log_between lo st -> log_between lo (run evs st).
Proof.
  revert st. induction evs as [|ev evs IH]; intros st H; [done|].
  rewrite run_cons. by apply IH, step_log_between.
Qed.

(** In every state the component reaches, the ids in the log are below
    the id counter. *)
Lemma reachable_log_between ctor evs : log_between 1 (run evs (mount ctor)).
Proof.
  apply run_log_between. unfold mount.
  assert (H0 : log_between 1 (initial_state ctor)) by (split; cbn; [lia|constructor]).
  assert (Hround : forall s, events (effect_body s) = events s /\
                             nextEventIdRef (effect_body s) = nextEventIdRef s)
    by apply effect_body_log.
  unfold run_effect. destruct (decide _).
  - destruct (Hround (initial_state ctor)) as [He Hn]. by apply (log_between_same _ _ _ He Hn).
  - destruct (Hround (effect_cleanup (effect_body (initial_state ctor)))) as [He Hn].
    apply (log_between_same _ _ _ He Hn).
    unfold effect_cleanup.
    destruct (clearPollingTimer_view (effect_body (initial_state ctor)))
      as (_&_&_&He'&_&_&Hn'&_).
    apply (log_between_same _ _ _ He' Hn').
    destruct (Hround (initial_state ctor)) as [He'' Hn''].
    by apply (log_between_same _ _ _ He'' Hn'').
Qed.

(** C9. Opening a fresh connection empties the event log without
    resetting the id counter, so every id assigned afterwards, for as long
    as the session lasts, is strictly greater than every id assigned
    before: ids are never reused across connection epochs. *)
Theorem ids_never_reused ws st evs :
  wsRef st = Some ws ->
  Forall (fun item => id item < nextEventIdRef st) (events st) ->
  let st1 := step (WsOpen ws) st in
  events st1 = [] /\
  nextEventIdRef st1 = nextEventIdRef st /\
  forall old new, old ∈ events st -> new ∈ events (run evs st1) -> id old < id new.
Proof.
  intros Hws Hbelow. cbn zeta.
  assert (Hopen : events (step (WsOpen ws) st) = [] /\
                  nextEventIdRef (step (WsOpen ws) st) = nextEventIdRef st).
  { unfold step. destruct (rerender_log (connectionStatus st) (handler (WsOpen ws) st))
      as [-> ->].
    cbn [handler]. unfold onopen. rewrite (is_current_true _ _ Hws). cbn.
    by destruct (clearPollingTimer_view st) as (_&_&_&_&_&_&->&_). }
  destruct Hopen as [Hempty Hcounter]. split; [done|]. split; [done|].
  intros old new Hold Hnew.
  assert (Hepoch : log_between (nextEventIdRef st) (step (WsOpen ws) st)).
  { split; [lia|]. rewrite Hempty. constructor. }
  apply (run_log_between _ evs) in Hepoch as [_ Hall].
  rewrite Forall_forall in Hbelow, Hall.
  specialize (Hbelow old Hold). specialize (Hall new Hnew). lia.
Qed.

Lemma ids_never_reused_witness :
  Forall (fun old =>
            Forall (fun new => id old < id new)
              (events (run [WsMessage 0 (Decoded snapshot_frame) noon]
                         (step (WsOpen 0) first_epoch))))
    (events first_epoch).
Proof.
  apply Forall_forall. intros old Hold. apply Forall_forall. intros new Hnew.
  refine (proj2 (proj2 (ids_never_reused 0 first_epoch
                          [WsMessage 0 (Decoded snapshot_frame) noon] _ _)) old new Hold Hnew).
  - reflexivity.
  - vm_compute. repeat constructor.
Defined.

(** ** Reconnecting *)

(** Once [connect] has stored a socket, no handler removes it, and the
    number of constructor calls stays what it is. *)
Lemma handler_keeps_socket ev st ws :
  wsRef st = Some ws ->
  wsRef (handler ev st) = Some ws /\
  constructorCalls (handler ev st) = constructorCalls st.
Proof.
  intros Hws. destruct ev as [ws'|ws' frame clock|ws'|ws'|tid]; cbn [handler].
  - unfold onopen. destruct (negb _); [done|]. cbn.
    by destruct (clearPollingTimer_view st) as (_&_&_&_&_&->&_&_&->&_).
  - by rewrite onmessage_wsRef, onmessage_constructorCalls.
  - unfold onerror. by destruct (negb _).
  - unfold onclose. destruct (negb _); [done|].
    match goal with
    | |- context [scheduleReconnectPoll ?s] =>
        destruct (scheduleReconnectPoll_view s) as (_&_&_&_&_&->&_&_&->)
    end.
    by destruct (connectionStatus _).
  - unfold fire_timer. destruct (find _ _) as [t|]; [|done].
    destruct (callback t).
    + unfold reconnect_poll_fired. cbn. by destruct (connectionStatus st).
    + unfold pulse_expired. by destruct (decide _).
Qed.

Lemma step_keeps_socket ev st ws :
  wsRef st = Some ws ->
  wsRef (step ev st) = Some ws /\ constructorCalls (step ev st) = constructorCalls st.
Proof.
  intros Hws. destruct (handler_keeps_socket ev st ws Hws) as [Hws' Hcalls].
  unfold step.
  destruct (rerender_view (connectionStatus st) (handler ev st) ws Hws')
    as (_&_&_&_&_&->&_&_&->).
  done.
Qed.

Lemma step_stranded ev st :
  stranded st ->
  stranded (step ev st) /\ constructorCalls (step ev st) = constructorCalls st.
Proof.
  intros (Hws & Htimers & Hstatus).
  assert (Hstale : forall ws, is_current ws st = false)
    by (intros ws; unfold is_current; rewrite Hws; by apply bool_decide_eq_false).
  assert (Hquiet : forall st', stranded st' -> connectionStatus st' = connectionStatus st ->
                               rerender (connectionStatus st) st' = st').
  { intros st' _ Hsame. unfold rerender. by rewrite decide_True. }
  unfold step.
  destruct ev as [ws|ws frame clock|ws|ws|tid]; cbn [handler].
  - unfold onopen. rewrite Hstale. cbn [negb]. by rewrite Hquiet.
  - unfold onmessage. rewrite Hstale. cbn [negb]. by rewrite Hquiet.
  - unfold onerror. rewrite Hstale. cbn [negb]. by rewrite Hquiet.
  - unfold onclose, is_current. cbn [wsRef set_closedSockets]. fold (is_current ws st).
    rewrite Hstale. cbn [negb]. by rewrite Hquiet.
  - unfold fire_timer. rewrite Htimers. cbn [find]. by rewrite Hquiet.
Qed.

(** C2, which the code does not meet.  Over a whole session, whatever the
    browser delivers after the first render (opens, messages, errors,
    closes, any pending timer firing), [new WebSocket(endpoint)] is
    evaluated exactly once: the retry that [scheduleReconnectPoll]
    schedules never initiates a second connect attempt. *)
Theorem retry_never_reconnects ctor evs : constructorCalls (run evs (mount ctor)) = 1.
Proof.
  assert (Hinv : forall evs st,
            constructorCalls st = 1 -> is_Some (wsRef st) \/ stranded st ->
            constructorCalls (run evs st) = 1).
  { clear evs. induction evs as [|ev evs IH]; intros st Hcalls Hcase; [done|].
    rewrite run_cons. destruct Hcase as [[ws Hws]|Hstranded].
    - destruct (step_keeps_socket ev st ws Hws) as [Hws' Hcalls'].
      apply IH; [congruence|left; eauto].
    - destruct (step_stranded ev st Hstranded) as [Hstranded' Hcalls'].
      apply IH; [congruence|by right]. }
  apply Hinv; destruct ctor as [m|]; [reflexivity|reflexivity|right|left].
  - by repeat split.
  - by eexists.
Qed.

(** The socket closes while the connection is open: the component shows
    [polling], but the cleanup of the connection effect has already
    cancelled the timer that [onclose] scheduled. *)
Example closed_connection_has_no_retry_pending :
  let st := run [WsOpen 0; WsClose 0] (mount None) in
  connectionStatus st = StatusPolling /\ timeouts st = [] /\ pollingTimerRef st = None.
Proof. by repeat split. Qed.

(** A shutdown notice, then the close: this time the timer survives (the
    status was [polling] already, so nothing re-rendered), it fires, the
    status becomes [connecting], and the effect skips [connect] because
    [wsRef] still holds the closed socket. *)
Example fired_retry_skips_connect :
  let closed := run [WsOpen 0; WsMessage 0 (Decoded shutdown_frame) noon; WsClose 0]
                  (mount None) in
  let st := step (TimerFired 2) closed in
  timeouts closed = [{| timer_id := 2; delay_ms := 60000; callback := ReconnectPoll |}] /\
  connectionStatus st = StatusConnecting /\ wsRef st = Some 0 /\
  socketCount st = 1 /\ constructorCalls st = 1 /\ timeouts st = [].
Proof. by repeat split. Qed.

(** ** Normalization is a fixed point *)

Lemma mapM_result_fixed {A} (f : A -> result A) (l l' : list A) :
  (forall x y, f x = Ok y -> f y = Ok y) ->
  mapM_result f l = Ok l' -> mapM_result f l' = Ok l'.
Proof.
  intros Hf. revert l'. induction l as [|x l IH]; intros l' H; cbn in H.
  - by inversion H.
  - destruct (f x) as [y|] eqn:Hx; [|done]. rsimpl in H.
    destruct (mapM_result f l) as [ys|] eqn:Hl; [|done]. rsimpl in H.
    inversion H; subst. cbn. rewrite (Hf _ _ Hx). rsimpl. by rewrite (IH ys).
Qed.

Lemma mapM_index_fixed {A} (f : A -> nat -> result A) (l l' : list A) (i j : nat) :
  (forall x y i j, f x i = Ok y -> f y j = Ok y) ->
  mapM_index f i l = Ok l' -> mapM_index f j l' = Ok l'.
Proof.
  intros Hf. revert l' i j. induction l as [|x l IH]; intros l' i j H; cbn in H.
  - by inversion H.
  - destruct (f x i) as [y|] eqn:Hx; [|done]. rsimpl in H.
    destruct (mapM_index f (S i) l) as [ys|] eqn:Hl; [|done]. rsimpl in H.
    inversion H; subst. cbn. rewrite (Hf _ _ _ j Hx). rsimpl. by rewrite (IH ys (S i)).
Qed.

Lemma model_id_fixed (m : jsval) : is_model_id m -> normalizeModelId m = Ok m.
Proof. by intros [-> | [s ->]]. Qed.

Lemma model_id_string_or_normalized (m : jsval) :
  is_model_id m -> string_or_normalized m = Ok m.
Proof. by intros [-> | [s ->]]. Qed.

Lemma coalesce_fixed (a b : jsval) :
  JS.nullish b = false -> JS.coalesce (JS.coalesce a b) b = JS.coalesce a b.
Proof. intros Hb. unfold JS.coalesce. destruct (JS.nullish a) eqn:E; by rewrite ?Hb, ?E. Qed.

Lemma coalesce_null_fixed (a : jsval) :
  JS.coalesce (JS.coalesce a JNull) JNull = JS.coalesce a JNull.
Proof. by destruct a. Qed.

(** Evaluates property reads on object literals and the tests on
    them, leaving the normalizers folded. *)
Ltac js_eval :=
  cbn [JS.get JS.has JS.nullish JS.prop JS.lookup_prop JS.is_string JS.truthy JS.typeof
       typeof_is JS.Boolean String.eqb Ascii.eqb Bool.eqb default from_option Datatypes.id
       negb orb andb
       bool_decide decide_rel is_Some_dec option_eq_None_dec
       mbind result_mbind result_bind mret result_ret fst snd].

Lemma normalizeModelStatus_fixed (m r : jsval) :
  normalizeModelStatus m = Ok r -> normalizeModelStatus r = Ok r.
Proof.
  unfold normalizeModelStatus at 1. intros H.
  destruct (JS.get m "model_id") as [mid|]; [|done]. rsimpl in H.
  destruct (normalizeModelId_total mid) as (model_id & Hmid & Hshape).
  rewrite Hmid in H. rsimpl in H.
  destruct (JS.get m "last_cmd_kind") as [a|]; [|done]. rsimpl in H.
  destruct (JS.get m "last_response") as [b|]; [|done]. rsimpl in H.
  destruct (JS.get m "effective_status") as [c|]; [|done]. rsimpl in H.
  inversion H; subst. unfold normalizeModelStatus. js_eval.
  rewrite (model_id_fixed _ Hshape). rsimpl.
  by rewrite coalesce_null_fixed, !coalesce_fixed by done.
Qed.

Lemma normalizeModels_fixed (models r : jsval) :
  normalizeModels models = Ok r -> normalizeModels r = Ok r.
Proof.
  unfold normalizeModels at 1. intros H.
  destruct models as [| | | | |items|]; try (by inversion H).
  destruct (mapM_result normalizeModelStatus items) as [ms|] eqn:E; [|done].
  rsimpl in H. inversion H; subst. cbn [normalizeModels].
  by rewrite (mapM_result_fixed _ _ _ normalizeModelStatus_fixed E).
Qed.

Lemma and_get_total (n : jsval) (k : string) : exists v, and_get n k = Ok v.
Proof.
  unfold and_get. destruct (JS.truthy n) eqn:E; [|eauto].
  rewrite get_truthy by done. eauto.
Qed.

Lemma normalizeNeuron_fixed (n r : jsval) (i j : nat) :
  normalizeNeuron n i = Ok r -> normalizeNeuron r j = Ok r.
Proof.
  unfold normalizeNeuron at 1. intros H.
  destruct (if JS.truthy n && typeof_is n "object" then JS.has "descriptor" n else Ok false)
    as [[|]|]; [| |done]; rsimpl in H.
  - destruct (JS.get n "descriptor") as [d|]; [|done]. rsimpl in H.
    destruct (JS.get n "last_heartbeat_at") as [hb|]; [|done]. rsimpl in H.
    destruct (JS.get n "health") as [h|]; [|done]. rsimpl in H.
    destruct (JS.get n "offline") as [o|]; [|done]. rsimpl in H.
    destruct (JS.get n "models") as [mw|]; [|done]. rsimpl in H.
    destruct (normalizeModels mw) as [ms|] eqn:Hms; [|done]. rsimpl in H.
    inversion H; subst. unfold normalizeNeuron. js_eval.
    rewrite (normalizeModels_fixed _ _ Hms). rsimpl.
    rewrite coalesce_null_fixed, coalesce_fixed by done.
    by destruct (JS.truthy o).
  - destruct (and_get_total n "node_id") as [a Ha].
    destruct (and_get_total n "label") as [b Hb].
    destruct (and_get_total n "metadata") as [c Hc].
    rewrite Ha, Hb, Hc in H. rsimpl in H.
    destruct (JS.nullish b); rewrite ?Ha in H; rsimpl in H; by inversion H; subst.
Qed.

Lemma normalizeSnapshot_fixed (snapshot table : jsval) :
  normalizeSnapshot snapshot = Ok table -> normalizeSnapshot table = Ok table.
Proof.
  unfold normalizeSnapshot at 1. intros H.
  destruct (JS.get snapshot "neurons") as [neurons|]; [|done]. rsimpl in H.
  match type of H with
  | context [mapM_index normalizeNeuron 0 ?l] =>
      destruct (mapM_index normalizeNeuron 0 l) as [normalized|] eqn:E; [|done]
  end.
  rsimpl in H. inversion H; subst. unfold normalizeSnapshot. js_eval.
  by rewrite (mapM_index_fixed _ _ _ _ 0 normalizeNeuron_fixed E).
Qed.

Lemma explicit_kind_command_shape (wire cmd : jsval) :
  explicit_kind_command wire = Ok (Some cmd) -> is_command cmd.
Proof.
  unfold explicit_kind_command. intros H.
  destruct (JS.has "kind" wire) as [[|]|]; [| |done]; rsimpl in H; [|done].
  destruct (JS.get wire "kind") as [k|]; [|done]. rsimpl in H.
  destruct (JS.is_string k "upsert_model_config").
  - destruct (JS.get wire "config") as [config|]; [|done]. rsimpl in H.
    inversion H. left. eauto.
  - destruct (JS.is_string k "load_model" || JS.is_string k "unload_model") eqn:Ek; [|done].
    destruct (JS.get wire "model_id") as [mid|]; [|done]. rsimpl in H.
    destruct (string_or_normalized_total mid) as (m & Hm & Hshape).
    rewrite Hm in H. rsimpl in H. inversion H. right.
    apply orb_true_iff in Ek as [Ek|Ek]; apply is_string_spec in Ek as ->; eauto 10.
Qed.

Lemma legacy_command_shape (wire cmd : jsval) :
  legacy_command wire = Ok cmd -> is_command cmd.
Proof.
  unfold legacy_command. intros H.
  destruct (JS.has "UpsertModelConfig" wire) as [[|]|]; [| |done]; rsimpl in H.
  { destruct (JS.get wire "UpsertModelConfig") as [config|]; [|done]. rsimpl in H.
    inversion H. left. eauto. }
  destruct (JS.has "LoadModel" wire) as [[|]|]; [| |done]; rsimpl in H.
  { destruct (JS.get wire "LoadModel") as [mid|]; [|done]. rsimpl in H.
    destruct (string_or_normalized_total mid) as (m & Hm & Hshape).
    rewrite Hm in H. rsimpl in H. inversion H. right. eauto 10. }
  destruct (JS.has "UnloadModel" wire) as [[|]|]; [| |done]; rsimpl in H.
  { destruct (JS.get wire "UnloadModel") as [mid|]; [|done]. rsimpl in H.
    destruct (string_or_normalized_total mid) as (m & Hm & Hshape).
    rewrite Hm in H. rsimpl in H. inversion H. right. eauto 10. }
  inversion H. left. eauto.
Qed.

Lemma normalizeProvisioningCommand_shape (wire cmd : jsval) :
  normalizeProvisioningCommand wire = Ok cmd -> is_command cmd.
Proof.
  unfold normalizeProvisioningCommand. intros H.
  destruct (negb (JS.truthy wire) || negb (typeof_is wire "object")).
  { inversion H. left. eauto. }
  destruct (explicit_kind_command wire) as [[explicit|]|] eqn:E; [| |done]; rsimpl in H.
  - inversion H; subst. by apply explicit_kind_command_shape in E.
  - by apply legacy_command_shape in H.
Qed.

Lemma command_fixed (cmd : jsval) : is_command cmd -> normalizeProvisioningCommand cmd = Ok cmd.
Proof.
  intros [[config ->] | (k & m & Hk & Hm & ->)]; [reflexivity|].
  apply model_id_string_or_normalized in Hm.
  unfold normalizeProvisioningCommand, explicit_kind_command, model_command.
  destruct Hk as [-> | ->]; js_eval; by rewrite Hm.
Qed.

Lemma normalizeProvisioningCommand_fixed (wire cmd : jsval) :
  normalizeProvisioningCommand wire = Ok cmd -> normalizeProvisioningCommand cmd = Ok cmd.
Proof. intros H. by apply command_fixed, (normalizeProvisioningCommand_shape wire). Qed.

Lemma neuron_id_of_shape (e v : jsval) :
  neuron_id_of e = Ok v -> exists s, v = JString s.
Proof.
  unfold neuron_id_of. intros H.
  destruct (JS.get e "neuron_id") as [n|]; [|done]. rsimpl in H.
  destruct (JS.toString n) as [s|]; [|done]. inversion H. eauto.
Qed.

(** A normalized event is either the wire message itself (an event type
    the dashboard does not know) or a message that normalizes to
    itself. *)
Lemma normalizeEvent_fixed (wire e : jsval) (type : string) (data : jsval) :
  normalizeEvent wire e type = Ok data ->
  data = wire \/ normalizeMessage data = Ok data.
Proof.
  unfold normalizeEvent. intros H.
  repeat match type of H with
         | (if String.eqb type ?t then _ else _) = _ =>
             destruct (String.eqb type t)
         end;
    [right ..|left; by inversion H];
    repeat match type of H with
           | (neuron_id_of e ≫= _) = _ =>
               let E := fresh "E" in
               destruct (neuron_id_of e) as [?|] eqn:E; [|done];
               apply neuron_id_of_shape in E as [? ->]; rsimpl in H
           | (JS.get e ?k ≫= _) = _ =>
               destruct (JS.get e k) as [?|]; [|done]; rsimpl in H
           | (normalizeProvisioningCommand ?c ≫= _) = _ =>
               let E := fresh "E" in
               destruct (normalizeProvisioningCommand c) as [?|] eqn:E; [|done];
               apply normalizeProvisioningCommand_fixed in E; rsimpl in H
           | (normalizeModels ?c ≫= _) = _ =>
               let E := fresh "E" in
               destruct (normalizeModels c) as [?|] eqn:E; [|done];
               apply normalizeModels_fixed in E; rsimpl in H
           end;
    inversion H; subst; clear H;
    unfold normalizeMessage, event_message; js_eval;
    unfold normalizeEvent, neuron_id_of; js_eval;
    cbn [JS.toString]; rsimpl;
    rewrite ?E, ?E0, ?coalesce_null_fixed, ?coalesce_fixed by done; rsimpl;
    rewrite ?E, ?E0; reflexivity.
Qed.

Lemma normalizeMessage_fixed (wire data : jsval) :
  normalizeMessage wire = Ok data -> normalizeMessage data = Ok data.
Proof.
  intros H0. pose proof H0 as H. unfold normalizeMessage in H.
  destruct (JS.get wire "kind") as [k|]; [|done]. rsimpl in H.
  destruct (JS.is_string k "snapshot").
  - destruct (JS.get wire "snapshot") as [s|]; [|done]. rsimpl in H.
    destruct (normalizeSnapshot s) as [table|] eqn:E; [|done]. rsimpl in H.
    inversion H; subst. apply normalizeSnapshot_fixed in E.
    unfold normalizeMessage. js_eval. by rewrite E.
  - destruct (JS.get wire "event") as [e|]; [|done]. rsimpl in H.
    destruct (negb (JS.truthy e) || negb (typeof_is e "object")); [by inversion H; subst|].
    destruct (JS.get e "type") as [t|]; [|done]. rsimpl in H.
    destruct t as [| | | |t| |]; try (by inversion H; subst).
    apply normalizeEvent_fixed in H as [-> | H]; done.
Qed.

(** C6. Normalization is idempotent: normalizing what [normalizeMessage]
    returned gives the same value again, snapshot, provisioning commands
    and model ids included; and a message that makes it throw does so
    either way. *)
Theorem normalizeMessage_idempotent (wire : jsval) :
  normalizeMessage wire ≫= normalizeMessage = normalizeMessage wire.
Proof.
  destruct (normalizeMessage wire) as [data|m] eqn:H; rsimpl; [|done].
  by apply (normalizeMessage_fixed wire).
Qed.

(** ** Reachable states

    The table the reconciler works on is always [null] or a list of
    neuron objects, no state updater ever throws, and the log stays within
    its capacity: the side conditions of the theorems above hold in every
    state the component can reach. *)

Lemma mapM_result_Forall {A B} (f : A -> result B) (P : A -> Prop) (Q : B -> Prop) l l' :
  (forall x y, P x -> f x = Ok y -> Q y) ->
  Forall P l -> mapM_result f l = Ok l' -> Forall Q l'.
Proof.
  intros Hf Hl. revert l'. induction Hl as [|x l Hx _ IH]; intros l' H; cbn in H.
  - inversion H. constructor.
  - destruct (f x) as [y|] eqn:E; [|done]. rsimpl in H.
    destruct (mapM_result f l) as [ys|]; [|done]. rsimpl in H.
    inversion H. constructor; [by eapply Hf|by apply IH].
Qed.

Lemma mapM_index_Forall {A B} (f : A -> nat -> result B) (Q : B -> Prop) l l' i :
  (forall x i y, f x i = Ok y -> Q y) ->
  mapM_index f i l = Ok l' -> Forall Q l'.
Proof.
  intros Hf. revert l' i. induction l as [|x l IH]; intros l' i H; cbn in H.
  - inversion H. constructor.
  - destruct (f x i) as [y|] eqn:E; [|done]. rsimpl in H.
    destruct (mapM_index f (S i) l) as [ys|] eqn:El; [|done]. rsimpl in H.
    inversion H. constructor; [by eapply Hf|by eapply IH].
Qed.

Lemma normalizeNeuron_object n i r : normalizeNeuron n i = Ok r -> is_object r.
Proof.
  unfold normalizeNeuron. intros H.
  destruct (if JS.truthy n && typeof_is n "object" then JS.has "descriptor" n else Ok false)
    as [[|]|]; [| |done]; rsimpl in H.
  - repeat match type of H with
           | (?c ≫= _) = _ => destruct c; [|done]; rsimpl in H
           end.
    inversion H. by eexists.
  - repeat match type of H with
           | (?c ≫= _) = _ => destruct c; [|done]; rsimpl in H
           end.
    inversion H. by eexists.
Qed.

Lemma normalizeSnapshot_table s table :
  normalizeSnapshot s = Ok table ->
  exists neurons, table = table_of neurons /\ Forall is_object neurons.
Proof.
  unfold normalizeSnapshot. intros H.
  destruct (JS.get s "neurons") as [neurons|]; [|done]. rsimpl in H.
  match type of H with
  | context [mapM_index normalizeNeuron 0 ?l] =>
      destruct (mapM_index normalizeNeuron 0 l) as [normalized|] eqn:E; [|done]
  end.
  rsimpl in H. inversion H. exists normalized. split; [done|].
  by apply (mapM_index_Forall _ _ _ _ _ normalizeNeuron_object E).
Qed.

Lemma heartbeat_neuron_object neuron_id now n r :
  is_object n -> heartbeat_neuron neuron_id now n = Ok r -> is_object r.
Proof.
  intros [props ->]. unfold heartbeat_neuron. rewrite get_defined by done. rsimpl.
  destruct (JS.truthy (JS.prop (JObject props) "descriptor")) eqn:Ht.
  - rewrite !get_truthy by done. rsimpl.
    destruct (strict_eq _ _); rsimpl; [|destruct (strict_eq _ _)];
      intros [= <-]; by eexists.
  - rsimpl. intros [= <-]. by eexists.
Qed.

Lemma heartbeat_neuron_total neuron_id now n :
  is_object n -> exists r, heartbeat_neuron neuron_id now n = Ok r.
Proof.
  intros [props ->]. unfold heartbeat_neuron. rewrite get_defined by done. rsimpl.
  destruct (JS.truthy (JS.prop (JObject props) "descriptor")) eqn:Ht.
  - rewrite !get_truthy by done. rsimpl.
    destruct (strict_eq _ _); rsimpl; [|destruct (strict_eq _ _)]; eauto.
  - rsimpl. eauto.
Qed.

Lemma mapM_result_total {A B} (f : A -> result B) (P : A -> Prop) l :
  (forall x, P x -> exists y, f x = Ok y) -> Forall P l -> exists l', mapM_result f l = Ok l'.
Proof.
  intros Hf. induction 1 as [|x l Hx _ [ys IH]]; cbn; [eauto|].
  destruct (Hf x Hx) as [y ->]. rsimpl. rewrite IH. rsimpl. eauto.
Qed.

Lemma heartbeat_snapshot_ok neuron_id now table :
  table_ok table ->
  exists table', heartbeat_snapshot neuron_id now table = Ok table' /\ table_ok table'.
Proof.
  intros [-> | (neurons & -> & Hobjects)].
  - exists JNull. split; [done|by left].
  - unfold heartbeat_snapshot. cbn [table_of JS.truthy negb]. rewrite get_defined by done.
    rsimpl. change (JS.prop (table_of neurons) "neurons") with (JArray neurons).
    cbv iota.
    destruct (mapM_result_total (heartbeat_neuron neuron_id now) is_object neurons)
      as [updated E]; [apply heartbeat_neuron_total|done|].
    rewrite E. rsimpl. eexists. split; [reflexivity|]. right. exists updated.
    split; [done|].
    eapply (mapM_result_Forall _ is_object is_object); [|exact Hobjects|exact E].
    intros x y. apply heartbeat_neuron_object.
Qed.

Lemma normalizeEvent_ok wire e type data :
  JS.prop wire "kind" <> JString "snapshot" ->
  JS.prop wire "event" = e ->
  JS.prop e "type" = JString type ->
  normalizeEvent wire e type = Ok data -> message_ok data.
Proof.
  intros Hkind <- Htype. unfold normalizeEvent. intros H. right.
  repeat match type of H with
         | (if String.eqb type ?t then _ else _) = _ =>
             let E := fresh "E" in destruct (String.eqb type t) eqn:E
         end;
    [..|inversion H; subst data; split; [done|];
        rewrite Htype; intros [= ->]; discriminate];
    repeat match type of H with
           | (neuron_id_of _ ≫= _) = _ =>
               let E := fresh "E" in
               destruct (neuron_id_of _) as [?|] eqn:E; [|done];
               apply neuron_id_of_shape in E as [? ->]; rsimpl in H
           | (?c ≫= _) = _ => destruct c; [|done]; rsimpl in H
           end;
    inversion H; (split; [discriminate|]); unfold event_message; js_eval;
    first [by intros [=] | intros _; eauto].
Qed.

Lemma normalizeMessage_ok wire data : normalizeMessage wire = Ok data -> message_ok data.
Proof.
  unfold normalizeMessage, JS.get. intros H.
  destruct (JS.nullish wire) eqn:Hwire; [done|]. rsimpl in H.
  destruct (JS.is_string (JS.prop wire "kind") "snapshot") eqn:Hkind.
  - destruct (normalizeSnapshot _) as [table|] eqn:E; [|done]. rsimpl in H.
    inversion H. left. apply normalizeSnapshot_table in E as (neurons & -> & Hobjects).
    eauto.
  - assert (Hnot : JS.prop wire "kind" <> JString "snapshot").
    { intros E. apply is_string_spec in E. congruence. }
    destruct (negb (JS.truthy (JS.prop wire "event")) ||
              negb (typeof_is (JS.prop wire "event") "object")) eqn:Hobj.
    + inversion H; subst data. right. split; [done|].
      by destruct (JS.prop wire "event").
    + destruct (JS.nullish (JS.prop wire "event")); [done|]. rsimpl in H.
      destruct (JS.prop (JS.prop wire "event") "type") as [| | | |t| |] eqn:Ht;
        try (inversion H; subst data; right; split; [done|]; by rewrite Ht).
      by apply (normalizeEvent_ok wire _ t data Hnot eq_refl Ht).
Qed.

Lemma apply_message_ok data clock st st' :
  message_ok data ->
  table_ok (snapshot st) -> renderError st = None ->
  apply_message data clock st = Ok st' ->
  table_ok (snapshot st') /\ renderError st' = None.
Proof.
  intros [(table & neurons & -> & -> & Hobjects) | [Hkind Hbeat]] Htable Hrender.
  - intros [= <-]. split; [|done]. right. eauto.
  - unfold apply_message, JS.get.
    destruct (JS.nullish data); [done|]. rsimpl.
    rewrite (is_string_false _ _ Hkind).
    destruct (JS.nullish (JS.prop data "event")); [done|]. rsimpl.
    destruct (JS.is_string _ "neuron_heartbeat") eqn:Et.
    + apply is_string_spec in Et. destruct (Hbeat Et) as [s Hs].
      intros [= <-]. rewrite Hs. unfold bump_pulse, update_snapshot. cbn [JS.toString].
      destruct (heartbeat_snapshot_ok (JString s) (nowIso clock) _ Htable) as (t & -> & Ht).
      done.
    + destruct (JS.is_string _ "cortex_shutdown_notice"); [|by intros [= <-]].
      intros [= <-].
      match goal with
      | |- context [scheduleReconnectPoll ?s] =>
          by destruct (scheduleReconnectPoll_view s) as (_&_&->&_&_&_&_&->&_)
      end.
Qed.

Lemma onmessage_state_ok ws frame clock st :
  state_ok st -> state_ok (onmessage ws frame clock st).
Proof.
  intros (Htable & Hrender & Hcap). unfold onmessage. destruct (negb _); [done|].
  unfold try_message. fold (delivered frame).
  destruct (delivered frame) as [data|] eqn:Hd; [|done].
  destruct (log_item _ _ _) as [item|]; [|done].
  assert (Hlogged : state_ok (logged item st)).
  { repeat split; [done..|]. cbn -[slice_last]. rewrite slice_last_length. lia. }
  destruct (apply_message _ _ _) as [st'|] eqn:E; [|done].
  assert (Hmsg : message_ok data).
  { unfold delivered in Hd. destruct frame as [m|wire]; [done|].
    by apply (normalizeMessage_ok wire). }
  destruct Hlogged as (Htable' & Hrender' & Hcap').
  destruct (apply_message_ok _ _ _ _ Hmsg Htable' Hrender' E) as [Ht Hr].
  apply apply_message_view in E as (_ & He & _). unfold state_ok. by rewrite He.
Qed.

Lemma handler_state_ok ev st : state_ok st -> state_ok (handler ev st).
Proof.
  intros H. destruct ev as [ws|ws frame clock|ws|ws|tid]; cbn [handler].
  - unfold onopen. destruct (negb _); [done|]. destruct H as (_ & Hrender & _).
    repeat split; cbn; [by left| |lia].
    by destruct (clearPollingTimer_view st) as (_&_&_&_&_&_&_&->&_).
  - by apply onmessage_state_ok.
  - unfold onerror. by destruct (negb _).
  - unfold onclose. destruct (negb _); [done|]. unfold state_ok.
    match goal with
    | |- context [scheduleReconnectPoll ?s] =>
        destruct (scheduleReconnectPoll_view s) as (_&_&->&->&_&_&_&->&_)
    end.
    by destruct (connectionStatus _).
  - unfold fire_timer. destruct (find _ _) as [t|]; [|done].
    destruct (callback t).
    + unfold reconnect_poll_fired. cbn. by destruct (connectionStatus st).
    + unfold pulse_expired. by destruct (decide _).
Qed.

Lemma effect_cleanup_state_ok st : state_ok st -> state_ok (effect_cleanup st).
Proof.
  unfold state_ok, effect_cleanup.
  by destruct (clearPollingTimer_view st) as (_&_&->&->&_&_&_&->&_).
Qed.

Lemma connect_state_ok rendered st : state_ok st -> state_ok (connect rendered st).
Proof.
  intros H. unfold connect.
  destruct (match wsRef st with Some _ => _ | None => _ end); [done|].
  destruct (constructorError _).
  - unfold state_ok.
    match goal with
    | |- context [scheduleReconnectPoll ?s] =>
        destruct (scheduleReconnectPoll_view s) as (_&_&->&->&_&_&_&->&_)
    end.
    by destruct rendered.
  - by destruct rendered.
Qed.

Lemma effect_body_state_ok st : state_ok st -> state_ok (effect_body st).
Proof.
  intros H. unfold effect_body. destruct (connectionStatus st), (wsRef st); try done.
  by apply connect_state_ok.
Qed.

Lemma run_effect_state_ok st : state_ok st -> state_ok (run_effect st).
Proof.
  intros H. unfold run_effect. destruct (decide _).
  - by apply effect_body_state_ok.
  - by apply effect_body_state_ok, effect_cleanup_state_ok, effect_body_state_ok.
Qed.

Lemma step_state_ok ev st : state_ok st -> state_ok (step ev st).
Proof.
  intros H. unfold step, rerender. destruct (decide _).
  - by apply handler_state_ok.
  - by apply run_effect_state_ok, effect_cleanup_state_ok, handler_state_ok.
Qed.

(** Every state reached from the first render has a well-formed table, no
    render error and a log within capacity. *)
Lemma reachable_state_ok ctor evs : state_ok (run evs (mount ctor)).
Proof.
  assert (Hrun : forall evs st, state_ok st -> state_ok (run evs st)).
  { clear evs. induction evs as [|ev evs IH]; intros st H; [done|].
    rewrite run_cons. by apply IH, step_state_ok. }
  apply Hrun, run_effect_state_ok. repeat split; cbn; [by left|lia].
Qed.

(** * Further properties *)

(** ** Model ids *)

Lemma stringify_defined (v : jsval) : v <> JUndefined -> exists s, JS.stringify v = Some s.
Proof. destruct v; cbn; intros H; try done; eauto. Qed.

Lemma JSON_stringify_string (v : jsval) :
  v <> JUndefined -> exists s, JS.JSON_stringify v = JString s.
Proof.
  intros H. destruct (stringify_defined v H) as [s Hs]. exists s.
  unfold JS.JSON_stringify. by rewrite Hs.
Qed.

(** X1. [normalizeModelId] never throws and gives a plain string for every
    value but [undefined], which it leaves [undefined]; an object or array
    whose member ["0"] is a string is unwrapped to that string. *)
Theorem normalizeModelId_string_unless_undefined (id : jsval) :
  (exists m, normalizeModelId id = Ok m /\
             (id = JUndefined -> m = JUndefined) /\
             (id <> JUndefined -> exists s, m = JString s)) /\
  (forall s, JS.typeof id = "object" -> JS.truthy id = true ->
             JS.has "0" id = Ok true -> JS.prop id "0" = JString s ->
             normalizeModelId id = Ok (JString s)).
Proof.
  split.
  - unfold normalizeModelId.
    destruct (typeof_is id "string") eqn:Hs.
    { destruct id; try discriminate. eexists. split; [done|]. split; [done|]. eauto. }
    destruct (JS.truthy id && typeof_is id "object") eqn:Ho.
    + apply andb_true_iff in Ho as [Ht Ho].
      destruct (has_object "0" id Ht Ho) as [b ->]. rsimpl.
      assert (Hid : id <> JUndefined) by (by destruct id).
      destruct (JSON_stringify_string id Hid) as [js Hjs].
      destruct b.
      * rewrite get_truthy by done. rsimpl.
        destruct (typeof_is (JS.prop id "0") "string") eqn:Hv.
        -- eexists. split; [done|]. split; [done|]. intros _.
           destruct (JS.prop id "0"); try discriminate. eauto.
        -- eexists. split; [done|]. split; [done|]. rewrite Hjs. eauto.
      * eexists. split; [done|]. split; [done|]. rewrite Hjs. eauto.
    + rsimpl. eexists. split; [done|]. split.
      * by intros ->.
      * intros Hid. by apply JSON_stringify_string.
  - intros s Ho Ht Hhas Hprop. unfold normalizeModelId.
    assert (typeof_is id "string" = false) as -> by (by destruct id).
    assert (typeof_is id "object" = true) as -> by (unfold typeof_is; by rewrite Ho).
    rewrite Ht, Hhas. rsimpl. rewrite get_truthy by done. rsimpl. by rewrite Hprop.
Qed.

(** ** Snapshots: which ones normalize, and into what *)

Lemma find_all_false {A} (f : A -> bool) (l : list A) :
  (forall x, f x = false) -> find f l = None.
Proof. intros Hf. induction l as [|x l IH]; cbn; [done|]. by rewrite Hf. Qed.

Lemma decimal_starts_with_digit (n : nat) :
  exists c r, JS.decimal n = String c r /\ 48 <= nat_of_ascii c <= 57.
Proof.
  unfold JS.decimal, NilZero.string_of_uint.
  destruct (Nat.to_uint n); cbn; do 2 eexists; (split; [reflexivity|]); vm_compute; lia.
Qed.

(** An array has no member called [descriptor] or [secs_since_epoch]:
    only index keys and [length]. *)
Lemma array_index_name (k : string) (c : ascii) (r : string) (len : nat) :
  k = String c r -> 57 < nat_of_ascii c -> JS.array_index k len = None.
Proof.
  intros -> Hc. unfold JS.array_index. apply find_all_false. intros i.
  apply String.eqb_neq. intros E.
  destruct (decimal_starts_with_digit i) as (c' & r' & Heq & Hdigit).
  rewrite Heq in E. injection E as -> _. lia.
Qed.

Lemma has_descriptor_array (items : list jsval) : JS.has "descriptor" (JArray items) = Ok false.
Proof.
  cbn -[JS.array_index].
  by rewrite (array_index_name "descriptor" _ _ _ eq_refl) by (vm_compute; lia).
Qed.

Lemma normalizeModelStatus_ok_iff (m : jsval) :
  (exists r, normalizeModelStatus m = Ok r) <-> JS.nullish m = false.
Proof.
  unfold normalizeModelStatus. split.
  - intros [r H]. destruct (JS.nullish m) eqn:E; [|done].
    unfold JS.get in H. by rewrite E in H.
  - intros E. rewrite !get_defined by done. rsimpl.
    destruct (normalizeModelId_total (JS.prop m "model_id")) as (mid & -> & _). rsimpl. eauto.
Qed.

Lemma mapM_result_ok_iff {A B} (f : A -> result B) (l : list A) :
  (exists l', mapM_result f l = Ok l') <-> Forall (fun x => exists y, f x = Ok y) l.
Proof.
  induction l as [|x l IH]; cbn.
  - split; [constructor|eauto].
  - split.
    + intros [l' H]. destruct (f x) as [y|] eqn:Hx; [|done]. rsimpl in H.
      destruct (mapM_result f l) as [ys|]; [|done]. constructor; [eauto|].
      apply IH. eauto.
    + intros H. apply Forall_cons in H as [[y ->] Hl]. rsimpl.
      apply IH in Hl as [ys ->]. rsimpl. eauto.
Qed.

Lemma mapM_index_ok_iff {A B} (f : A -> nat -> result B) (P : A -> Prop) (l : list A) i :
  (forall x i, (exists y, f x i = Ok y) <-> P x) ->
  (exists l', mapM_index f i l = Ok l') <-> Forall P l.
Proof.
  intros Hf. revert i. induction l as [|x l IH]; intros i; cbn.
  - split; [constructor|eauto].
  - split.
    + intros [l' H]. destruct (f x i) as [y|] eqn:Hx; [|done]. rsimpl in H.
      destruct (mapM_index f (S i) l) as [ys|] eqn:Hl; [|done]. constructor.
      * apply (Hf x i). eauto.
      * apply (IH (S i)). eauto.
    + intros H. apply Forall_cons in H as [Hx Hl].
      apply (Hf x i) in Hx as [y ->]. rsimpl.
      apply (IH (S i)) in Hl as [ys ->]. rsimpl. eauto.
Qed.

Lemma normalizeModels_ok_iff (models : jsval) :
  (exists r, normalizeModels models = Ok r) <->
  (forall items, models = JArray items -> Forall (fun m => JS.nullish m = false) items).
Proof.
  destruct models as [| | | | |items|]; cbn; try (split; [by intros _ items [=]|eauto]).
  split.
  - intros [r H] items' [= <-].
    destruct (mapM_result normalizeModelStatus items) as [ms|] eqn:E; [|done].
    assert (Hall : Forall (fun x => exists y, normalizeModelStatus x = Ok y) items)
      by (apply mapM_result_ok_iff; eauto).
    eapply Forall_impl; [exact Hall|]. intros m. apply normalizeModelStatus_ok_iff.
  - intros H. specialize (H items eq_refl).
    assert (Hall : Forall (fun x => exists y, normalizeModelStatus x = Ok y) items).
    { eapply Forall_impl; [exact H|]. intros m. apply normalizeModelStatus_ok_iff. }
    apply mapM_result_ok_iff in Hall as [ms ->]. rsimpl. eauto.
Qed.

Lemma structured_flag (n : jsval) :
  exists b : bool,
    (if JS.truthy n && typeof_is n "object" then JS.has "descriptor" n else Ok false) = Ok b /\
    (b = true <-> structured n).
Proof.
  destruct n as [| |b|r|s|items|props];
    try (exists false; split; [by rewrite ?andb_false_r|];
         split; [done|by intros (? & ? & _)]).
  - exists false. split; [apply has_descriptor_array|]. split; [done|by intros (? & ? & _)].
  - eexists. split; [reflexivity|]. rewrite bool_decide_eq_true. split.
    + intros H. by exists props.
    + by intros (props' & [= <-] & H).
Qed.

Lemma Forall_not_nullish (items : list jsval) :
  Forall (fun m => JS.nullish m = false) items <->
  ~ Exists (fun m => JS.nullish m = true) items.
Proof.
  induction items as [|m items IH].
  - split; [by intros _ H%Exists_nil|constructor].
  - rewrite Forall_cons, Exists_cons, IH. destruct (JS.nullish m); intuition congruence.
Qed.

Lemma normalizeNeuron_ok_iff (n : jsval) (i : nat) :
  (exists r, normalizeNeuron n i = Ok r) <-> ~ poisoned n.
Proof.
  unfold normalizeNeuron. destruct (structured_flag n) as (b & -> & Hb). rsimpl.
  destruct b.
  - assert (Hs : structured n) by (by apply Hb).
    destruct Hs as (props & -> & Hdesc). rewrite !get_defined by done. rsimpl.
    assert (Heq : (exists r, normalizeModels (JS.prop (JObject props) "models") = Ok r) <->
                  ~ poisoned (JObject props)).
    { rewrite normalizeModels_ok_iff. unfold poisoned. split.
      - intros H (_ & items & Hm & Hex). by apply (Forall_not_nullish items); [apply H|].
      - intros H items Hm. apply Forall_not_nullish. intros Hex. apply H.
        split; [by exists props|eauto]. }
    rewrite <- Heq. split.
    + intros [r H]. destruct (normalizeModels _) as [ms|]; [eauto|done].
    + intros [ms ->]. rsimpl. eauto.
  - split; [intros _ [Hs _]; by apply Hb in Hs|intros _].
    destruct (and_get_total n "node_id") as [a Ha].
    destruct (and_get_total n "label") as [l Hl].
    destruct (and_get_total n "metadata") as [c Hc].
    rewrite Ha, Hl, Hc. rsimpl. destruct (JS.nullish l); rewrite ?Ha; rsimpl; eauto.
Qed.

(** A snapshot that normalizes has no poisoned neuron. *)
Lemma normalizeSnapshot_ok_clean (s t : jsval) (items : list jsval) :
  normalizeSnapshot s = Ok t ->
  JS.prop s "neurons" = JArray items ->
  Forall (fun n => ~ poisoned n) items.
Proof.
  unfold normalizeSnapshot, JS.get. intros H Hitems.
  destruct (JS.nullish s); [done|]. rsimpl in H. rewrite Hitems in H.
  destruct (mapM_index normalizeNeuron 0 items) as [rows|] eqn:E; [|done].
  apply (mapM_index_ok_iff normalizeNeuron (fun n => ~ poisoned n) items 0
           (fun x i => normalizeNeuron_ok_iff x i)).
  eauto.
Qed.

(** X2. [normalizeSnapshot] returns normally exactly when the snapshot is
    not [null] or [undefined] and no structured neuron of its [neurons]
    array carries a [null] entry in its [models] array; every other
    malformation (missing fields, wrong types, legacy entries of any
    shape) is absorbed by a default. *)
Theorem normalizeSnapshot_succeeds_iff (s : jsval) :
  (exists t, normalizeSnapshot s = Ok t) <->
  JS.nullish s = false /\
  forall items, JS.prop s "neurons" = JArray items -> Forall (fun n => ~ poisoned n) items.
Proof.
  split.
  - intros [t H]. split.
    + unfold normalizeSnapshot, JS.get in H. by destruct (JS.nullish s).
    + intros items Hitems. by apply (normalizeSnapshot_ok_clean s t).
  - intros [Hs H]. unfold normalizeSnapshot. rewrite get_defined by done. rsimpl.
    set (wire := match JS.prop s "neurons" with JArray items => items | _ => [] end).
    assert (Hwire : Forall (fun n => ~ poisoned n) wire).
    { subst wire. destruct (JS.prop s "neurons"); try constructor. by apply H. }
    apply (mapM_index_ok_iff normalizeNeuron (fun n => ~ poisoned n) wire 0
             (fun x i => normalizeNeuron_ok_iff x i)) in Hwire as [rows ->].
    rsimpl. eauto.
Qed.

(** A frame whose decoding or normalization throws is only reported. *)
Lemma thrown_frame_only_reports ws frame clock st m :
  wsRef st = Some ws ->
  (wire ← JSON_parse frame; normalizeMessage wire) = Throw m ->
  only_reports_error st (step (WsMessage ws frame clock) st).
Proof.
  intros Hws Hthrow. unfold step, handler.
  rewrite (onmessage_rejected ws frame clock st m Hws Hthrow).
  destruct (rerender_view (connectionStatus st)
              (set_lastError (Some ("Failed to parse message: " ++ m)) st) ws Hws)
    as (H1 & H2 & H3 & H4 & _).
  unfold only_reports_error. rewrite H1, H2, H3, H4. cbn. eauto.
Qed.

(** X3. One [null] entry in the [models] array of one neuron makes
    [onmessage] reject the whole snapshot frame: the previous table and
    the log are kept and only the error message is set. *)
Theorem poisoned_snapshot_rejected ws st wire items clock :
  wsRef st = Some ws ->
  JS.prop wire "kind" = JString "snapshot" ->
  JS.prop (JS.prop wire "snapshot") "neurons" = JArray items ->
  Exists poisoned items ->
  only_reports_error st (step (WsMessage ws (Decoded wire) clock) st).
Proof.
  intros Hws Hkind Hneurons Hpoisoned.
  assert (Hwire : JS.nullish wire = false) by (by destruct wire).
  assert (Hsnap : JS.nullish (JS.prop wire "snapshot") = false)
    by (by destruct (JS.prop wire "snapshot")).
  destruct (normalizeSnapshot (JS.prop wire "snapshot")) as [t|m] eqn:E.
  - exfalso.
    pose proof (normalizeSnapshot_ok_clean _ _ _ E Hneurons) as Hok.
    apply Exists_exists in Hpoisoned as (n & Hn & Hp).
    rewrite Forall_forall in Hok. by apply (Hok n).
  - apply (thrown_frame_only_reports ws _ clock st m Hws).
    cbn [JSON_parse]. rsimpl. unfold normalizeMessage.
    rewrite !get_defined by done. rsimpl. rewrite Hkind.
    cbn [JS.is_string String.eqb Ascii.eqb Bool.eqb]. by rewrite E.
Qed.

Lemma poisoned_snapshot_rejected_witness :
  only_reports_error one_neuron_state
    (step (WsMessage 0 (Decoded poisoned_frame) noon) one_neuron_state).
Proof.
  apply (poisoned_snapshot_rejected 0 one_neuron_state poisoned_frame
           [JObject [("descriptor", JObject [("node_id", JString "n9")]);
                     ("models", JArray [JNull])]] noon);
    [reflexivity..|].
  apply Exists_cons_hd. split.
  - eexists. split; [reflexivity|]. by eexists.
  - exists [JNull]. split; [reflexivity|]. by apply Exists_cons_hd.
Defined.

(** ** The rows of a normalized snapshot *)

Lemma mapM_index_lookup {A B} (f : A -> nat -> result B) l l' i :
  mapM_index f i l = Ok l' ->
  length l' = length l /\
  forall j x, l !! j = Some x -> exists y, l' !! j = Some y /\ f x (i + j) = Ok y.
Proof.
  revert l' i. induction l as [|x l IH]; intros l' i H; cbn in H.
  - inversion H. split; [done|]. by intros j x Hj.
  - destruct (f x i) as [y|] eqn:E; [|done]. rsimpl in H.
    destruct (mapM_index f (S i) l) as [ys|] eqn:El; [|done]. rsimpl in H.
    inversion H. subst l'. destruct (IH ys (S i) El) as [Hlen Hlook].
    split; [cbn; by rewrite Hlen|].
    intros [|j] x' Hj; cbn in Hj.
    + inversion Hj. subst x'. exists y. by rewrite Nat.add_0_r.
    + destruct (Hlook j x' Hj) as (y' & Hy' & Hf). exists y'. split; [done|].
      by rewrite Nat.add_succ_r.
Qed.

(** X4. A snapshot that normalizes keeps one row per entry of the wire's
    [neurons] array, in the same order: row [i] is the normalization of
    entry [i], numbered [i]; no entry is dropped, merged or moved, and
    entries naming the same neuron stay separate rows. *)
Theorem normalizeSnapshot_rows (s table : jsval) (items : list jsval) :
  normalizeSnapshot s = Ok table ->
  JS.prop s "neurons" = JArray items ->
  exists rows, table = table_of rows /\ length rows = length items /\
               forall i n, items !! i = Some n ->
                           exists r, rows !! i = Some r /\ normalizeNeuron n i = Ok r.
Proof.
  unfold normalizeSnapshot, JS.get. intros H Hitems.
  destruct (JS.nullish s); [done|]. rsimpl in H. rewrite Hitems in H.
  destruct (mapM_index normalizeNeuron 0 items) as [rows|] eqn:E; [|done].
  rsimpl in H. inversion H. exists rows. split; [done|].
  by destruct (mapM_index_lookup _ _ _ _ E) as [Hlen Hlook].
Qed.

Lemma normalizeSnapshot_rows_witness :
  exists rows,
    table_of [legacy_neuron "n1"; legacy_neuron "n1"] = table_of rows /\
    length rows = 2 /\
    forall i n,
      [JObject [("node_id", JString "n1")]; JObject [("node_id", JString "n1")]] !! i = Some n ->
      exists r, rows !! i = Some r /\ normalizeNeuron n i = Ok r.
Proof.
  exact (normalizeSnapshot_rows
           (JObject [("neurons", JArray [JObject [("node_id", JString "n1")];
                                         JObject [("node_id", JString "n1")]])])
           (table_of [legacy_neuron "n1"; legacy_neuron "n1"])
           [JObject [("node_id", JString "n1")]; JObject [("node_id", JString "n1")]]
           eq_refl eq_refl).
Defined.

Lemma coalesce_not_nullish (a b : jsval) :
  JS.nullish b = false -> JS.nullish (JS.coalesce a b) = false.
Proof. intros H. unfold JS.coalesce. by destruct (JS.nullish a) eqn:E. Qed.

Lemma coalesce_defined (a b : jsval) : b <> JUndefined -> JS.coalesce a b <> JUndefined.
Proof. intros H. by destruct a. Qed.

Lemma and_get_member (n : jsval) (k : string) : and_get n k = Ok (wire_member n k).
Proof.
  unfold and_get, wire_member. destruct (JS.truthy n) eqn:E; [by rewrite get_truthy|done].
Qed.

(** X5. An entry of [neurons] that is not an object with a [descriptor]
    is promoted to a row of an unknown, online neuron without models and
    without a heartbeat.  Its descriptor takes the wire's [node_id], or
    [null]; the wire's metadata, or an empty object; and for label the
    wire's label, else the wire's [node_id], else ["Neuron #k"] with [k]
    the position in the array counted from one.  So the label is never
    [null], the [node_id] never [undefined], the metadata never [null],
    and the list shows the row under that label. *)
Theorem legacy_neuron_promoted (n : jsval) (i : nat) :
  ~ structured n ->
  let fallback := JString ("Neuron #" ++ JS.decimal (i + 1)) in
  let node_id := JS.coalesce (wire_member n "node_id") JNull in
  let label := JS.coalesce (JS.coalesce (wire_member n "label") (wire_member n "node_id"))
                 fallback in
  let metadata := JS.coalesce (wire_member n "metadata") (JObject []) in
  let row := neuron_row (JObject [("node_id", node_id); ("label", label);
                                  ("metadata", metadata)])
               JNull (JString "unknown") false [] in
  normalizeNeuron n i = Ok row /\
  JS.nullish label = false /\
  JS.nullish metadata = false /\
  node_id <> JUndefined /\
  (JS.truthy n = true ->
   (JS.nullish (JS.prop n "label") = false -> label = JS.prop n "label") /\
   (JS.nullish (JS.prop n "label") = true -> JS.nullish (JS.prop n "node_id") = false ->
    label = JS.prop n "node_id") /\
   (JS.nullish (JS.prop n "node_id") = false -> node_id = JS.prop n "node_id") /\
   (JS.nullish (JS.prop n "node_id") = true -> node_id = JNull) /\
   (JS.nullish (JS.prop n "metadata") = false -> metadata = JS.prop n "metadata") /\
   (JS.nullish (JS.prop n "metadata") = true -> metadata = JObject [])) /\
  (JS.nullish n = true \/ JS.truthy n = true ->
   JS.nullish (JS.prop n "label") = true ->
   JS.nullish (JS.prop n "node_id") = true ->
   label = fallback) /\
  row_label row i = Ok label.
Proof.
  intros Hlegacy. cbn zeta.
  set (fallback := JString ("Neuron #" ++ JS.decimal (i + 1))).
  set (a := wire_member n "node_id"). set (l := wire_member n "label").
  set (c := wire_member n "metadata").
  assert (Hlabel : JS.nullish (JS.coalesce (JS.coalesce l a) fallback) = false)
    by (by apply coalesce_not_nullish).
  split.
  { unfold normalizeNeuron. destruct (structured_flag n) as (b & -> & Hb). rsimpl.
    destruct b; [by destruct Hlegacy; apply Hb|].
    rewrite !and_get_member. rsimpl. fold a l c.
    assert ((if JS.nullish l then Ok a else Ok l) = Ok (JS.coalesce l a)) as ->
      by (unfold JS.coalesce; by destruct (JS.nullish l)).
    by rsimpl. }
  split; [done|]. split; [by apply coalesce_not_nullish|].
  split; [by apply coalesce_defined|]. split; [|split].
  - intros Ht. subst a l c. unfold wire_member. rewrite Ht. unfold JS.coalesce.
    repeat split.
    + intros H1. rewrite H1. cbv iota. by rewrite H1.
    + intros H1 H2. rewrite H1. cbv iota. by rewrite H2.
    + by intros ->.
    + by intros ->.
    + by intros ->.
    + by intros ->.
  - intros Hn Hnl Hni.
    assert (JS.nullish a = true /\ JS.nullish l = true) as [Hna Hnl'].
    { subst a l. unfold wire_member. destruct Hn as [Hn|Hn].
      - assert (JS.truthy n = false) as -> by (by destruct n). done.
      - by rewrite Hn. }
    unfold JS.coalesce. by rewrite Hnl', Hna.
  - unfold row_label, neuron_row. rewrite !get_defined by done. rsimpl.
    change (JS.prop (JObject _) "descriptor") with
      (JObject [("node_id", JS.coalesce a JNull);
                ("label", JS.coalesce (JS.coalesce l a) fallback);
                ("metadata", JS.coalesce c (JObject []))]).
    rewrite !get_defined by done. rsimpl.
    change (JS.prop (JObject _) "label") with (JS.coalesce (JS.coalesce l a) fallback).
    by rewrite Hlabel.
Qed.

Lemma legacy_neuron_promoted_witness :
  normalizeNeuron unlabelled_descriptor 2
  = Ok (neuron_row (JObject [("node_id", JNull); ("label", JString "Neuron #3");
                             ("metadata", JObject [("backend", JString "vllm")])])
          JNull (JString "unknown") false []) /\
  normalizeNeuron (JObject [("node_id", JString "n1"); ("label", JNull)]) 0
  = Ok (neuron_row (JObject [("node_id", JString "n1"); ("label", JString "n1");
                             ("metadata", JObject [])])
          JNull (JString "unknown") false []) /\
  row_label (neuron_row (JObject [("node_id", JNull); ("label", JString "Neuron #3");
                                  ("metadata", JObject [("backend", JString "vllm")])])
               JNull (JString "unknown") false []) 2
  = Ok (JString "Neuron #3").
Proof.
  assert (H1 : ~ structured unlabelled_descriptor).
  { intros (props & Heq & Hdesc). inversion Heq. subst props. by destruct Hdesc as [v Hv]. }
  assert (H2 : ~ structured (JObject [("node_id", JString "n1"); ("label", JNull)])).
  { intros (props & Heq & Hdesc). inversion Heq. subst props. by destruct Hdesc as [v Hv]. }
  destruct (legacy_neuron_promoted unlabelled_descriptor 2 H1) as (Hrow & _ & _ & _ & _ & _ & Hl).
  destruct (legacy_neuron_promoted (JObject [("node_id", JString "n1"); ("label", JNull)]) 0 H2)
    as (Hrow' & _).
  split; [exact Hrow|]. split; [exact Hrow'|exact Hl].
Defined.

(** ** Frames that are only logged *)

Lemma prop_type_object (e : jsval) (t : string) :
  JS.prop e "type" = JString t -> exists props, e = JObject props.
Proof.
  destruct e as [| |b|r|s|items|props]; try done; [|by eexists].
  cbn -[JS.array_index].
  by rewrite (array_index_name "type" _ _ _ eq_refl) by (vm_compute; lia).
Qed.

Lemma prop_defined (v : jsval) (k : string) :
  JS.prop v k <> JUndefined -> JS.nullish v = false.
Proof. by destruct v. Qed.

(** A frame whose normalized form asks nothing of the reconciler is
    logged and changes nothing else. *)
Lemma step_logged_only ws wire clock st data item :
  wsRef st = Some ws ->
  normalizeMessage wire = Ok data ->
  log_item (nextEventIdRef st) clock data = Ok item ->
  (forall st0, apply_message data clock st0 = Ok st0) ->
  let st' := step (WsMessage ws (Decoded wire) clock) st in
  snapshot st' = snapshot st /\
  events st' = slice_last 300 (events st ++ [item]) /\
  connectionStatus st' = connectionStatus st /\
  lastError st' = lastError st /\
  shutdownState st' = shutdownState st /\
  nextEventIdRef st' = nextEventIdRef st + 1.
Proof.
  intros Hws Hdata Hitem Happly. cbn zeta. unfold step, handler.
  rewrite (onmessage_processed ws wire clock st data item Hws Hdata Hitem), Happly.
  match goal with
  | |- context [rerender ?r ?s] =>
      destruct (rerender_view r s ws Hws) as (-> & -> & -> & -> & -> & _ & -> & _)
  end.
  done.
Qed.

Lemma unknown_type_eqb (t k : string) :
  t ∉ known_event_types -> k ∈ known_event_types -> String.eqb t k = false.
Proof. intros Hnot Hin. apply String.eqb_neq. by intros ->. Qed.

(** X6. An event of a type the dashboard does not know (one a newer
    cortex may add) is not an error: [normalizeMessage] returns the frame
    untouched, the frame is logged under its own type and described as
    ["event"], and the table, the connection status, the error message
    and the shutdown state stay as they were. *)
Theorem unknown_event_only_logged ws st wire t clock :
  wsRef st = Some ws ->
  JS.prop wire "kind" <> JString "snapshot" ->
  JS.prop (JS.prop wire "event") "type" = JString t ->
  t ∉ known_event_types ->
  let st' := step (WsMessage ws (Decoded wire) clock) st in
  normalizeMessage wire = Ok wire /\
  describeEvent wire = Ok "event" /\
  events st' = slice_last 300
                 (events st ++ [{| id := nextEventIdRef st; receivedAt := timeOfDay clock;
                                   kind := JS.prop wire "kind"; eventType := JString t;
                                   payload := wire |}]) /\
  snapshot st' = snapshot st /\
  connectionStatus st' = connectionStatus st /\
  lastError st' = lastError st /\
  shutdownState st' = shutdownState st.
Proof.
  intros Hws Hkind Htype Hnew. cbn zeta.
  destruct (prop_type_object _ _ Htype) as [props He].
  assert (Hwire : JS.nullish wire = false) by (apply (prop_defined wire "event"); by rewrite He).
  assert (Heqb : forall k, k ∈ known_event_types -> String.eqb t k = false)
    by (intros k; by apply unknown_type_eqb).
  assert (Hnorm : normalizeMessage wire = Ok wire).
  { unfold normalizeMessage. rewrite !get_defined by done. rsimpl.
    rewrite (is_string_false _ _ Hkind), He. cbn [JS.truthy typeof_is JS.typeof String.eqb
      Ascii.eqb Bool.eqb negb orb].
    rewrite get_defined by done. rsimpl. rewrite <- He, Htype.
    unfold normalizeEvent. by rewrite !Heqb by (unfold known_event_types; set_solver). }
  assert (Hdescribe : describeEvent wire = Ok "event").
  { unfold describeEvent. rewrite !get_defined by done. rsimpl.
    rewrite (is_string_false _ _ Hkind), He. rewrite get_defined by done. rsimpl.
    rewrite <- He, Htype. unfold describe_event. cbn [JS.is_string].
    by rewrite !Heqb by (unfold known_event_types; set_solver). }
  assert (Hitem : log_item (nextEventIdRef st) clock wire
                  = Ok {| id := nextEventIdRef st; receivedAt := timeOfDay clock;
                          kind := JS.prop wire "kind"; eventType := JString t;
                          payload := wire |}).
  { unfold log_item, item_tags. rewrite !get_defined by done. rsimpl.
    rewrite (is_string_false _ _ Hkind), He. rewrite get_defined by done. rsimpl.
    by rewrite <- He, Htype. }
  assert (Happly : forall st0, apply_message wire clock st0 = Ok st0).
  { intros st0. unfold apply_message. rewrite !get_defined by done. rsimpl.
    rewrite (is_string_false _ _ Hkind), He. rewrite !get_defined by done. rsimpl.
    rewrite <- He, Htype. cbn [JS.is_string].
    by rewrite !Heqb by (unfold known_event_types; set_solver). }
  destruct (step_logged_only ws wire clock st wire _ Hws Hnorm Hitem Happly)
    as (H1 & H2 & H3 & H4 & H5 & _).
  by repeat split.
Qed.

Lemma unknown_event_only_logged_witness :
  normalizeMessage future_frame = Ok future_frame /\
  describeEvent future_frame = Ok "event" /\
  events (step (WsMessage 0 (Decoded future_frame) noon) one_neuron_state)
  = slice_last 300
      (events one_neuron_state ++
       [{| id := nextEventIdRef one_neuron_state; receivedAt := timeOfDay noon;
           kind := JS.prop future_frame "kind";
           eventType := JString "neuron_drained";
           payload := future_frame |}]) /\
  snapshot (step (WsMessage 0 (Decoded future_frame) noon) one_neuron_state)
  = snapshot one_neuron_state /\
  connectionStatus (step (WsMessage 0 (Decoded future_frame) noon) one_neuron_state)
  = connectionStatus one_neuron_state /\
  lastError (step (WsMessage 0 (Decoded future_frame) noon) one_neuron_state)
  = lastError one_neuron_state /\
  shutdownState (step (WsMessage 0 (Decoded future_frame) noon) one_neuron_state)
  = shutdownState one_neuron_state.
Proof.
  apply (unknown_event_only_logged 0 one_neuron_state future_frame "neuron_drained" noon);
    [reflexivity|discriminate|reflexivity|].
  unfold known_event_types. intros H. repeat (apply elem_of_cons in H as [H|H]; [discriminate|]).
  by apply elem_of_nil in H.
Defined.

(** X7. A decoded frame that is not a snapshot and has no [event] member
    passes [normalizeMessage] and takes the next event id before the log
    entry fails to build: the id is consumed although nothing is logged,
    so the ids in the log skip it.  A frame that does not parse takes no
    id. *)
Theorem unloggable_frame_consumes_id ws st wire clock :
  wsRef st = Some ws ->
  JS.nullish wire = false ->
  JS.prop wire "kind" <> JString "snapshot" ->
  JS.nullish (JS.prop wire "event") = true ->
  let st' := step (WsMessage ws (Decoded wire) clock) st in
  nextEventIdRef st' = nextEventIdRef st + 1 /\
  events st' = events st /\
  snapshot st' = snapshot st /\
  is_Some (lastError st') /\
  forall m, nextEventIdRef (step (WsMessage ws (Undecodable m) clock) st) = nextEventIdRef st.
Proof.
  intros Hws Hwire Hkind Hevent. cbn zeta.
  assert (Htruthy : JS.truthy (JS.prop wire "event") = false)
    by (by destruct (JS.prop wire "event")).
  assert (Hnorm : normalizeMessage wire = Ok wire).
  { unfold normalizeMessage. rewrite !get_defined by done. rsimpl.
    by rewrite (is_string_false _ _ Hkind), Htruthy. }
  assert (exists m, log_item (nextEventIdRef st) clock wire = Throw m) as [m Hitem].
  { unfold log_item, item_tags. rewrite !get_defined by done. rsimpl.
    rewrite (is_string_false _ _ Hkind). unfold JS.get at 1. rewrite Hevent. rsimpl. eauto. }
  repeat split.
  - unfold step, handler.
    rewrite (onmessage_unloggable ws (Decoded wire) clock st wire m Hws Hnorm Hitem).
    match goal with
    | |- context [rerender ?r ?s] =>
        destruct (rerender_view r s ws Hws) as (_ & _ & _ & _ & _ & _ & -> & _)
    end.
    done.
  - unfold step, handler.
    rewrite (onmessage_unloggable ws (Decoded wire) clock st wire m Hws Hnorm Hitem).
    match goal with
    | |- context [rerender ?r ?s] =>
        destruct (rerender_view r s ws Hws) as (_ & _ & _ & -> & _)
    end.
    done.
  - unfold step, handler.
    rewrite (onmessage_unloggable ws (Decoded wire) clock st wire m Hws Hnorm Hitem).
    match goal with
    | |- context [rerender ?r ?s] =>
        destruct (rerender_view r s ws Hws) as (_ & _ & -> & _)
    end.
    done.
  - unfold step, handler.
    rewrite (onmessage_unloggable ws (Decoded wire) clock st wire m Hws Hnorm Hitem).
    match goal with
    | |- context [rerender ?r ?s] =>
        destruct (rerender_view r s ws Hws) as (_ & -> & _)
    end.
    by eexists.
  - intros m'. unfold step, handler.
    rewrite (onmessage_rejected ws (Undecodable m') clock st m' Hws eq_refl).
    match goal with
    | |- context [rerender ?r ?s] =>
        destruct (rerender_view r s ws Hws) as (_ & _ & _ & _ & _ & _ & -> & _)
    end.
    done.
Qed.

Lemma unloggable_frame_consumes_id_witness :
  nextEventIdRef (step (WsMessage 0 (Decoded (JObject [("kind", JString "ping")])) noon)
                       one_neuron_state)
  = nextEventIdRef one_neuron_state + 1 /\
  events (step (WsMessage 0 (Decoded (JObject [("kind", JString "ping")])) noon)
               one_neuron_state)
  = events one_neuron_state /\
  snapshot (step (WsMessage 0 (Decoded (JObject [("kind", JString "ping")])) noon)
                 one_neuron_state)
  = snapshot one_neuron_state /\
  is_Some (lastError (step (WsMessage 0 (Decoded (JObject [("kind", JString "ping")])) noon)
                           one_neuron_state)) /\
  forall m, nextEventIdRef (step (WsMessage 0 (Undecodable m) noon) one_neuron_state)
            = nextEventIdRef one_neuron_state.
Proof.
  apply (unloggable_frame_consumes_id 0 one_neuron_state (JObject [("kind", JString "ping")])
           noon);
    [reflexivity|reflexivity|discriminate|reflexivity].
Defined.

(** ** The table as a function of the frames *)

Lemma bump_pulse_view (k : jsval) (st : State) :
  snapshot (bump_pulse k st) = snapshot st /\
  connectionStatus (bump_pulse k st) = connectionStatus st /\
  lastError (bump_pulse k st) = lastError st /\
  events (bump_pulse k st) = events st /\
  shutdownState (bump_pulse k st) = shutdownState st /\
  wsRef (bump_pulse k st) = wsRef st /\
  pollingTimerRef (bump_pulse k st) = pollingTimerRef st.
Proof. unfold bump_pulse. by destruct (JS.toString k). Qed.

Lemma update_snapshot_view (f : jsval -> result jsval) (st : State) :
  connectionStatus (update_snapshot f st) = connectionStatus st /\
  lastError (update_snapshot f st) = lastError st /\
  events (update_snapshot f st) = events st /\
  shutdownState (update_snapshot f st) = shutdownState st /\
  wsRef (update_snapshot f st) = wsRef st /\
  pollingTimerRef (update_snapshot f st) = pollingTimerRef st /\
  heartbeatAnimIds (update_snapshot f st) = heartbeatAnimIds st /\
  timeouts (update_snapshot f st) = timeouts st /\
  nextTimerId (update_snapshot f st) = nextTimerId st.
Proof. unfold update_snapshot. by destruct (f (snapshot st)). Qed.

Lemma update_snapshot_congr (f : jsval -> result jsval) (st1 st2 : State) :
  snapshot st1 = snapshot st2 ->
  snapshot (update_snapshot f st1) = snapshot (update_snapshot f st2).
Proof. intros H. unfold update_snapshot. rewrite H. by destruct (f (snapshot st2)). Qed.

(** Whether the reconciler accepts a message depends on the message
    alone, and the table it leaves on the message and the table. *)
Lemma apply_message_table_congr data clock st1 st2 :
  snapshot st1 = snapshot st2 ->
  match apply_message data clock st1, apply_message data clock st2 with
  | Ok a, Ok b => snapshot a = snapshot b
  | Throw m1, Throw m2 => m1 = m2
  | _, _ => False
  end.
Proof.
  intros H. unfold apply_message.
  destruct (JS.get data "kind") as [k|]; [|done]. rsimpl.
  destruct (JS.is_string k "snapshot").
  { by destruct (JS.get data "snapshot"). }
  destruct (JS.get data "event") as [e|]; [|done]. rsimpl.
  destruct (JS.get e "type") as [t|]; [|done]. rsimpl.
  destruct (JS.is_string t "neuron_heartbeat").
  { destruct (JS.get e "neuron_id") as [nid|]; [|done]. rsimpl.
    destruct (bump_pulse_view nid
                (update_snapshot (heartbeat_snapshot nid (nowIso clock)) st1)) as (-> & _).
    destruct (bump_pulse_view nid
                (update_snapshot (heartbeat_snapshot nid (nowIso clock)) st2)) as (-> & _).
    by apply update_snapshot_congr. }
  destruct (JS.is_string t "cortex_shutdown_notice"); [|done].
  destruct (JS.get e "reason") as [reason|]; [|done]. rsimpl.
  match goal with
  | |- snapshot (scheduleReconnectPoll ?a) = snapshot (scheduleReconnectPoll ?b) =>
      destruct (scheduleReconnectPoll_view a) as (_ & _ & -> & _);
      destruct (scheduleReconnectPoll_view b) as (_ & _ & -> & _)
  end.
  done.
Qed.

Lemma onmessage_table_congr ws frame clock st1 st2 :
  wsRef st1 = Some ws -> wsRef st2 = Some ws ->
  snapshot st1 = snapshot st2 ->
  snapshot (onmessage ws frame clock st1) = snapshot (onmessage ws frame clock st2).
Proof.
  intros H1 H2 Hs. unfold onmessage, try_message.
  rewrite !is_current_true by done. cbn [negb].
  destruct (_ ≫= _) as [data|]; [|done].
  unfold log_item. destruct (item_tags data) as [tags|]; rsimpl; [|done].
  match goal with
  | |- context [apply_message data clock ?a] =>
      match goal with
      | |- context [apply_message data clock ?b] =>
          lazymatch b with
          | a => fail
          | _ => pose proof (apply_message_table_congr data clock a b Hs) as Hc
          end
      end
  end.
  by repeat destruct (apply_message _ _ _).
Qed.

Lemma step_message_table_congr ws frame clock st1 st2 :
  wsRef st1 = Some ws -> wsRef st2 = Some ws ->
  snapshot st1 = snapshot st2 ->
  snapshot (step (WsMessage ws frame clock) st1) = snapshot (step (WsMessage ws frame clock) st2).
Proof.
  intros H1 H2 Hs. unfold step, handler.
  assert (Hw1 : wsRef (onmessage ws frame clock st1) = Some ws) by (by rewrite onmessage_wsRef).
  assert (Hw2 : wsRef (onmessage ws frame clock st2) = Some ws) by (by rewrite onmessage_wsRef).
  destruct (rerender_view (connectionStatus st1) _ ws Hw1) as (_ & _ & -> & _).
  destruct (rerender_view (connectionStatus st2) _ ws Hw2) as (_ & _ & -> & _).
  by apply onmessage_table_congr.
Qed.

Lemma run_messages_table_congr ws arrivals st1 st2 :
  wsRef st1 = Some ws -> wsRef st2 = Some ws ->
  snapshot st1 = snapshot st2 ->
  snapshot (run (messages ws arrivals) st1) = snapshot (run (messages ws arrivals) st2).
Proof.
  revert st1 st2. induction arrivals as [|[frame clock] rest IH]; intros st1 st2 H1 H2 Hs.
  - done.
  - change (messages ws ((frame, clock) :: rest))
      with (WsMessage ws frame clock :: messages ws rest).
    rewrite !run_cons. apply IH.
    + by apply step_keeps_socket.
    + by apply step_keeps_socket.
    + by apply step_message_table_congr.
Qed.

(** X8. The table is a function of the last snapshot and the frames
    after it: once a snapshot frame is processed, the table shown after
    any further frames on the socket is the same whatever table, log,
    errors, pulses or timers the component held before the snapshot. *)
Theorem table_determined_by_last_snapshot ws st1 st2 wire table clock arrivals :
  wsRef st1 = Some ws ->
  wsRef st2 = Some ws ->
  normalizeMessage wire = Ok (snapshot_message table) ->
  snapshot (run (WsMessage ws (Decoded wire) clock :: messages ws arrivals) st1)
  = snapshot (run (WsMessage ws (Decoded wire) clock :: messages ws arrivals) st2).
Proof.
  intros H1 H2 Hdata. rewrite !run_cons. apply run_messages_table_congr.
  - by apply step_keeps_socket.
  - by apply step_keeps_socket.
  - destruct (step_snapshot ws wire clock st1 table H1 Hdata) as (-> & _).
    by destruct (step_snapshot ws wire clock st2 table H2 Hdata) as (-> & _).
Qed.

Lemma table_determined_by_last_snapshot_witness :
  snapshot (run (WsMessage 0 (Decoded snapshot_frame) noon
                 :: messages 0 [(Decoded heartbeat_by_label, noon)]) one_neuron_state)
  = snapshot (run (WsMessage 0 (Decoded snapshot_frame) noon
                   :: messages 0 [(Decoded heartbeat_by_label, noon)]) two_neuron_state).
Proof.
  apply (table_determined_by_last_snapshot 0 one_neuron_state two_neuron_state snapshot_frame
           (table_of [labelled_neuron]) noon [(Decoded heartbeat_by_label, noon)]);
    reflexivity.
Defined.

(** ** Heartbeats and pulses *)

(** A heartbeat frame on the current socket: the entry is logged, the
    table updated, the pulse bumped; the status does not change, so no
    effect runs. *)
Lemma step_heartbeat ws wire clock st nid metrics :
  wsRef st = Some ws ->
  normalizeMessage wire = Ok (event_message (neuron_heartbeat nid metrics)) ->
  step (WsMessage ws (Decoded wire) clock) st
  = bump_pulse (JString nid)
      (update_snapshot (heartbeat_snapshot (JString nid) (nowIso clock))
         (logged (event_item (nextEventIdRef st) clock (neuron_heartbeat nid metrics)) st)).
Proof.
  intros Hws Hdata. unfold step, handler.
  rewrite (onmessage_processed ws wire clock st _
             (event_item (nextEventIdRef st) clock (neuron_heartbeat nid metrics))
             Hws Hdata) by reflexivity.
  change (apply_message _ clock ?s)
    with (Ok (bump_pulse (JString nid)
                (update_snapshot (heartbeat_snapshot (JString nid) (nowIso clock)) s))).
  cbv beta iota. unfold rerender.
  destruct (bump_pulse_view (JString nid)
              (update_snapshot (heartbeat_snapshot (JString nid) (nowIso clock))
                 (logged (event_item (nextEventIdRef st) clock (neuron_heartbeat nid metrics))
                    st))) as (_ & Hstatus & _).
  destruct (update_snapshot_view (heartbeat_snapshot (JString nid) (nowIso clock))
              (logged (event_item (nextEventIdRef st) clock (neuron_heartbeat nid metrics))
                 st)) as (Hstatus' & _).
  rewrite decide_True; [done|]. by rewrite Hstatus, Hstatus'.
Qed.

Lemma step_heartbeat_pulse ws wire clock st nid metrics :
  wsRef st = Some ws ->
  normalizeMessage wire = Ok (event_message (neuron_heartbeat nid metrics)) ->
  let st' := step (WsMessage ws (Decoded wire) clock) st in
  let nextId := default 0 (heartbeatAnimIds st !! nid) + 1 in
  heartbeatAnimIds st' = <[nid := nextId]> (heartbeatAnimIds st) /\
  timeouts st' = (timeouts st ++ [pulse_timer (nextTimerId st) nid nextId])%list /\
  nextTimerId st' = S (nextTimerId st) /\
  wsRef st' = Some ws /\
  connectionStatus st' = connectionStatus st.
Proof.
  intros Hws Hdata. cbn zeta. rewrite (step_heartbeat ws wire clock st nid metrics Hws Hdata).
  unfold bump_pulse. cbn [JS.toString].
  destruct (update_snapshot_view (heartbeat_snapshot (JString nid) (nowIso clock))
              (logged (event_item (nextEventIdRef st) clock (neuron_heartbeat nid metrics))
                 st)) as (H1 & _ & _ & _ & H5 & _ & H7 & H8 & H9).
  cbn. rewrite H1, H5, H7, H8, H9. by cbn.
Qed.

(** X9. A heartbeat that arrives while no table is held (before the
    first snapshot, or after [open] cleared it) creates none: the table
    stays [null], the event is logged, and no error is raised. *)
Theorem heartbeat_without_table ws st wire clock nid metrics :
  wsRef st = Some ws ->
  normalizeMessage wire = Ok (event_message (neuron_heartbeat nid metrics)) ->
  snapshot st = JNull ->
  let st' := step (WsMessage ws (Decoded wire) clock) st in
  snapshot st' = JNull /\
  events st' = slice_last 300
                 (events st ++ [event_item (nextEventIdRef st) clock
                                  (neuron_heartbeat nid metrics)]) /\
  lastError st' = lastError st /\
  renderError st' = renderError st /\
  connectionStatus st' = connectionStatus st.
Proof.
  intros Hws Hdata Hnull. cbn zeta.
  rewrite (step_heartbeat ws wire clock st nid metrics Hws Hdata).
  unfold bump_pulse. cbn [JS.toString]. unfold update_snapshot, heartbeat_snapshot.
  cbn. by rewrite Hnull.
Qed.

Lemma heartbeat_without_table_witness :
  snapshot (step (WsMessage 0 (Decoded heartbeat_n1) noon) (onopen 0 one_neuron_state)) = JNull /\
  events (step (WsMessage 0 (Decoded heartbeat_n1) noon) (onopen 0 one_neuron_state))
  = slice_last 300
      (events (onopen 0 one_neuron_state) ++
       [event_item (nextEventIdRef (onopen 0 one_neuron_state)) noon
          (neuron_heartbeat "n1" (JObject []))]) /\
  lastError (step (WsMessage 0 (Decoded heartbeat_n1) noon) (onopen 0 one_neuron_state))
  = lastError (onopen 0 one_neuron_state) /\
  renderError (step (WsMessage 0 (Decoded heartbeat_n1) noon) (onopen 0 one_neuron_state))
  = renderError (onopen 0 one_neuron_state) /\
  connectionStatus (step (WsMessage 0 (Decoded heartbeat_n1) noon) (onopen 0 one_neuron_state))
  = connectionStatus (onopen 0 one_neuron_state).
Proof.
  apply (heartbeat_without_table 0 (onopen 0 one_neuron_state) heartbeat_n1 noon "n1"
           (JObject [])); reflexivity.
Defined.

Lemma find_timer (tid : nat) (t : Timeout) (before after : list Timeout) :
  timer_id t = tid ->
  Forall (fun t' => timer_id t' <> tid) before ->
  find (fun t' => bool_decide (timer_id t' = tid)) (before ++ t :: after)%list = Some t.
Proof.
  intros Ht Hbefore. induction Hbefore as [|t' before Hne _ IH]; cbn.
  - by rewrite bool_decide_eq_true_2.
  - by rewrite bool_decide_eq_false_2.
Qed.

Lemma filter_all {A : Type} (P : A -> Prop) `{!forall x, Decision (P x)} (l : list A) :
  Forall P l -> filter P l = l.
Proof.
  induction 1 as [|x l Hx _ IH]; [done|]. by rewrite filter_cons_True, IH.
Qed.

Lemma filter_timer (tid : nat) (t : Timeout) (before after : list Timeout) :
  timer_id t = tid ->
  Forall (fun t' => timer_id t' <> tid) before ->
  Forall (fun t' => timer_id t' <> tid) after ->
  filter (fun t' => timer_id t' ≠ tid) (before ++ t :: after)%list = (before ++ after)%list.
Proof.
  intros Ht Hbefore Hafter. rewrite filter_app, filter_cons_False by (by intros ?).
  f_equal; by apply filter_all.
Qed.

Lemma pulse_expired_stale (k : string) (q : nat) (st : State) :
  heartbeatAnimIds st !! k <> Some q -> pulse_expired k q st = st.
Proof. intros H. unfold pulse_expired. by rewrite decide_False. Qed.

(** Firing the expiry timer of a pulse. *)
Lemma step_pulse_timer st tid k q before after :
  timeouts st = (before ++ pulse_timer tid k q :: after)%list ->
  Forall (fun t => timer_id t <> tid) before ->
  Forall (fun t => timer_id t <> tid) after ->
  step (TimerFired tid) st = pulse_expired k q (set_timeouts (before ++ after)%list st).
Proof.
  intros Htimers Hbefore Hafter. unfold step, handler, fire_timer, clearTimeout.
  rewrite Htimers, (find_timer tid (pulse_timer tid k q) before after eq_refl Hbefore).
  rewrite (filter_timer tid (pulse_timer tid k q) before after eq_refl Hbefore Hafter).
  cbn [callback pulse_timer]. unfold rerender.
  rewrite decide_True; [done|]. unfold pulse_expired. by destruct (decide _).
Qed.

Lemma fresh_ne (st : State) (tid : nat) :
  timers_fresh st -> nextTimerId st <= tid ->
  Forall (fun t => timer_id t <> tid) (timeouts st).
Proof. intros H Hle. eapply Forall_impl; [exact H|]. cbn. intros t Ht. lia. Qed.

(** The key [isNeuronBeating] looks up: the descriptor's [node_id], or
    its [label] when the [node_id] is [null] or missing. *)
Lemma isNeuronBeating_node_id (s : State) (d : jsval) (a : string) :
  JS.prop d "node_id" = JString a -> a <> "" ->
  isNeuronBeating s d
  = Ok (match heartbeatAnimIds s !! a with
        | Some pulse => negb (Nat.eqb pulse 0)
        | None => inherited_name a
        end).
Proof.
  intros Hd Ha. unfold isNeuronBeating.
  assert (Htruthy : JS.truthy d = true) by (by destruct d).
  rewrite Htruthy. cbn [negb]. rewrite !get_truthy by done.
  rsimpl. rewrite Hd. cbn [JS.nullish]. rsimpl.
  change (JS.truthy (JString a)) with (negb (String.eqb a "")).
  assert (String.eqb a "" = false) as -> by (by apply String.eqb_neq).
  cbn [negb JS.toString]. by rsimpl.
Qed.

Lemma isNeuronBeating_label (s : State) (d : jsval) (a : string) :
  JS.nullish (JS.prop d "node_id") = true ->
  JS.prop d "label" = JString a -> a <> "" ->
  isNeuronBeating s d
  = Ok (match heartbeatAnimIds s !! a with
        | Some pulse => negb (Nat.eqb pulse 0)
        | None => inherited_name a
        end).
Proof.
  intros Hn Hd Ha. unfold isNeuronBeating.
  assert (Htruthy : JS.truthy d = true) by (by destruct d).
  rewrite Htruthy. cbn [negb]. rewrite !get_truthy by done.
  rsimpl. rewrite Hn. rsimpl. rewrite Hd.
  change (JS.truthy (JString a)) with (negb (String.eqb a "")).
  assert (String.eqb a "" = false) as -> by (by apply String.eqb_neq).
  cbn [negb JS.toString]. by rsimpl.
Qed.

Lemma isNeuronBeating_unnamed (s : State) (d : jsval) :
  JS.prop d "node_id" = JString "" -> isNeuronBeating s d = Ok false.
Proof.
  intros Hd. unfold isNeuronBeating.
  assert (Htruthy : JS.truthy d = true) by (by destruct d).
  rewrite Htruthy. cbn [negb]. rewrite !get_truthy by done.
  rsimpl. by rewrite Hd.
Qed.

(** X10. A heartbeat lights the icon of the rows keyed by its neuron id,
    and a second heartbeat for the same id renews the pulse: the expiry
    timer of the first heartbeat then fires without effect, and only the
    timer of the latest heartbeat puts the icon out, in whichever order
    the two timers fire. *)
Theorem renewed_pulse_outlives_first_timer ws st w1 w2 c1 c2 nid m1 m2 d :
  wsRef st = Some ws ->
  normalizeMessage w1 = Ok (event_message (neuron_heartbeat nid m1)) ->
  normalizeMessage w2 = Ok (event_message (neuron_heartbeat nid m2)) ->
  timers_fresh st ->
  JS.prop d "node_id" = JString nid ->
  nid <> "" ->
  inherited_name nid = false ->
  let beats := run [WsMessage ws (Decoded w1) c1; WsMessage ws (Decoded w2) c2] st in
  let first := nextTimerId st in
  isNeuronBeating beats d = Ok true /\
  isNeuronBeating (step (TimerFired first) beats) d = Ok true /\
  isNeuronBeating (step (TimerFired (S first)) (step (TimerFired first) beats)) d = Ok false /\
  isNeuronBeating (step (TimerFired (S first)) beats) d = Ok false /\
  isNeuronBeating (step (TimerFired first) (step (TimerFired (S first)) beats)) d = Ok false.
Proof.
  intros Hws Hw1 Hw2 Hfresh Hd Hnid Hown. cbn zeta.
  change (run [WsMessage ws (Decoded w1) c1; WsMessage ws (Decoded w2) c2] st)
    with (step (WsMessage ws (Decoded w2) c2) (step (WsMessage ws (Decoded w1) c1) st)).
  destruct (step_heartbeat_pulse ws w1 c1 st nid m1 Hws Hw1) as (Hp1 & Ht1 & Hn1 & Hws1 & _).
  set (st1 := step (WsMessage ws (Decoded w1) c1) st) in *.
  destruct (step_heartbeat_pulse ws w2 c2 st1 nid m2 Hws1 Hw2) as (Hp2 & Ht2 & Hn2 & _).
  set (st2 := step (WsMessage ws (Decoded w2) c2) st1) in *.
  set (p := default 0 (heartbeatAnimIds st !! nid)) in *.
  assert (Hq : default 0 (heartbeatAnimIds st1 !! nid) + 1 = p + 2).
  { rewrite Hp1, lookup_insert_eq. cbn. lia. }
  rewrite Hq in Hp2, Ht2. rewrite Ht1, Hn1 in Ht2.
  assert (Hkey : forall s : State,
             isNeuronBeating s d
             = Ok (match heartbeatAnimIds s !! nid with
                   | Some pulse => negb (Nat.eqb pulse 0)
                   | None => false
                   end)).
  { intros s. rewrite (isNeuronBeating_node_id s d nid Hd Hnid).
    destruct (heartbeatAnimIds s !! nid); [done|]. by rewrite Hown. }
  assert (Hne1 : Forall (fun t => timer_id t <> nextTimerId st) (timeouts st))
    by (by apply fresh_ne).
  assert (Hne2 : Forall (fun t => timer_id t <> S (nextTimerId st)) (timeouts st))
    by (apply fresh_ne; [done|lia]).
  assert (Hlook2 : heartbeatAnimIds st2 !! nid = Some (p + 2))
    by (by rewrite Hp2, lookup_insert_eq).
  (* the first timer fires *)
  assert (Hfirst : step (TimerFired (nextTimerId st)) st2
                   = set_timeouts
                       (timeouts st ++ [pulse_timer (S (nextTimerId st)) nid (p + 2)])%list
                       st2).
  { rewrite (step_pulse_timer st2 (nextTimerId st) nid (p + 1) (timeouts st)
               [pulse_timer (S (nextTimerId st)) nid (p + 2)]).
    - unfold pulse_expired. cbn [heartbeatAnimIds set_timeouts]. rewrite Hlook2.
      rewrite decide_False; [done|]. intros [= H]. lia.
    - rewrite Ht2, <- app_assoc. done.
    - done.
    - constructor; [cbn; lia|constructor]. }
  (* the second timer fires *)
  assert (Hsecond : forall s before after,
             heartbeatAnimIds s = heartbeatAnimIds st2 ->
             timeouts s = (before ++ pulse_timer (S (nextTimerId st)) nid (p + 2) :: after)%list ->
             Forall (fun t => timer_id t <> S (nextTimerId st)) before ->
             Forall (fun t => timer_id t <> S (nextTimerId st)) after ->
             heartbeatAnimIds (step (TimerFired (S (nextTimerId st))) s) !! nid = None /\
             timeouts (step (TimerFired (S (nextTimerId st))) s) = (before ++ after)%list).
  { intros s before after Hs Hts Hb Ha.
    rewrite (step_pulse_timer s _ nid (p + 2) before after Hts Hb Ha).
    unfold pulse_expired. cbn [heartbeatAnimIds set_timeouts]. rewrite Hs, Hlook2.
    rewrite decide_True by done. cbn. by rewrite lookup_delete_eq. }
  repeat split.
  - by rewrite Hkey, Hlook2, Nat.add_comm.
  - rewrite Hfirst, Hkey. cbn [heartbeatAnimIds set_timeouts]. by rewrite Hlook2, Nat.add_comm.
  - rewrite Hfirst, Hkey.
    destruct (Hsecond (set_timeouts
                         (timeouts st ++ [pulse_timer (S (nextTimerId st)) nid (p + 2)])%list
                         st2) (timeouts st) []) as [-> _]; try done.
  - rewrite Hkey.
    destruct (Hsecond st2 (timeouts st ++ [pulse_timer (nextTimerId st) nid (p + 1)])%list [])
      as [-> _]; try done.
    apply Forall_app. split; [done|]. constructor; [cbn; lia|constructor].
  - rewrite Hkey.
    destruct (Hsecond st2 (timeouts st ++ [pulse_timer (nextTimerId st) nid (p + 1)])%list [])
      as [Hgone Hleft]; try done.
    + apply Forall_app. split; [done|]. constructor; [cbn; lia|constructor].
    + rewrite (step_pulse_timer _ (nextTimerId st) nid (p + 1) (timeouts st) []).
      * rewrite pulse_expired_stale.
        -- change (heartbeatAnimIds (set_timeouts ?x ?s)) with (heartbeatAnimIds s).
           by rewrite Hgone.
        -- change (heartbeatAnimIds (set_timeouts ?x ?s)) with (heartbeatAnimIds s).
           by rewrite Hgone.
      * by rewrite Hleft, app_nil_r.
      * done.
      * constructor.
Qed.

Lemma renewed_pulse_outlives_first_timer_witness :
  isNeuronBeating two_beats n1_descriptor = Ok true /\
  isNeuronBeating (step (TimerFired 1) two_beats) n1_descriptor = Ok true /\
  isNeuronBeating (step (TimerFired 2) (step (TimerFired 1) two_beats)) n1_descriptor
  = Ok false /\
  isNeuronBeating (step (TimerFired 2) two_beats) n1_descriptor = Ok false /\
  isNeuronBeating (step (TimerFired 1) (step (TimerFired 2) two_beats)) n1_descriptor
  = Ok false.
Proof.
  apply (renewed_pulse_outlives_first_timer 0 one_neuron_state heartbeat_n1 heartbeat_n1
           noon noon "n1" (JObject []) (JObject []) n1_descriptor);
    [reflexivity|reflexivity|reflexivity|constructor|reflexivity|discriminate|reflexivity].
Defined.

(** X11. The pulse is keyed by the descriptor's [node_id], and by its
    label only when it has no [node_id]: a heartbeat lights every row
    whose key is the event's neuron id and leaves the icon of every row
    with another [node_id] as it was, also of a row whose label is the
    neuron id, whose timestamp the same heartbeat refreshes. *)
Theorem pulse_keyed_by_node_id ws st wire clock nid metrics :
  wsRef st = Some ws ->
  normalizeMessage wire = Ok (event_message (neuron_heartbeat nid metrics)) ->
  nid <> "" ->
  let st' := step (WsMessage ws (Decoded wire) clock) st in
  (forall d, JS.prop d "node_id" = JString nid -> isNeuronBeating st' d = Ok true) /\
  (forall d, JS.nullish (JS.prop d "node_id") = true -> JS.prop d "label" = JString nid ->
             isNeuronBeating st' d = Ok true) /\
  (forall d a, JS.prop d "node_id" = JString a -> a <> nid ->
               isNeuronBeating st' d = isNeuronBeating st d).
Proof.
  intros Hws Hdata Hnid. cbn zeta.
  destruct (step_heartbeat_pulse ws wire clock st nid metrics Hws Hdata) as (Hp & _).
  assert (Hlit : (default 0 (heartbeatAnimIds st !! nid) + 1 =? 0)%nat = false)
    by (apply Nat.eqb_neq; lia).
  repeat split.
  - intros d Hd. rewrite (isNeuronBeating_node_id _ d nid Hd Hnid), Hp, lookup_insert_eq.
    by rewrite Hlit.
  - intros d Hn Hd. rewrite (isNeuronBeating_label _ d nid Hn Hd Hnid), Hp, lookup_insert_eq.
    by rewrite Hlit.
  - intros d a Hd Ha. destruct (decide (a = "")) as [->|Hne].
    + by rewrite !isNeuronBeating_unnamed.
    + rewrite !(isNeuronBeating_node_id _ d a Hd Hne), Hp. by rewrite lookup_insert_ne.
Qed.

Lemma pulse_keyed_by_node_id_witness :
  (forall d, JS.prop d "node_id" = JString "alpha" ->
             isNeuronBeating (step (WsMessage 0 (Decoded heartbeat_by_label) noon)
                                two_neuron_state) d = Ok true) /\
  (forall d, JS.nullish (JS.prop d "node_id") = true -> JS.prop d "label" = JString "alpha" ->
             isNeuronBeating (step (WsMessage 0 (Decoded heartbeat_by_label) noon)
                                two_neuron_state) d = Ok true) /\
  (forall d a, JS.prop d "node_id" = JString a -> a <> "alpha" ->
               isNeuronBeating (step (WsMessage 0 (Decoded heartbeat_by_label) noon)
                                  two_neuron_state) d
               = isNeuronBeating two_neuron_state d).
Proof.
  apply (pulse_keyed_by_node_id 0 two_neuron_state heartbeat_by_label noon "alpha" (JObject []));
    [reflexivity|reflexivity|discriminate].
Defined.

(** ** Invariants of runs *)

Lemma run_invariant (P : State -> Prop) :
  (forall ev st, P st -> P (step ev st)) ->
  forall evs st, P st -> P (run evs st).
Proof.
  intros Hstep evs. induction evs as [|ev evs IH]; intros st H; [done|].
  rewrite run_cons. by apply IH, Hstep.
Qed.

(** ** Timer discipline *)

Lemma timers_add ts n ref ref' t :
  timers_ok_at ts n ref ->
  timer_id t = n ->
  match callback t with
  | ReconnectPoll => ref' = Some n /\ delay_ms t = 60000%N
  | PulseExpiry _ _ => delay_ms t = 4000%N
  end ->
  ref' = ref \/ no_reconnect_timer ts ->
  timers_ok_at (ts ++ [t]) (S n) ref'.
Proof.
  intros [Hdup Hall] Hid Hcb Href. split.
  - rewrite fmap_app. apply NoDup_app. split; [done|]. split; [|apply NoDup_singleton].
    intros x Hx Hin. apply list_elem_of_fmap in Hx as (t' & -> & Ht').
    apply list_elem_of_singleton in Hin. cbn in Hin.
    destruct (Hall t' Ht') as [Hlt _]. lia.
  - intros t' Ht'. apply elem_of_app in Ht' as [Ht'|Ht'].
    + destruct (Hall t' Ht') as [Hlt Hcb']. split; [lia|].
      destruct (callback t') eqn:E; [|done].
      destruct Href as [->|Hno]; [done|]. by destruct (Hno t' Ht').
    + apply list_elem_of_singleton in Ht' as ->. split; [lia|].
      destruct (callback t); [|done]. by rewrite Hid.
Qed.

Lemma timers_filter (P : Timeout -> Prop) `{!forall t, Decision (P t)} ts n ref :
  timers_ok_at ts n ref -> timers_ok_at (filter P ts) n ref.
Proof.
  intros [Hdup Hall]. split.
  - eapply sublist_NoDup; [exact Hdup|]. apply fmap_sublist, sublist_filter.
  - intros t Ht. apply list_elem_of_filter in Ht as [_ Ht]. by apply Hall.
Qed.

Lemma timers_unref ts n ref ref' :
  timers_ok_at ts n ref -> no_reconnect_timer ts -> timers_ok_at ts n ref'.
Proof.
  intros [Hdup Hall] Hno. split; [done|]. intros t Ht.
  destruct (Hall t Ht) as [Hlt Hcb]. split; [done|].
  destruct (callback t) eqn:E; [|done]. by destruct (Hno t Ht).
Qed.

Lemma timers_clear ts n tid :
  timers_ok_at ts n (Some tid) ->
  no_reconnect_timer (filter (fun t => timer_id t ≠ tid) ts).
Proof.
  intros [_ Hall] t Ht Hcb. apply list_elem_of_filter in Ht as [Hne Ht].
  destruct (Hall t Ht) as [_ Href]. rewrite Hcb in Href. destruct Href as [[= Href] _].
  by destruct Hne.
Qed.

Lemma timers_none ts n : timers_ok_at ts n None -> no_reconnect_timer ts.
Proof.
  intros [_ Hall] t Ht Hcb. destruct (Hall t Ht) as [_ Href].
  rewrite Hcb in Href. by destruct Href.
Qed.

Lemma clearPollingTimer_timers (st : State) :
  timers_ok st ->
  timers_ok (clearPollingTimer st) /\ no_reconnect_timer (timeouts (clearPollingTimer st)).
Proof.
  unfold timers_ok, clearPollingTimer. intros H.
  destruct (pollingTimerRef st) as [tid|] eqn:E.
  - cbn. pose proof (timers_clear _ _ _ H) as Hno. split; [|done].
    eapply timers_unref; [|done]. by apply timers_filter.
  - rewrite E. split; [done|]. by eapply timers_none.
Qed.

Lemma scheduleReconnectPoll_timers (st : State) :
  timers_ok st -> timers_ok (scheduleReconnectPoll st).
Proof.
  intros H. destruct (clearPollingTimer_timers st H) as [Hok Hno].
  unfold timers_ok, scheduleReconnectPoll, setTimeout. cbn.
  eapply timers_add; [exact Hok|done|done|by right].
Qed.

Lemma bump_pulse_timers (k : jsval) (st : State) :
  timers_ok st -> timers_ok (bump_pulse k st).
Proof.
  intros H. unfold timers_ok, bump_pulse. destruct (JS.toString k) as [key|]; [|done].
  cbn. eapply timers_add; [exact H|done|done|by left].
Qed.

Lemma bump_pulse_reconnect (k : jsval) (st : State) (t : Timeout) :
  t ∈ timeouts (bump_pulse k st) -> callback t = ReconnectPoll -> t ∈ timeouts st.
Proof.
  unfold bump_pulse. destruct (JS.toString k) as [key|]; [|done]. cbn.
  intros Ht Hcb. apply elem_of_app in Ht as [Ht|Ht]; [done|].
  apply list_elem_of_singleton in Ht as ->. done.
Qed.

(** What handling a message does to the timers: a shutdown notice ends
    in [polling]; anything else adds no reconnect timer. *)
Lemma apply_message_timers data clock st st' :
  apply_message data clock st = Ok st' ->
  timers_ok st ->
  timers_ok st' /\
  (connectionStatus st' = StatusPolling \/
   forall t, t ∈ timeouts st' -> callback t = ReconnectPoll -> t ∈ timeouts st).
Proof.
  unfold apply_message. intros H Hok.
  destruct (JS.get data "kind") as [k|]; [|done]. rsimpl in H.
  destruct (JS.is_string k "snapshot").
  { destruct (JS.get data "snapshot"); [|done]. inversion H. split; [done|by right]. }
  destruct (JS.get data "event") as [e|]; [|done]. rsimpl in H.
  destruct (JS.get e "type") as [t|]; [|done]. rsimpl in H.
  destruct (JS.is_string t "neuron_heartbeat").
  { destruct (JS.get e "neuron_id") as [nid|]; [|done]. inversion H.
    assert (Hupd : timers_ok (update_snapshot (heartbeat_snapshot nid (nowIso clock)) st)).
    { unfold timers_ok.
      by destruct (update_snapshot_view (heartbeat_snapshot nid (nowIso clock)) st)
        as (_ & _ & _ & _ & _ & -> & _ & -> & ->). }
    split; [by apply bump_pulse_timers|]. right. intros t' Ht' Hcb.
    apply bump_pulse_reconnect in Ht'; [|done].
    by destruct (update_snapshot_view (heartbeat_snapshot nid (nowIso clock)) st)
      as (_ & _ & _ & _ & _ & _ & _ & <- & _). }
  destruct (JS.is_string t "cortex_shutdown_notice"); [|inversion H; subst; split; [done|by right]].
  destruct (JS.get e "reason") as [reason|]; [|done]. inversion H.
  split; [by apply scheduleReconnectPoll_timers|]. left.
  by destruct (scheduleReconnectPoll_view
                 (set_shutdownState
                    {| seenShutdownNotice := true; lastReason := JS.coalesce reason JNull;
                       lastSeenAt := Some (nowIso clock) |} st)) as (-> & _).
Qed.

Lemma onmessage_timers ws frame clock st :
  timers_ok st ->
  timers_ok (onmessage ws frame clock st) /\
  (connectionStatus (onmessage ws frame clock st) = StatusPolling \/
   forall t, t ∈ timeouts (onmessage ws frame clock st) -> callback t = ReconnectPoll ->
             t ∈ timeouts st).
Proof.
  intros Hok. unfold onmessage. destruct (negb _); [split; [done|by right]|].
  unfold try_message.
  destruct (_ ≫= _) as [data|]; [|split; [done|by right]].
  destruct (log_item _ _ _) as [item|]; [|split; [done|by right]].
  destruct (apply_message _ _ _) as [st'|] eqn:E; [|split; [done|by right]].
  by apply apply_message_timers in E.
Qed.

Lemma fire_timer_timers tid st :
  timers_ok st ->
  timers_ok (fire_timer tid st) /\
  forall t, t ∈ timeouts (fire_timer tid st) -> callback t = ReconnectPoll -> t ∈ timeouts st.
Proof.
  intros Hok. unfold fire_timer.
  destruct (find _ (timeouts st)) as [t|] eqn:E; [|done].
  apply find_some in E as [Hin Hid]. apply list_elem_of_In in Hin.
  apply bool_decide_eq_true in Hid.
  assert (Hsub : forall t', t' ∈ timeouts (clearTimeout tid st) -> t' ∈ timeouts st).
  { intros t' Ht'. cbn in Ht'. by apply list_elem_of_filter in Ht' as [_ ?]. }
  assert (Hfilter : timers_ok (clearTimeout tid st)).
  { unfold timers_ok, clearTimeout. cbn. by apply timers_filter. }
  destruct (callback t) as [|k q] eqn:Ecb.
  - assert (Href : pollingTimerRef st = Some tid).
    { destruct Hok as [_ Hall]. destruct (Hall t Hin) as [_ Hcb].
      rewrite Ecb in Hcb. destruct Hcb as [-> _]. by rewrite Hid. }
    assert (Hno : no_reconnect_timer (timeouts (clearTimeout tid st))).
    { unfold timers_ok in Hok. rewrite Href in Hok. exact (timers_clear _ _ _ Hok). }
    assert (Hfired : timers_ok (set_pollingTimerRef None (clearTimeout tid st))).
    { unfold timers_ok. cbn. eapply timers_unref; [exact Hfilter|exact Hno]. }
    unfold reconnect_poll_fired.
    split.
    + by destruct (connectionStatus (set_pollingTimerRef None (clearTimeout tid st))).
    + intros t' Ht' Hcb. apply Hsub.
      by destruct (connectionStatus (set_pollingTimerRef None (clearTimeout tid st))).
  - unfold pulse_expired. split.
    + by destruct (decide _).
    + intros t' Ht' _. apply Hsub. by destruct (decide _).
Qed.

Lemma handler_timers ev st :
  timers_ok st ->
  timers_ok (handler ev st) /\
  (connectionStatus (handler ev st) = StatusPolling \/
   forall t, t ∈ timeouts (handler ev st) -> callback t = ReconnectPoll -> t ∈ timeouts st).
Proof.
  intros Hok. destruct ev as [ws|ws frame clock|ws|ws|tid]; cbn [handler].
  - unfold onopen. destruct (negb _); [split; [done|by right]|].
    destruct (clearPollingTimer_timers st Hok) as [Hc Hno]. split; [done|].
    right. intros t Ht Hcb. by destruct (Hno t Ht).
  - by apply onmessage_timers.
  - unfold onerror. destruct (negb _); split; try done; by right.
  - unfold onclose. destruct (is_current _ _); cbn [negb]; [|split; [done|by right]].
    split.
    + apply scheduleReconnectPoll_timers. by destruct (connectionStatus _).
    + left. match goal with
            | |- connectionStatus (scheduleReconnectPoll ?s) = _ =>
                by destruct (scheduleReconnectPoll_view s) as (-> & _)
            end.
  - destruct (fire_timer_timers tid st Hok) as [H1 H2]. split; [done|by right].
Qed.

Lemma effect_body_idle (st : State) :
  connectionStatus st <> StatusConnecting -> effect_body st = st.
Proof. intros H. unfold effect_body. by destruct (connectionStatus st). Qed.

(** The effect body does nothing, or creates a socket, or ends in
    [scheduleReconnectPoll] because the constructor threw. *)
Lemma effect_body_cases (st : State) :
  effect_body st = st \/
  (connectionStatus st = StatusConnecting /\
   connectionStatus (effect_body st) = StatusConnecting /\
   timeouts (effect_body st) = timeouts st /\
   nextTimerId (effect_body st) = nextTimerId st /\
   pollingTimerRef (effect_body st) = pollingTimerRef st) \/
  (connectionStatus st = StatusConnecting /\
   exists s, timeouts s = timeouts st /\ nextTimerId s = nextTimerId st /\
             pollingTimerRef s = pollingTimerRef st /\
             effect_body st = scheduleReconnectPoll s).
Proof.
  unfold effect_body. destruct (connectionStatus st) eqn:Es; try by left.
  destruct (wsRef st) eqn:Ew; [by left|]. right.
  unfold connect. cbn [wsRef set_isInitialLoading]. rewrite Ew.
  cbn [constructorError set_isInitialLoading set_connectionStatus set_constructorCalls].
  destruct (constructorError st) as [m|] eqn:Ec.
  - right. split; [done|]. eexists. split; [|split; [|split; [|reflexivity]]]; done.
  - left. done.
Qed.

(** A run of the effect on a state without reconnect timer leaves none:
    the one a throwing constructor schedules is cancelled by the cleanup
    of the render its own status change causes. *)
Lemma run_effect_timers (st : State) :
  timers_ok st -> no_reconnect_timer (timeouts st) ->
  timers_ok (run_effect st) /\ no_reconnect_timer (timeouts (run_effect st)).
Proof.
  intros Hok Hno. unfold run_effect.
  destruct (effect_body_cases st) as [->|[(Hs & Hs' & Ht & Hn & Hr)|(Hs & s & Ht & Hn & Hr & ->)]].
  - by rewrite decide_True.
  - rewrite decide_True by congruence. unfold timers_ok. by rewrite Ht, Hn, Hr.
  - assert (Hsok : timers_ok s) by (unfold timers_ok; by rewrite Ht, Hn, Hr).
    destruct (scheduleReconnectPoll_view s) as (Hp & _).
    rewrite decide_False by congruence.
    unfold effect_cleanup.
    rewrite effect_body_idle.
    + by apply clearPollingTimer_timers, scheduleReconnectPoll_timers.
    + destruct (clearPollingTimer_view (scheduleReconnectPoll s)) as (-> & _). by rewrite Hp.
Qed.

Lemma rerender_timers (rendered : ConnectionStatus) (st : State) :
  timers_ok st ->
  timers_ok (rerender rendered st) /\
  (connectionStatus st <> rendered -> no_reconnect_timer (timeouts (rerender rendered st))).
Proof.
  intros Hok. unfold rerender. destruct (decide _) as [Heq|Hne]; [done|].
  destruct (clearPollingTimer_timers st Hok) as [Hc Hno].
  destruct (run_effect_timers (effect_cleanup st) Hc Hno). done.
Qed.

Lemma step_timers_disciplined ev st :
  timers_disciplined st -> timers_disciplined (step ev st).
Proof.
  intros [Hok Hpoll]. unfold step.
  destruct (handler_timers ev st Hok) as [Hh Hcases].
  destruct (rerender_timers (connectionStatus st) (handler ev st) Hh) as [Hr Hno].
  split; [done|]. intros t Ht Hcb.
  destruct (decide (connectionStatus (handler ev st) = connectionStatus st)) as [Heq|Hne].
  - unfold rerender in *. rewrite decide_True in * by done.
    destruct Hcases as [Hp|Hsub]; [done|].
    rewrite Heq. apply (Hpoll t); [by apply Hsub|done].
  - by destruct (Hno Hne t Ht).
Qed.

(** X12. In every state the component reaches, timer ids are unique, at
    most one reconnect timer is pending, it is the 60-second timer whose
    id [pollingTimerRef] holds, it is pending only while the status is
    [polling], and every pulse expiry waits 4 seconds. *)
Theorem reachable_timers_disciplined ctor evs :
  timers_disciplined (run evs (mount ctor)) /\
  forall t t', t ∈ timeouts (run evs (mount ctor)) ->
               t' ∈ timeouts (run evs (mount ctor)) ->
               callback t = ReconnectPoll -> callback t' = ReconnectPoll -> t = t'.
Proof.
  assert (Hreach : timers_disciplined (run evs (mount ctor))).
  { apply run_invariant; [apply step_timers_disciplined|].
    unfold mount.
    assert (Hinit : timers_ok (initial_state ctor)).
    { split; [constructor|]. intros t Ht. by apply elem_of_nil in Ht. }
    destruct (run_effect_timers (initial_state ctor) Hinit) as [Hok Hno].
    { intros t Ht. by apply elem_of_nil in Ht. }
    split; [done|]. intros t Ht Hcb. by destruct (Hno t Ht). }
  split; [done|]. destruct Hreach as [[Hdup Hall] _].
  intros t t' Ht Ht' Hcb Hcb'.
  destruct (Hall t Ht) as [_ H1]. destruct (Hall t' Ht') as [_ H2].
  rewrite Hcb in H1. rewrite Hcb' in H2. destruct H1 as [H1 _]. destruct H2 as [H2 _].
  rewrite H1 in H2. injection H2 as Hid.
  apply list_elem_of_lookup in Ht as [i Hi]. apply list_elem_of_lookup in Ht' as [j Hj].
  assert (i = j) as ->.
  { eapply NoDup_lookup; [exact Hdup| |]; rewrite list_lookup_fmap.
    - by rewrite Hi.
    - rewrite Hj. cbn. by rewrite Hid. }
  congruence.
Qed.

(** ** The connection status *)

Lemma apply_message_status data clock st st' :
  apply_message data clock st = Ok st' ->
  connectionStatus st' = connectionStatus st \/ connectionStatus st' = StatusPolling.
Proof.
  unfold apply_message. intros H.
  destruct (JS.get data "kind") as [k|]; [|done]. rsimpl in H.
  destruct (JS.is_string k "snapshot").
  { destruct (JS.get data "snapshot"); [|done]. inversion H. by left. }
  destruct (JS.get data "event") as [e|]; [|done]. rsimpl in H.
  destruct (JS.get e "type") as [t|]; [|done]. rsimpl in H.
  destruct (JS.is_string t "neuron_heartbeat").
  { destruct (JS.get e "neuron_id") as [nid|]; [|done]. inversion H. left.
    destruct (bump_pulse_view nid
                (update_snapshot (heartbeat_snapshot nid (nowIso clock)) st)) as (_ & -> & _).
    by destruct (update_snapshot_view (heartbeat_snapshot nid (nowIso clock)) st) as (-> & _). }
  destruct (JS.is_string t "cortex_shutdown_notice"); [|inversion H; by left].
  destruct (JS.get e "reason") as [reason|]; [|done]. inversion H. right.
  by destruct (scheduleReconnectPoll_view
                 (set_shutdownState
                    {| seenShutdownNotice := true; lastReason := JS.coalesce reason JNull;
                       lastSeenAt := Some (nowIso clock) |} st)) as (-> & _).
Qed.

Lemma onmessage_status ws frame clock st :
  connectionStatus (onmessage ws frame clock st) = connectionStatus st \/
  connectionStatus (onmessage ws frame clock st) = StatusPolling.
Proof.
  unfold onmessage. destruct (negb _); [by left|]. unfold try_message.
  destruct (_ ≫= _) as [data|]; [|by left].
  destruct (log_item _ _ _) as [item|]; [|by left].
  destruct (apply_message _ _ _) as [st'|] eqn:E; [|by left].
  by apply apply_message_status in E.
Qed.

(** The status a handler leaves, and the event that explains it. *)
Lemma handler_status ev st :
  connectionStatus (handler ev st) = connectionStatus st \/
  connectionStatus (handler ev st) = StatusPolling \/
  (connectionStatus (handler ev st) = StatusOpen /\
   exists ws, ev = WsOpen ws /\ wsRef st = Some ws) \/
  (connectionStatus (handler ev st) = StatusError /\
   exists ws, ev = WsError ws /\ wsRef st = Some ws) \/
  (connectionStatus (handler ev st) = StatusConnecting /\
   exists t, ev = TimerFired (timer_id t) /\ t ∈ timeouts st /\ callback t = ReconnectPoll).
Proof.
  destruct ev as [ws|ws frame clock|ws|ws|tid]; cbn [handler].
  - unfold onopen, is_current. destruct (bool_decide _) eqn:E; cbn [negb]; [|by left].
    apply bool_decide_eq_true in E. right. right. left. split; [done|]. by exists ws.
  - destruct (onmessage_status ws frame clock st) as [H|H]; [by left|by right; left].
  - unfold onerror, is_current. destruct (bool_decide _) eqn:E; cbn [negb]; [|by left].
    apply bool_decide_eq_true in E. right. right. right. left. split; [done|]. by exists ws.
  - unfold onclose, is_current. cbn [wsRef set_closedSockets].
    destruct (bool_decide _); cbn [negb]; [|by left]. right. left.
    match goal with
    | |- connectionStatus (scheduleReconnectPoll ?s) = _ =>
        by destruct (scheduleReconnectPoll_view s) as (-> & _)
    end.
  - unfold fire_timer. destruct (find _ (timeouts st)) as [t|] eqn:E; [|by left].
    apply find_some in E as [Hin Hid]. apply list_elem_of_In in Hin.
    apply bool_decide_eq_true in Hid. subst tid.
    destruct (callback t) as [|k q] eqn:Ecb.
    + unfold reconnect_poll_fired. cbn.
      destruct (connectionStatus st) eqn:Es; try (by left);
        (right; right; right; right; split; [done|]; by exists t).
    + left. unfold pulse_expired. by destruct (decide _).
Qed.

Lemma run_effect_status (st : State) :
  connectionStatus (run_effect st) = connectionStatus st \/
  connectionStatus (run_effect st) = StatusPolling.
Proof.
  unfold run_effect.
  destruct (effect_body_cases st) as [->|[(Hs & Hs' & _)|(Hs & s & _ & _ & _ & ->)]].
  - left. by rewrite decide_True.
  - left. rewrite decide_True by congruence. congruence.
  - right. destruct (scheduleReconnectPoll_view s) as (Hp & _).
    rewrite decide_False by congruence. unfold effect_cleanup.
    rewrite effect_body_idle;
      destruct (clearPollingTimer_view (scheduleReconnectPoll s)) as (-> & _); by rewrite Hp.
Qed.

Lemma rerender_status (rendered : ConnectionStatus) (st : State) :
  connectionStatus (rerender rendered st) = connectionStatus st \/
  connectionStatus (rerender rendered st) = StatusPolling.
Proof.
  unfold rerender. destruct (decide _); [by left|].
  destruct (run_effect_status (effect_cleanup st)) as [H|H]; [left|by right].
  rewrite H. unfold effect_cleanup. by destruct (clearPollingTimer_view st) as (-> & _).
Qed.

(** X13. The transitions of the connection status: one turn of the event
    loop leaves the status as it was or in [polling], unless it is the
    [open] event of the current socket (to [open]), the [error] event of
    the current socket (to [error]) or the firing of the pending
    reconnect timer (to [connecting]).  No frame, and no event of a
    socket that is not the current one, opens the connection. *)
Theorem status_transitions ev st :
  connectionStatus (step ev st) = connectionStatus st \/
  connectionStatus (step ev st) = StatusPolling \/
  (connectionStatus (step ev st) = StatusOpen /\
   exists ws, ev = WsOpen ws /\ wsRef st = Some ws) \/
  (connectionStatus (step ev st) = StatusError /\
   exists ws, ev = WsError ws /\ wsRef st = Some ws) \/
  (connectionStatus (step ev st) = StatusConnecting /\
   exists t, ev = TimerFired (timer_id t) /\ t ∈ timeouts st /\ callback t = ReconnectPoll).
Proof.
  unfold step.
  destruct (rerender_status (connectionStatus st) (handler ev st)) as [-> | ->];
    [apply handler_status|by right; left].
Qed.

(** X14. The status [closed] is never shown: [onclose] sets it and
    schedules the reconnect poll in the same turn, which replaces it by
    [polling] before the next render.  The badge is therefore never
    drawn in the [secondary] variant. *)
Theorem never_closed ctor evs :
  connectionStatus (run evs (mount ctor)) <> StatusClosed /\
  statusBadgeVariant (connectionStatus (run evs (mount ctor))) <> "secondary".
Proof.
  assert (H : connectionStatus (run evs (mount ctor)) <> StatusClosed).
  { apply (run_invariant (fun st => connectionStatus st <> StatusClosed)).
    - intros ev st Hst. unfold step.
      destruct (rerender_status (connectionStatus st) (handler ev st)) as [-> | ->]; [|done].
      destruct (handler_status ev st) as [H|[H|[[H _]|[[H _]|[H _]]]]]; congruence.
    - unfold mount.
      destruct (run_effect_status (initial_state ctor)) as [H|H]; by rewrite H. }
  split; [done|]. by destruct (connectionStatus (run evs (mount ctor))).
Qed.

(** ** The banners *)

Lemma apply_message_banners data clock st st' :
  apply_message data clock st = Ok st' ->
  lastError st' = lastError st /\ (shutdown_shown st -> shutdown_shown st').
Proof.
  unfold apply_message, shutdown_shown. intros H.
  destruct (JS.get data "kind") as [k|]; [|done]. rsimpl in H.
  destruct (JS.is_string k "snapshot").
  { destruct (JS.get data "snapshot"); [|done]. by inversion H. }
  destruct (JS.get data "event") as [e|]; [|done]. rsimpl in H.
  destruct (JS.get e "type") as [t|]; [|done]. rsimpl in H.
  destruct (JS.is_string t "neuron_heartbeat").
  { destruct (JS.get e "neuron_id") as [nid|]; [|done]. inversion H.
    destruct (bump_pulse_view nid
                (update_snapshot (heartbeat_snapshot nid (nowIso clock)) st))
      as (_ & _ & -> & _ & -> & _).
    by destruct (update_snapshot_view (heartbeat_snapshot nid (nowIso clock)) st)
      as (_ & -> & _ & -> & _). }
  destruct (JS.is_string t "cortex_shutdown_notice"); [|by inversion H].
  destruct (JS.get e "reason") as [reason|]; [|done]. inversion H.
  by destruct (scheduleReconnectPoll_view
                 (set_shutdownState
                    {| seenShutdownNotice := true; lastReason := JS.coalesce reason JNull;
                       lastSeenAt := Some (nowIso clock) |} st)) as (_ & -> & _ & _ & -> & _).
Qed.

Lemma onmessage_banners ws frame clock st :
  (error_shown st -> error_shown (onmessage ws frame clock st)) /\
  (shutdown_shown st -> shutdown_shown (onmessage ws frame clock st)).
Proof.
  unfold onmessage. destruct (negb _); [done|]. unfold try_message.
  destruct (_ ≫= _) as [data|]; [|by split; [intros _; eexists|]].
  destruct (log_item _ _ _) as [item|]; [|by split; [intros _; eexists|]].
  destruct (apply_message _ _ _) as [st'|] eqn:E; [|by split; [intros _; eexists|]].
  apply apply_message_banners in E as [He Hs]. unfold error_shown. by rewrite He.
Qed.

Lemma fire_timer_banners tid st :
  lastError (fire_timer tid st) = lastError st /\
  shutdownState (fire_timer tid st) = shutdownState st.
Proof.
  unfold fire_timer. destruct (find _ _) as [t|]; [|done].
  destruct (callback t).
  - unfold reconnect_poll_fired. cbn. by destruct (connectionStatus st).
  - unfold pulse_expired. by destruct (decide _).
Qed.

Lemma step_banners ws ev st :
  wsRef st = Some ws -> ev <> WsOpen ws ->
  (error_shown st -> error_shown (step ev st)) /\
  (shutdown_shown st -> shutdown_shown (step ev st)).
Proof.
  intros Hws Hev. unfold step, error_shown, shutdown_shown.
  destruct (handler_keeps_socket ev st ws Hws) as [Hws' _].
  destruct (rerender_view (connectionStatus st) (handler ev st) ws Hws')
    as (_ & -> & _ & _ & -> & _).
  destruct ev as [ws'|ws' frame clock|ws'|ws'|tid]; cbn [handler].
  - unfold onopen, is_current. rewrite Hws, bool_decide_eq_false_2; [done|]. congruence.
  - apply onmessage_banners.
  - unfold onerror. destruct (negb _); [done|]. split; [by eexists|done].
  - unfold onclose. destruct (negb _); [done|].
    match goal with
    | |- context [scheduleReconnectPoll ?s] =>
        destruct (scheduleReconnectPoll_view s) as (_ & -> & _ & _ & -> & _)
    end.
    by destruct (connectionStatus _).
  - by destruct (fire_timer_banners tid st) as [-> ->].
Qed.

(** X15. Once a socket is stored, the error line and the shutdown notice
    are cleared by nothing but the [open] event of that socket: over any
    other events, valid frames included, an error that is shown stays
    shown (possibly replaced by a later one) and an observed shutdown
    stays observed. *)
Theorem banners_persist_until_open ws st evs :
  wsRef st = Some ws ->
  WsOpen ws ∉ evs ->
  (error_shown st -> error_shown (run evs st)) /\
  (shutdown_shown st -> shutdown_shown (run evs st)).
Proof.
  revert st. induction evs as [|ev evs IH]; intros st Hws Hnot; [done|].
  rewrite run_cons.
  assert (Hev : ev <> WsOpen ws) by (intros ->; apply Hnot; left).
  assert (Hrest : WsOpen ws ∉ evs) by (intros H; apply Hnot; by right).
  destruct (step_keeps_socket ev st ws Hws) as [Hws' _].
  destruct (step_banners ws ev st Hws Hev) as [He Hs].
  destruct (IH (step ev st) Hws' Hrest) as [He' Hs']. split; eauto.
Qed.

Lemma banners_persist_until_open_witness :
  (error_shown failed_state ->
   error_shown (run [WsMessage 0 (Decoded heartbeat_n1) noon; WsClose 0] failed_state)) /\
  (shutdown_shown failed_state ->
   shutdown_shown (run [WsMessage 0 (Decoded heartbeat_n1) noon; WsClose 0] failed_state)).
Proof.
  apply (banners_persist_until_open 0 failed_state
           [WsMessage 0 (Decoded heartbeat_n1) noon; WsClose 0]); [reflexivity|].
  intros H. repeat (apply elem_of_cons in H as [H|H]; [discriminate|]).
  by apply elem_of_nil in H.
Defined.

(** ** The log holds normal forms *)

Lemma step_entry_ok ev st :
  Forall entry_ok (events st) -> Forall entry_ok (events (step ev st)).
Proof.
  intros H. unfold step.
  destruct (rerender_log (connectionStatus st) (handler ev st)) as [-> _].
  destruct ev as [ws|ws frame clock|ws|ws|tid]; cbn [handler].
  - unfold onopen. destruct (negb _); [done|]. cbn. constructor.
  - unfold onmessage. destruct (negb _); [done|]. unfold try_message.
    destruct (_ ≫= _) as [data|] eqn:Hdata; [|done].
    destruct (log_item _ _ _) as [item|] eqn:Hitem; [|done].
    assert (Hlogged : Forall entry_ok (events (logged item st))).
    { cbn -[slice_last]. unfold slice_last. apply Forall_drop, Forall_app. split; [done|].
      constructor; [|constructor].
      assert (Hfixed : normalizeMessage data = Ok data).
      { destruct frame as [m|wire]; [done|]. cbn in Hdata.
        by apply normalizeMessage_fixed in Hdata. }
      unfold log_item in Hitem. destruct (item_tags data) as [tags|] eqn:Htags; [|done].
      rsimpl in Hitem. inversion Hitem. split; cbn; [done|]. by destruct tags. }
    destruct (apply_message _ _ _) as [st'|] eqn:E; [|done].
    by apply apply_message_log in E as [-> _].
  - unfold onerror. by destruct (negb _).
  - unfold onclose. destruct (negb _); [done|].
    match goal with
    | |- context [scheduleReconnectPoll ?s] =>
        destruct (scheduleReconnectPoll_view s) as (_ & _ & _ & -> & _)
    end.
    by destruct (connectionStatus _).
  - by destruct (fire_timer_log tid st) as [-> _].
Qed.

(** X16. Every entry of the event log, in every state the component
    reaches, holds a message in normal form ([normalizeMessage] returns
    it unchanged), and its [kind] and [eventType] columns are the tags of
    that message. *)
Theorem reachable_log_normalized ctor evs :
  Forall entry_ok (events (run evs (mount ctor))).
Proof.
  apply (run_invariant (fun st => Forall entry_ok (events st))); [apply step_entry_ok|].
  unfold mount.
  assert (Hrun : events (run_effect (initial_state ctor)) = []).
  { unfold run_effect. destruct (decide _).
    - by destruct (effect_body_log (initial_state ctor)) as [-> _].
    - destruct (effect_body_log (effect_cleanup (effect_body (initial_state ctor)))) as [-> _].
      unfold effect_cleanup.
      destruct (clearPollingTimer_view (effect_body (initial_state ctor)))
        as (_ & _ & _ & -> & _).
      by destruct (effect_body_log (initial_state ctor)) as [-> _]. }
  rewrite Hrun. constructor.
Qed.

(** ** What changes the table *)

(** Normalizing an event keeps its type and never turns it into a
    snapshot. *)
Lemma normalizeMessage_event wire data :
  normalizeMessage wire = Ok data ->
  JS.prop wire "kind" <> JString "snapshot" ->
  JS.prop data "kind" <> JString "snapshot" /\
  JS.prop (JS.prop data "event") "type" = JS.prop (JS.prop wire "event") "type".
Proof.
  unfold normalizeMessage, JS.get. intros H Hkind.
  destruct (JS.nullish wire) eqn:Hwire; [done|]. rsimpl in H.
  rewrite (is_string_false _ _ Hkind) in H.
  destruct (negb (JS.truthy (JS.prop wire "event")) ||
            negb (typeof_is (JS.prop wire "event") "object")) eqn:Hobj.
  { by inversion H; subst data. }
  destruct (JS.nullish (JS.prop wire "event")); [done|]. rsimpl in H.
  destruct (JS.prop (JS.prop wire "event") "type") as [| | | |t| |] eqn:Ht;
    try (inversion H; subst data; by rewrite Ht).
  unfold normalizeEvent in H.
  repeat match type of H with
         | (if String.eqb t ?k then _ else _) = _ =>
             let E := fresh "E" in
             destruct (String.eqb t k) eqn:E; [apply String.eqb_eq in E; subst t|]
         end;
    [..|inversion H; subst data; by rewrite Ht];
    repeat match type of H with
           | (?c ≫= _) = _ => destruct c; [|done]; rsimpl in H
           end;
    by inversion H.
Qed.

Lemma apply_message_table data clock st st' :
  apply_message data clock st = Ok st' ->
  JS.prop data "kind" <> JString "snapshot" ->
  JS.prop (JS.prop data "event") "type" <> JString "neuron_heartbeat" ->
  snapshot st' = snapshot st.
Proof.
  unfold apply_message, JS.get. intros H Hkind Htype.
  destruct (JS.nullish data); [done|]. rsimpl in H.
  rewrite (is_string_false _ _ Hkind) in H.
  destruct (JS.nullish (JS.prop data "event")); [done|]. rsimpl in H.
  rewrite (is_string_false _ _ Htype) in H.
  destruct (JS.is_string _ "cortex_shutdown_notice"); [|by inversion H].
  rsimpl in H. inversion H.
  match goal with
  | |- snapshot (scheduleReconnectPoll ?s) = _ =>
      by destruct (scheduleReconnectPoll_view s) as (_ & _ & -> & _)
  end.
Qed.

(** X17. Only snapshots and heartbeats change the neuron table: a frame
    that is neither leaves it exactly as it was, whether the frame is
    rejected, only logged, or a shutdown notice, and whichever socket it
    arrives on.  A [neuron_removed] event does not remove the row of its
    neuron, and [neuron_registered] adds none. *)
Theorem only_snapshots_and_heartbeats_touch_table ws st wire clock :
  JS.prop wire "kind" <> JString "snapshot" ->
  JS.prop (JS.prop wire "event") "type" <> JString "neuron_heartbeat" ->
  snapshot (step (WsMessage ws (Decoded wire) clock) st) = snapshot st.
Proof.
  intros Hkind Htype. unfold step, handler.
  destruct (decide (wsRef st = Some ws)) as [Hws|Hstale].
  - assert (Hws' : wsRef (onmessage ws (Decoded wire) clock st) = Some ws)
      by (by rewrite onmessage_wsRef).
    destruct (rerender_view (connectionStatus st) _ ws Hws') as (_ & _ & -> & _).
    unfold onmessage, try_message. rewrite (is_current_true _ _ Hws).
    cbn [negb JSON_parse]. rsimpl.
    destruct (normalizeMessage wire) as [data|] eqn:Hdata; [|done].
    destruct (log_item _ _ _) as [item|]; [|done].
    destruct (apply_message _ _ _) as [st'|] eqn:E; [|done].
    destruct (normalizeMessage_event wire data Hdata Hkind) as [Hk Ht].
    rewrite (apply_message_table _ _ _ _ E Hk); [done|]. by rewrite Ht.
  - unfold onmessage, is_current. rewrite bool_decide_eq_false_2 by done. cbn [negb].
    unfold rerender. by rewrite decide_True.
Qed.

Lemma only_snapshots_and_heartbeats_touch_table_witness :
  snapshot (step (WsMessage 0 (Decoded removal_frame) noon) one_neuron_state)
  = snapshot one_neuron_state.
Proof.
  apply (only_snapshots_and_heartbeats_touch_table 0 one_neuron_state removal_frame noon);
    discriminate.
Defined.

(** ** Describing the log entries *)

Lemma normalizeModels_rows (wire models : jsval) :
  normalizeModels wire = Ok models ->
  exists ms, models = JArray ms /\ Forall is_object ms.
Proof.
  destruct wire as [| | | | |items|]; cbn; try (intros [= <-]; by exists []).
  destruct (mapM_result normalizeModelStatus items) as [ms|] eqn:E; [|done].
  rsimpl. intros [= <-]. exists ms. split; [done|].
  apply (mapM_result_Forall normalizeModelStatus (fun _ => True) is_object items ms);
    [|by apply Forall_true|done].
  intros m r _. unfold normalizeModelStatus. intros H.
  repeat match type of H with
         | (?c ≫= _) = _ => destruct c; [|done]; rsimpl in H
         end.
  inversion H. by eexists.
Qed.

Lemma model_ids_defined (ms : list jsval) :
  Forall is_object ms -> exists ids, mapM_result (fun m => JS.get m "model_id") ms = Ok ids.
Proof.
  apply mapM_result_total. intros m [props ->]. by eexists.
Qed.

Lemma first_key_text (raw : jsval) :
  exists s, JS.toString (if JS.truthy raw && typeof_is raw "object" then first_key raw
                         else JString "response") = Ok s.
Proof.
  destruct (JS.truthy raw && typeof_is raw "object"); [|by eexists].
  unfold first_key. destruct raw as [| | | | |[|x items]|props]; try by eexists.
  destruct (omap _ props) as [|x r]; [|by eexists].
  destruct props as [|[k v] props]; by eexists.
Qed.

Lemma length_text (items : list jsval) :
  exists s, (count ← length_of (JArray items); JS.toString count) = Ok s.
Proof.
  unfold length_of. rewrite get_defined by done. rsimpl. cbn -[JS.array_index].
  rewrite (array_index_name "length" _ _ _ eq_refl) by (vm_compute; lia).
  cbn. by eexists.
Qed.

(** X18. [describeEvent] returns normally on every logged snapshot and
    on every logged event whose type is not [neuron_registered],
    [provisioning_sent] or [cortex_shutdown_notice], types unknown to
    the dashboard included: for these the normalizer establishes all the
    description reads. *)
Theorem describeEvent_defined wire data :
  normalizeMessage wire = Ok data ->
  (JS.prop wire "kind" = JString "snapshot" \/
   exists t, JS.prop (JS.prop wire "event") "type" = JString t /\
             t ∉ unchecked_event_types) ->
  exists s, describeEvent data = Ok s.
Proof.
  intros H Hsafe.
  destruct (JS.is_string (JS.prop wire "kind") "snapshot") eqn:Hkind.
  - (* a snapshot *)
    unfold normalizeMessage, JS.get in H.
    destruct (JS.nullish wire); [done|]. rsimpl in H. rewrite Hkind in H.
    destruct (normalizeSnapshot _) as [table|] eqn:E; [|done]. rsimpl in H.
    apply normalizeSnapshot_table in E as (neurons & -> & _). inversion H.
    unfold describeEvent, table_of. js_eval.
    destruct (length_text neurons) as [s Hs]. unfold length_of in *.
    destruct (JS.get (JArray neurons) "length") as [count|]; [|done]. rsimpl in Hs. rsimpl.
    rewrite Hs. rsimpl. by eexists.
  - (* an event *)
    destruct Hsafe as [Hsnap|(t & Ht & Hsafe)].
    { apply is_string_spec in Hsnap. congruence. }
    destruct (prop_type_object _ _ Ht) as [props He].
    assert (Hwire : JS.nullish wire = false)
      by (apply (prop_defined wire "event"); by rewrite He).
    unfold normalizeMessage in H. rewrite !get_defined in H by done. rsimpl in H.
    rewrite Hkind, He in H. cbn [JS.truthy typeof_is JS.typeof String.eqb Ascii.eqb Bool.eqb
                                 negb orb] in H.
    rewrite get_defined in H by done. rsimpl in H. rewrite <- He, Ht in H.
    unfold normalizeEvent in H.
    repeat match type of H with
           | (if String.eqb t ?k then _ else _) = _ =>
               let E := fresh "E" in
               destruct (String.eqb t k) eqn:E;
                 [apply String.eqb_eq in E; subst t;
                  try (exfalso; apply Hsafe; unfold unchecked_event_types; set_solver)|]
           end.
    + (* neuron_removed *)
      destruct (neuron_id_of _) as [nid|] eqn:En; [|done]. rsimpl in H.
      apply neuron_id_of_shape in En as [s ->]. inversion H. by eexists.
    + (* neuron_heartbeat *)
      destruct (neuron_id_of _) as [nid|] eqn:En; [|done]. rsimpl in H.
      apply neuron_id_of_shape in En as [s ->].
      destruct (JS.get _ "metrics"); [|done]. inversion H. by eexists.
    + (* provisioning_response *)
      destruct (neuron_id_of _) as [nid|] eqn:En; [|done]. rsimpl in H.
      apply neuron_id_of_shape in En as [s ->].
      destruct (JS.get _ "response") as [raw|]; [|done]. inversion H.
      unfold describeEvent, describe_event, event_message. js_eval.
      destruct (first_key_text raw) as [tag ->]. rsimpl. by eexists.
    + (* model_state_changed *)
      destruct (JS.get _ "models") as [mw|]; [|done]. rsimpl in H.
      destruct (normalizeModels mw) as [models|] eqn:Em; [|done]. rsimpl in H.
      apply normalizeModels_rows in Em as (ms & -> & Hms).
      destruct (neuron_id_of _) as [nid|] eqn:En; [|done]. rsimpl in H.
      apply neuron_id_of_shape in En as [s ->]. inversion H.
      unfold describeEvent, describe_event, event_message. js_eval.
      cbn [JS.coalesce JS.nullish].
      destruct (model_ids_defined ms Hms) as [ids ->]. rsimpl. js_eval.
      cbn [JS.toString]. rsimpl. by eexists.
    + (* a type the dashboard does not know *)
      inversion H. subst data.
      unfold describeEvent. rewrite !get_defined by done. rsimpl.
      rewrite Hkind, He. rewrite !get_defined by done. rsimpl. rewrite <- He, Ht.
      unfold describe_event. cbn [JS.is_string]. rewrite E, E0, E1, E2, E3, E4, E5.
      by eexists.
Qed.

Lemma describeEvent_defined_witness :
  exists s,
    describeEvent (event_message [("type", JString "neuron_removed");
                                  ("neuron_id", JString "n1")]) = Ok s.
Proof.
  apply (describeEvent_defined removal_frame); [reflexivity|].
  right. exists "neuron_removed". split; [reflexivity|].
  unfold unchecked_event_types. intros H.
  repeat (apply elem_of_cons in H as [H|H]; [discriminate|]). by apply elem_of_nil in H.
Defined.

(** X19. A shutdown notice is accepted whatever its [reason] is: the
    frame is logged, the reason stored ([null] when missing) and the
    connection moved to [polling] without an error.  Its log line can be
    described only if the reason is missing, [null] or a string: on any
    other reason [describeEvent] throws, on a message the log holds. *)
Theorem shutdown_reason_must_be_text ws st wire clock :
  wsRef st = Some ws ->
  JS.prop wire "kind" <> JString "snapshot" ->
  JS.prop (JS.prop wire "event") "type" = JString "cortex_shutdown_notice" ->
  let reason := JS.coalesce (JS.prop (JS.prop wire "event") "reason") JNull in
  let st' := step (WsMessage ws (Decoded wire) clock) st in
  normalizeMessage wire = Ok (event_message (shutdown_notice reason)) /\
  events st' = slice_last 300
                 (events st ++ [event_item (nextEventIdRef st) clock (shutdown_notice reason)]) /\
  connectionStatus st' = StatusPolling /\
  lastReason (shutdownState st') = reason /\
  lastError st' = lastError st /\
  ((exists s, describeEvent (event_message (shutdown_notice reason)) = Ok s) <->
   reason = JNull \/ exists s, reason = JString s).
Proof.
  intros Hws Hkind Htype. cbn zeta.
  destruct (prop_type_object _ _ Htype) as [props He].
  assert (Hwire : JS.nullish wire = false)
    by (apply (prop_defined wire "event"); by rewrite He).
  set (reason := JS.coalesce (JS.prop (JS.prop wire "event") "reason") JNull).
  assert (Hnorm : normalizeMessage wire = Ok (event_message (shutdown_notice reason))).
  { unfold normalizeMessage. rewrite !get_defined by done. rsimpl.
    rewrite (is_string_false _ _ Hkind), He.
    cbn [JS.truthy typeof_is JS.typeof String.eqb Ascii.eqb Bool.eqb negb orb].
    rewrite get_defined by done. rsimpl. rewrite <- He, Htype.
    unfold normalizeEvent. cbn [String.eqb Ascii.eqb Bool.eqb].
    rewrite get_defined by (by rewrite He). by rsimpl. }
  split; [done|].
  unfold step, handler.
  rewrite (onmessage_processed ws wire clock st _
             (event_item (nextEventIdRef st) clock (shutdown_notice reason)) Hws Hnorm)
    by reflexivity.
  change (apply_message _ clock ?s)
    with (Ok (scheduleReconnectPoll
                (set_shutdownState {| seenShutdownNotice := true;
                                      lastReason := JS.coalesce reason JNull;
                                      lastSeenAt := Some (nowIso clock) |} s))).
  cbv beta iota.
  match goal with
  | |- context [rerender ?r ?s] =>
      destruct (rerender_view r s ws) as (-> & -> & _ & -> & -> & _)
  end.
  { match goal with
    | |- wsRef (scheduleReconnectPoll ?s) = _ =>
        by destruct (scheduleReconnectPoll_view s) as (_ & _ & _ & _ & _ & -> & _)
    end. }
  match goal with
  | |- context [scheduleReconnectPoll ?s] =>
      destruct (scheduleReconnectPoll_view s) as (-> & -> & _ & -> & -> & _)
  end.
  split; [done|]. split; [done|]. split.
  { cbn. subst reason. by destruct (JS.prop (JS.prop wire "event") "reason"). }
  split; [done|].
  unfold describeEvent, describe_event, event_message, shutdown_notice. js_eval.
  assert (Hdef : reason <> JUndefined) by (by apply coalesce_defined).
  clearbody reason.
  destruct reason as [| |b|r|s|items|fields]; (split; [intros [s' Hs]|intros [Hr|[s' Hr]]]);
    try done; eauto.
Qed.

Lemma shutdown_reason_must_be_text_witness :
  normalizeMessage coded_shutdown_frame
  = Ok (event_message (shutdown_notice (JObject [("code", JNumber "503")]))) /\
  events (step (WsMessage 0 (Decoded coded_shutdown_frame) noon) one_neuron_state)
  = slice_last 300
      (events one_neuron_state ++
       [event_item (nextEventIdRef one_neuron_state) noon
          (shutdown_notice (JObject [("code", JNumber "503")]))]) /\
  connectionStatus (step (WsMessage 0 (Decoded coded_shutdown_frame) noon) one_neuron_state)
  = StatusPolling /\
  lastReason (shutdownState (step (WsMessage 0 (Decoded coded_shutdown_frame) noon)
                               one_neuron_state))
  = JObject [("code", JNumber "503")] /\
  lastError (step (WsMessage 0 (Decoded coded_shutdown_frame) noon) one_neuron_state)
  = lastError one_neuron_state /\
  ((exists s, describeEvent
                (event_message (shutdown_notice (JObject [("code", JNumber "503")]))) = Ok s) <->
   JObject [("code", JNumber "503")] = JNull \/
   exists s, JObject [("code", JNumber "503")] = JString s).
Proof.
  apply (shutdown_reason_must_be_text 0 one_neuron_state coded_shutdown_frame noon);
    [reflexivity|discriminate|reflexivity].
Defined.

(** X20. The neuron of a [neuron_registered] event is passed through as
    it came, not normalized like the neurons of a snapshot.  The event is
    described by the neuron's label when it is a string and as
    ["unknown neuron"] when the neuron has neither label nor [node_id];
    when the event names no neuron at all it is still accepted, but
    [describeEvent] throws on it. *)
Theorem registered_neuron_unchecked wire :
  JS.prop wire "kind" <> JString "snapshot" ->
  JS.prop (JS.prop wire "event") "type" = JString "neuron_registered" ->
  let neuron := JS.prop (JS.prop wire "event") "neuron" in
  let data := event_message (neuron_registered neuron) in
  normalizeMessage wire = Ok data /\
  (exists tags, item_tags data = Ok tags) /\
  (JS.nullish neuron = true -> exists m, describeEvent data = Throw m) /\
  (forall l, JS.prop neuron "label" = JString l ->
             describeEvent data = Ok ("neuron_registered: " ++ l)) /\
  (JS.nullish neuron = false ->
   JS.nullish (JS.prop neuron "label") = true ->
   JS.nullish (JS.prop neuron "node_id") = true ->
   describeEvent data = Ok "neuron_registered: unknown neuron").
Proof.
  intros Hkind Htype. cbn zeta.
  destruct (prop_type_object _ _ Htype) as [props He].
  assert (Hwire : JS.nullish wire = false)
    by (apply (prop_defined wire "event"); by rewrite He).
  set (neuron := JS.prop (JS.prop wire "event") "neuron").
  split.
  { unfold normalizeMessage. rewrite !get_defined by done. rsimpl.
    rewrite (is_string_false _ _ Hkind), He.
    cbn [JS.truthy typeof_is JS.typeof String.eqb Ascii.eqb Bool.eqb negb orb].
    rewrite get_defined by done. rsimpl. rewrite <- He, Htype.
    unfold normalizeEvent. cbn [String.eqb Ascii.eqb Bool.eqb].
    rewrite get_defined by (by rewrite He). by rsimpl. }
  split; [by eexists|].
  unfold describeEvent, describe_event, event_message, neuron_registered. js_eval.
  clearbody neuron. repeat split.
  - intros Hn. unfold JS.get. rewrite Hn. rsimpl. by eexists.
  - intros l Hl.
    assert (Hn : JS.nullish neuron = false) by (apply (prop_defined neuron "label"); by rewrite Hl).
    rewrite !get_defined by done. rsimpl. by rewrite Hl.
  - intros Hn Hl Hi. rewrite !get_defined by done. rsimpl. rewrite Hl. rsimpl.
    unfold JS.coalesce. by rewrite Hi.
Qed.

Lemma registered_neuron_unchecked_witness :
  normalizeMessage empty_registration = Ok (event_message (neuron_registered JUndefined)) /\
  (exists tags, item_tags (event_message (neuron_registered JUndefined)) = Ok tags) /\
  (JS.nullish JUndefined = true ->
   exists m, describeEvent (event_message (neuron_registered JUndefined)) = Throw m) /\
  (forall l, JS.prop JUndefined "label" = JString l ->
             describeEvent (event_message (neuron_registered JUndefined))
             = Ok ("neuron_registered: " ++ l)) /\
  (JS.nullish JUndefined = false ->
   JS.nullish (JS.prop JUndefined "label") = true ->
   JS.nullish (JS.prop JUndefined "node_id") = true ->
   describeEvent (event_message (neuron_registered JUndefined))
   = Ok "neuron_registered: unknown neuron").
Proof.
  apply (registered_neuron_unchecked empty_registration); [discriminate|reflexivity].
Defined.

(** ** The rows of the list *)

(** X21. [formatHeartbeatTimestamp] returns a string on every value,
    whatever the date conversion does with a [secs_since_epoch]: never a
    raw object.  It is ["no heartbeat yet"] for [null], [undefined] and
    blank strings, so for every row promoted from a legacy descriptor,
    and a row a heartbeat has touched shows the time of that heartbeat. *)
Theorem heartbeat_text_is_string (iso_of_seconds : string -> option string) :
  (forall v, exists s, formatHeartbeatTimestamp iso_of_seconds v = JString s) /\
  (forall n i r, ~ structured n -> normalizeNeuron n i = Ok r ->
     formatHeartbeatTimestamp iso_of_seconds (JS.prop r "last_heartbeat_at")
     = JString "no heartbeat yet") /\
  (forall n now, is_object n -> blank now = false ->
     formatHeartbeatTimestamp iso_of_seconds
       (JS.prop (spread_set n "last_heartbeat_at" (JString now)) "last_heartbeat_at")
     = JString now).
Proof.
  repeat split.
  - intros v. unfold formatHeartbeatTimestamp.
    destruct (JS.nullish v) eqn:Hn; [by eexists|].
    assert (Hfallback : exists s, JS.JSON_stringify v = JString s)
      by (apply JSON_stringify_string; by destruct v).
    destruct v as [| |b|r|s|items|props]; try done.
    + destruct (blank s); by eexists.
    + destruct (if typeof_is (JArray items) "object"
                then JS.has "secs_since_epoch" (JArray items) else Ok false) as [[|]|]; try done.
      destruct (JS.prop _ "secs_since_epoch"); try by eexists.
      destruct (iso_of_seconds _); by eexists.
    + destruct (if typeof_is (JObject props) "object"
                then JS.has "secs_since_epoch" (JObject props) else Ok false) as [[|]|];
        try done.
      destruct (JS.prop _ "secs_since_epoch"); try by eexists.
      destruct (iso_of_seconds _); by eexists.
  - intros n i r Hlegacy Hr. unfold normalizeNeuron in Hr.
    destruct (structured_flag n) as (b & Hb & Hiff). rewrite Hb in Hr. rsimpl in Hr.
    destruct b; [by destruct Hlegacy; apply Hiff|].
    repeat match type of Hr with
           | (?c ≫= _) = _ => destruct c; [|done]; rsimpl in Hr
           end.
    by inversion Hr.
  - intros n now [props ->] Hnow. cbn [spread_set JS.prop].
    rewrite lookup_set_prop_eq. cbn. by rewrite Hnow.
Qed.

(** X22. A structured neuron is accepted with whatever descriptor it
    has, [null] included.  The reconciler and [isNeuronBeating] guard
    against a missing descriptor (such a row is never matched and never
    beats), but the label of the row does not: it is defined exactly
    when the descriptor is neither [null] nor [undefined]. *)
Theorem null_descriptor_row n i r :
  structured n ->
  normalizeNeuron n i = Ok r ->
  JS.prop r "descriptor" = JS.prop n "descriptor" /\
  ((exists l, row_label r i = Ok l) <-> JS.nullish (JS.prop n "descriptor") = false) /\
  (JS.nullish (JS.prop n "descriptor") = true ->
   forall st nid now,
     isNeuronBeating st (JS.prop r "descriptor") = Ok false /\
     heartbeat_neuron nid now r = Ok r).
Proof.
  intros Hs Hr. unfold normalizeNeuron in Hr.
  destruct (structured_flag n) as (b & Hb & Hiff). rewrite Hb in Hr. rsimpl in Hr.
  destruct b; [|by apply Hiff in Hs].
  destruct Hs as (props & -> & _). rewrite !get_defined in Hr by done. rsimpl in Hr.
  destruct (normalizeModels _) as [models|]; [|done]. rsimpl in Hr. inversion Hr. clear Hr.
  set (d := JS.prop (JObject props) "descriptor").
  split; [done|]. split; [split|].
  - intros [l Hl]. unfold row_label in Hl. rewrite get_defined in Hl by done. rsimpl in Hl.
    change (JS.prop (JObject _) "descriptor") with d in Hl.
    unfold JS.get in Hl. destruct (JS.nullish d); [by rsimpl in Hl|done].
  - intros Hd. unfold row_label. rewrite get_defined by done. rsimpl.
    change (JS.prop (JObject _) "descriptor") with d.
    rewrite !get_defined by done. rsimpl. destruct (JS.nullish (JS.prop d "label")); by eexists.
  - intros Hd st nid now.
    assert (Hfalsy : JS.truthy d = false) by (by destruct d).
    split.
    + change (JS.prop (JObject _) "descriptor") with d. unfold isNeuronBeating.
      by rewrite Hfalsy.
    + unfold heartbeat_neuron. rewrite get_defined by done. rsimpl.
      change (JS.prop (JObject _) "descriptor") with d. by rewrite Hfalsy.
Qed.

Lemma null_descriptor_row_witness :
  JS.prop (neuron_row JNull JNull (JString "healthy") false []) "descriptor"
  = JS.prop anonymous_neuron "descriptor" /\
  ((exists l, row_label (neuron_row JNull JNull (JString "healthy") false []) 0 = Ok l) <->
   JS.nullish (JS.prop anonymous_neuron "descriptor") = false) /\
  (JS.nullish (JS.prop anonymous_neuron "descriptor") = true ->
   forall st nid now,
     isNeuronBeating st (JS.prop (neuron_row JNull JNull (JString "healthy") false [])
                           "descriptor") = Ok false /\
     heartbeat_neuron nid now (neuron_row JNull JNull (JString "healthy") false [])
     = Ok (neuron_row JNull JNull (JString "healthy") false [])).
Proof.
  apply (null_descriptor_row anonymous_neuron 0); [|reflexivity].
  eexists. split; [reflexivity|]. by eexists.
Defined.

(** ** Neuron ids are compared as text *)

(** X23. The neuron id of a heartbeat is converted to a string before it
    is compared (a number becomes its numeral, a missing id the text
    ["undefined"]), while the ids of the table are compared as they are:
    a row whose [node_id] and label are not strings is matched by no
    heartbeat, not even by one carrying the same number. *)
Theorem heartbeat_ids_compared_as_text ws st wire clock s neurons :
  wsRef st = Some ws ->
  JS.prop wire "kind" <> JString "snapshot" ->
  JS.prop (JS.prop wire "event") "type" = JString "neuron_heartbeat" ->
  JS.toString (JS.prop (JS.prop wire "event") "neuron_id") = Ok s ->
  snapshot st = table_of neurons ->
  Forall (fun n => is_object n /\ ~ text_identified n) neurons ->
  normalizeMessage wire
  = Ok (event_message
          (neuron_heartbeat s (JS.coalesce (JS.prop (JS.prop wire "event") "metrics")
                                 (JObject [])))) /\
  snapshot (step (WsMessage ws (Decoded wire) clock) st) = table_of neurons.
Proof.
  intros Hws Hkind Htype Hid Htable Hrows.
  destruct (prop_type_object _ _ Htype) as [props He].
  assert (Hwire : JS.nullish wire = false)
    by (apply (prop_defined wire "event"); by rewrite He).
  assert (Hnorm : normalizeMessage wire
                  = Ok (event_message
                          (neuron_heartbeat s
                             (JS.coalesce (JS.prop (JS.prop wire "event") "metrics")
                                (JObject []))))).
  { unfold normalizeMessage. rewrite !get_defined by done. rsimpl.
    rewrite (is_string_false _ _ Hkind), He.
    cbn [JS.truthy typeof_is JS.typeof String.eqb Ascii.eqb Bool.eqb negb orb].
    rewrite get_defined by done. rsimpl. rewrite <- He, Htype.
    unfold normalizeEvent, neuron_id_of. cbn [String.eqb Ascii.eqb Bool.eqb].
    rewrite !get_defined by (by rewrite He). rsimpl. rewrite Hid. by rsimpl. }
  split; [done|].
  rewrite (step_heartbeat ws wire clock st s _ Hws Hnorm).
  match goal with
  | |- snapshot (bump_pulse ?k ?x) = _ => destruct (bump_pulse_view k x) as (-> & _)
  end.
  unfold update_snapshot, heartbeat_snapshot.
  change (snapshot (logged ?item st)) with (snapshot st). rewrite Htable.
  cbn [JS.truthy negb table_of]. rewrite get_defined by done. rsimpl.
  change (JS.prop (table_of neurons) "neurons") with (JArray neurons).
  cbv iota.
  rewrite heartbeat_neurons_spec by (eapply Forall_impl; [exact Hrows|]; by intros n [? _]).
  assert (Hsame : map (fun n => if names_neuron_b s n
                                then spread_set n "last_heartbeat_at" (JString (nowIso clock))
                                else n) neurons = neurons).
  { rewrite <- (map_id neurons) at 2.
    apply map_ext_Forall. eapply Forall_impl; [exact Hrows|]. cbn.
    intros n [_ Hn]. destruct (names_neuron_b s n) eqn:E; [|done].
    apply names_neuron_b_spec in E. destruct Hn. destruct E as [E|E]; [left|right]; eauto. }
  by rewrite Hsame.
Qed.

Lemma heartbeat_ids_compared_as_text_witness :
  normalizeMessage numbered_heartbeat
  = Ok (event_message
          (neuron_heartbeat "7"
             (JS.coalesce (JS.prop (JS.prop numbered_heartbeat "event") "metrics")
                (JObject [])))) /\
  snapshot (step (WsMessage 0 (Decoded numbered_heartbeat) noon) numbered_state)
  = table_of [numbered_neuron].
Proof.
  apply (heartbeat_ids_compared_as_text 0 numbered_state numbered_heartbeat noon "7"
           [numbered_neuron]); [reflexivity|discriminate|reflexivity|reflexivity|reflexivity|].
  constructor; [|constructor]. split; [by eexists|].
  intros [[s H]|[s H]]; discriminate.
Defined.

(** ** Describing provisioning commands *)

(** X24. A [provisioning_sent] event is accepted with whatever command
    it carries, and when the normalized command loads or unloads a model
    its description is always defined: it names the operation and the
    model id, or ["model"] when the id is missing or empty. *)
Theorem provisioning_sent_described wire s :
  JS.prop wire "kind" <> JString "snapshot" ->
  JS.prop (JS.prop wire "event") "type" = JString "provisioning_sent" ->
  JS.toString (JS.prop (JS.prop wire "event") "neuron_id") = Ok s ->
  exists cmd,
    normalizeMessage wire = Ok (event_message (provisioning_sent s cmd)) /\
    is_command cmd /\
    forall k m, cmd = model_command (JString k) m ->
                describeEvent (event_message (provisioning_sent s cmd))
                = Ok ("provisioning_sent: " ++ k ++ " (" ++ model_text m ++ ")").
Proof.
  intros Hkind Htype Hid.
  destruct (prop_type_object _ _ Htype) as [props He].
  assert (Hwire : JS.nullish wire = false)
    by (apply (prop_defined wire "event"); by rewrite He).
  destruct (normalizeProvisioningCommand_total (JS.prop (JS.prop wire "event") "cmd"))
    as [cmd Hcmd].
  pose proof (normalizeProvisioningCommand_shape _ _ Hcmd) as Hshape.
  exists cmd. split; [|split; [done|]].
  - unfold normalizeMessage. rewrite !get_defined by done. rsimpl.
    rewrite (is_string_false _ _ Hkind), He.
    cbn [JS.truthy typeof_is JS.typeof String.eqb Ascii.eqb Bool.eqb negb orb].
    rewrite get_defined by done. rsimpl. rewrite <- He, Htype.
    unfold normalizeEvent, neuron_id_of. cbn [String.eqb Ascii.eqb Bool.eqb].
    rewrite !get_defined by (by rewrite He). rsimpl. rewrite Hid. rsimpl.
    rewrite Hcmd. by rsimpl.
  - intros k m ->.
    destruct Hshape as [[config Hc]|(k' & m' & Hk & Hm & Hc)]; unfold model_command in Hc.
    { unfold upsert_model_config in Hc. discriminate. }
    injection Hc as -> ->.
    unfold describeEvent, describe_event, event_message, provisioning_sent, model_command.
    js_eval. cbn [JS.toString]. rsimpl.
    destruct Hk as [-> | ->]; cbn [String.eqb Ascii.eqb Bool.eqb orb];
      js_eval; unfold or_else, model_text;
      destruct Hm as [-> | [id ->]]; cbn [JS.truthy JS.toString]; rsimpl; try done;
      by destruct (String.eqb id "").
Qed.

Lemma provisioning_sent_described_witness :
  exists cmd,
    normalizeMessage anonymous_load_frame = Ok (event_message (provisioning_sent "n1" cmd)) /\
    is_command cmd /\
    forall k m, cmd = model_command (JString k) m ->
                describeEvent (event_message (provisioning_sent "n1" cmd))
                = Ok ("provisioning_sent: " ++ k ++ " (" ++ model_text m ++ ")").
Proof.
  apply (provisioning_sent_described anonymous_load_frame "n1");
    [discriminate|reflexivity|reflexivity].
Defined.

(** ** The table stays in normal form *)

Lemma normalizeNeuron_normal n i r : normalizeNeuron n i = Ok r -> normal_row r.
Proof.
  unfold normalizeNeuron. intros H.
  destruct (if JS.truthy n && typeof_is n "object" then JS.has "descriptor" n else Ok false)
    as [[|]|]; [| |done]; rsimpl in H.
  - destruct (JS.get n "descriptor") as [d|]; [|done]. rsimpl in H.
    destruct (JS.get n "last_heartbeat_at") as [hb|]; [|done]. rsimpl in H.
    destruct (JS.get n "health") as [h|]; [|done]. rsimpl in H.
    destruct (JS.get n "offline") as [o|]; [|done]. rsimpl in H.
    destruct (JS.get n "models") as [mw|]; [|done]. rsimpl in H.
    destruct (normalizeModels mw) as [models|] eqn:Hms; [|done]. rsimpl in H.
    pose proof (normalizeModels_fixed _ _ Hms) as Hfix.
    apply normalizeModels_rows in Hms as (ms & -> & _). inversion H.
    exists d, (JS.coalesce hb JNull), (JS.coalesce h (JString "unknown")), (JS.truthy o), ms.
    split; [done|]. split; [by apply coalesce_defined|].
    split; [by apply coalesce_not_nullish|done].
  - destruct (and_get_total n "node_id") as [a Ha].
    destruct (and_get_total n "label") as [b Hb].
    destruct (and_get_total n "metadata") as [c Hc].
    rewrite Ha, Hb, Hc in H. rsimpl in H.
    destruct (JS.nullish b); rewrite ?Ha in H; rsimpl in H; inversion H;
      by eexists _, JNull, (JString "unknown"), false, [].
Qed.

Lemma normal_row_fixed r i : normal_row r -> normalizeNeuron r i = Ok r.
Proof.
  intros (d & hb & h & o & ms & -> & Hhb & Hh & Hms).
  unfold normalizeNeuron, neuron_row. js_eval. rewrite Hms. rsimpl.
  unfold JS.coalesce. rewrite Hh. by destruct hb, o.
Qed.

Lemma normal_row_object r : normal_row r -> is_object r.
Proof. intros (d & hb & h & o & ms & -> & _). by eexists. Qed.

(** A heartbeat keeps a row normal. *)
Lemma normal_row_touched r now :
  normal_row r -> normal_row (spread_set r "last_heartbeat_at" (JString now)).
Proof.
  intros (d & hb & h & o & ms & -> & Hhb & Hh & Hms).
  by exists d, (JString now), h, o, ms.
Qed.

Lemma normal_rows_fixed rows i :
  Forall normal_row rows -> mapM_index normalizeNeuron i rows = Ok rows.
Proof.
  intros H. revert i. induction H as [|r rows Hr _ IH]; intros i; [done|].
  cbn. rewrite (normal_row_fixed r i Hr). rsimpl. by rewrite IH.
Qed.

Lemma table_normal_fixed table :
  table_normal table -> table <> JNull -> normalizeSnapshot table = Ok table.
Proof.
  intros [->|(rows & -> & Hrows)] Hne; [done|].
  unfold normalizeSnapshot, table_of. js_eval. by rewrite normal_rows_fixed.
Qed.

Lemma normalizeSnapshot_normal s table : normalizeSnapshot s = Ok table -> table_normal table.
Proof.
  unfold normalizeSnapshot. intros H.
  destruct (JS.get s "neurons") as [neurons|]; [|done]. rsimpl in H.
  match type of H with
  | context [mapM_index normalizeNeuron 0 ?l] =>
      destruct (mapM_index normalizeNeuron 0 l) as [rows|] eqn:E; [|done]
  end.
  rsimpl in H. inversion H. right. exists rows. split; [done|].
  by apply (mapM_index_Forall _ _ _ _ _ normalizeNeuron_normal E).
Qed.

Lemma heartbeat_snapshot_normal s now table :
  table_normal table ->
  exists table', heartbeat_snapshot (JString s) now table = Ok table' /\ table_normal table'.
Proof.
  intros [-> | (rows & -> & Hrows)].
  - exists JNull. split; [done|by left].
  - unfold heartbeat_snapshot. cbn [table_of JS.truthy negb]. rewrite get_defined by done.
    rsimpl. change (JS.prop (table_of rows) "neurons") with (JArray rows). cbv iota.
    rewrite heartbeat_neurons_spec
      by (eapply Forall_impl; [exact Hrows|apply normal_row_object]).
    rsimpl. eexists. split; [reflexivity|]. right. eexists. split; [reflexivity|].
    apply Forall_map. eapply Forall_impl; [exact Hrows|]. cbn. intros r Hr.
    destruct (names_neuron_b s r); [by apply normal_row_touched|done].
Qed.

(** The snapshot a normalized message carries is in normal form. *)
Lemma normalizeMessage_snapshot_normal wire data :
  normalizeMessage wire = Ok data ->
  JS.prop data "kind" = JString "snapshot" ->
  table_normal (JS.prop data "snapshot").
Proof.
  intros H Hkind.
  destruct (JS.is_string (JS.prop wire "kind") "snapshot") eqn:Hwk.
  - unfold normalizeMessage, JS.get in H.
    destruct (JS.nullish wire); [done|]. rsimpl in H. rewrite Hwk in H.
    destruct (normalizeSnapshot _) as [table|] eqn:E; [|done]. rsimpl in H.
    inversion H. by apply normalizeSnapshot_normal in E.
  - assert (Hne : JS.prop wire "kind" <> JString "snapshot").
    { intros E. apply is_string_spec in E. congruence. }
    by destruct (normalizeMessage_event wire data H Hne).
Qed.

Lemma apply_message_normal wire data clock st st' :
  normalizeMessage wire = Ok data ->
  table_normal (snapshot st) ->
  apply_message data clock st = Ok st' ->
  table_normal (snapshot st').
Proof.
  intros Hdata Htable. unfold apply_message, JS.get.
  destruct (JS.nullish data); [done|]. rsimpl.
  destruct (JS.is_string (JS.prop data "kind") "snapshot") eqn:Hkind.
  { apply is_string_spec in Hkind. intros [= <-].
    by apply (normalizeMessage_snapshot_normal wire). }
  destruct (JS.nullish (JS.prop data "event")); [done|]. rsimpl.
  destruct (JS.is_string _ "neuron_heartbeat") eqn:Et.
  - apply is_string_spec in Et.
    destruct (normalizeMessage_ok wire data Hdata)
      as [(table & neurons & -> & _)|[_ Hbeat]]; [done|].
    destruct (Hbeat Et) as [s Hs]. intros [= <-]. rewrite Hs.
    match goal with
    | |- table_normal (snapshot (bump_pulse ?k ?x)) =>
        destruct (bump_pulse_view k x) as (-> & _)
    end.
    unfold update_snapshot.
    by destruct (heartbeat_snapshot_normal s (nowIso clock) _ Htable) as (t & -> & Ht).
  - destruct (JS.is_string _ "cortex_shutdown_notice"); [|by intros [= <-]].
    intros [= <-].
    match goal with
    | |- context [scheduleReconnectPoll ?s] =>
        by destruct (scheduleReconnectPoll_view s) as (_ & _ & -> & _)
    end.
Qed.

Lemma onmessage_normal ws frame clock st :
  table_normal (snapshot st) -> table_normal (snapshot (onmessage ws frame clock st)).
Proof.
  intros Htable. unfold onmessage. destruct (negb _); [done|]. unfold try_message.
  destruct frame as [m|wire]; [done|]. cbn [JSON_parse]. rsimpl.
  destruct (normalizeMessage wire) as [data|] eqn:Hdata; [|done].
  destruct (log_item _ _ _) as [item|]; [|done].
  destruct (apply_message _ _ _) as [st'|] eqn:E; [|done].
  by apply (apply_message_normal wire data clock _ st' Hdata) in E.
Qed.

Lemma connect_snapshot rendered st : snapshot (connect rendered st) = snapshot st.
Proof.
  unfold connect. destruct (match wsRef st with Some _ => _ | None => _ end); [done|].
  destruct (constructorError _).
  - match goal with
    | |- context [scheduleReconnectPoll ?s] =>
        destruct (scheduleReconnectPoll_view s) as (_ & _ & -> & _)
    end.
    by destruct rendered.
  - by destruct rendered.
Qed.

Lemma effect_body_snapshot st : snapshot (effect_body st) = snapshot st.
Proof.
  unfold effect_body. destruct (connectionStatus st), (wsRef st); try done.
  by rewrite connect_snapshot.
Qed.

Lemma run_effect_snapshot st : snapshot (run_effect st) = snapshot st.
Proof.
  unfold run_effect. destruct (decide _); rewrite !effect_body_snapshot; [done|].
  unfold effect_cleanup.
  destruct (clearPollingTimer_view (effect_body st)) as (_ & _ & -> & _).
  by rewrite effect_body_snapshot.
Qed.

Lemma rerender_snapshot rendered st : snapshot (rerender rendered st) = snapshot st.
Proof.
  unfold rerender. destruct (decide _); [done|]. rewrite run_effect_snapshot.
  unfold effect_cleanup. by destruct (clearPollingTimer_view st) as (_ & _ & -> & _).
Qed.

Lemma step_table_normal ev st :
  table_normal (snapshot st) -> table_normal (snapshot (step ev st)).
Proof.
  intros H. unfold step. rewrite rerender_snapshot.
  destruct ev as [ws|ws frame clock|ws|ws|tid]; cbn [handler].
  - unfold onopen. destruct (negb _); [done|]. by left.
  - by apply onmessage_normal.
  - unfold onerror. by destruct (negb _).
  - unfold onclose. destruct (negb _); [done|].
    match goal with
    | |- context [scheduleReconnectPoll ?s] =>
        destruct (scheduleReconnectPoll_view s) as (_ & _ & -> & _)
    end.
    by destruct (connectionStatus _).
  - unfold fire_timer. destruct (find _ _) as [t|]; [|done].
    destruct (callback t).
    + unfold reconnect_poll_fired. cbn. by destruct (connectionStatus st).
    + unfold pulse_expired. by destruct (decide _).
Qed.

(** X25. The table the component shows is always in normal form: in
    every reachable state it is [null] or a list of rows with the five
    members [normalizeSnapshot] gives them, heartbeats included, so that
    [normalizeSnapshot] would return it unchanged. *)
Theorem reachable_table_normal ctor evs :
  table_normal (snapshot (run evs (mount ctor))) /\
  (snapshot (run evs (mount ctor)) <> JNull ->
   normalizeSnapshot (snapshot (run evs (mount ctor))) = Ok (snapshot (run evs (mount ctor)))).
Proof.
  assert (H : table_normal (snapshot (run evs (mount ctor)))).
  { apply (run_invariant (fun st => table_normal (snapshot st))); [apply step_table_normal|].
    unfold mount. rewrite run_effect_snapshot. by left. }
  split; [done|]. by apply table_normal_fixed.
Qed.

(** ** Before the first snapshot *)

Lemma clearPollingTimer_loading st :
  isInitialLoading (clearPollingTimer st) = isInitialLoading st.
Proof. unfold clearPollingTimer. by destruct (pollingTimerRef st). Qed.

Lemma scheduleReconnectPoll_loading st :
  isInitialLoading (scheduleReconnectPoll st) = isInitialLoading st.
Proof.
  unfold scheduleReconnectPoll, setTimeout. cbn. apply clearPollingTimer_loading.
Qed.

Lemma apply_message_loading data clock st st' :
  apply_message data clock st = Ok st' ->
  JS.prop data "kind" <> JString "snapshot" ->
  isInitialLoading st' = isInitialLoading st.
Proof.
  unfold apply_message, JS.get. intros H Hkind.
  destruct (JS.nullish data); [done|]. rsimpl in H.
  rewrite (is_string_false _ _ Hkind) in H.
  destruct (JS.nullish (JS.prop data "event")); [done|]. rsimpl in H.
  destruct (JS.is_string _ "neuron_heartbeat").
  { inversion H. unfold bump_pulse, update_snapshot.
    by destruct (JS.toString _), (heartbeat_snapshot _ _ _). }
  destruct (JS.is_string _ "cortex_shutdown_notice"); [|by inversion H].
  inversion H. by rewrite scheduleReconnectPoll_loading.
Qed.

Lemma step_message_loading ws frame clock st :
  wsRef st = Some ws ->
  (forall wire, frame = Decoded wire -> JS.prop wire "kind" <> JString "snapshot") ->
  isInitialLoading (step (WsMessage ws frame clock) st) = isInitialLoading st.
Proof.
  intros Hws Hframe. unfold step, handler.
  assert (Hws' : wsRef (onmessage ws frame clock st) = Some ws) by (by rewrite onmessage_wsRef).
  assert (Hrender : isInitialLoading (rerender (connectionStatus st) (onmessage ws frame clock st))
                    = isInitialLoading (onmessage ws frame clock st)).
  { destruct (rerender_has_socket (connectionStatus st) _ ws Hws') as [-> | ->]; [done|].
    apply clearPollingTimer_loading. }
  rewrite Hrender. unfold onmessage, try_message. destruct (negb _); [done|].
  destruct frame as [m|wire]; [done|]. cbn [JSON_parse]. rsimpl.
  destruct (normalizeMessage wire) as [data|] eqn:Hdata; [|done].
  destruct (log_item _ _ _) as [item|]; [|done].
  destruct (apply_message _ _ _) as [st'|] eqn:E; [|done].
  destruct (normalizeMessage_event wire data Hdata (Hframe wire eq_refl)) as [Hk _].
  by rewrite (apply_message_loading _ _ _ _ E Hk).
Qed.

(** X26. Until a snapshot arrives the component keeps waiting, whatever
    else the socket delivers: over frames that are not snapshots
    [isInitialLoading] stays set, so the list keeps its waiting notice
    beside the entries already logged, and the error line stays hidden
    although a rejected frame has set the error message. *)
Theorem early_frames_keep_waiting ws st arrivals :
  wsRef st = Some ws ->
  isInitialLoading st = true ->
  Forall (fun a : Frame * Clock =>
            forall wire, a.1 = Decoded wire -> JS.prop wire "kind" <> JString "snapshot")
         arrivals ->
  isInitialLoading (run (messages ws arrivals) st) = true /\
  error_line (run (messages ws arrivals) st) = None.
Proof.
  intros Hws Hloading Hall.
  assert (H : isInitialLoading (run (messages ws arrivals) st) = true).
  { revert st Hws Hloading.
    induction Hall as [|[frame clock] rest Hframe _ IH]; intros st Hws Hloading; [done|].
    change (messages ws ((frame, clock) :: rest))
      with (WsMessage ws frame clock :: messages ws rest).
    rewrite run_cons. apply IH.
    - by apply step_keeps_socket.
    - by rewrite (step_message_loading ws frame clock st Hws Hframe). }
  split; [done|]. unfold error_line. by rewrite H.
Qed.

Lemma early_frames_keep_waiting_witness :
  isInitialLoading (run (messages 0 early_arrivals) (onopen 0 one_neuron_state)) = true /\
  error_line (run (messages 0 early_arrivals) (onopen 0 one_neuron_state)) = None.
Proof.
  apply (early_frames_keep_waiting 0 (onopen 0 one_neuron_state) early_arrivals);
    [reflexivity|reflexivity|].
  repeat constructor; intros wire [= <-]; discriminate.
Defined.

(** ** Model rows *)

Lemma mapM_result_length {A B} (f : A -> result B) l l' :
  mapM_result f l = Ok l' -> length l' = length l.
Proof.
  revert l'. induction l as [|x l IH]; intros l' H; cbn in H.
  - by inversion H.
  - destruct (f x) as [y|]; [|done]. rsimpl in H.
    destruct (mapM_result f l) as [ys|]; [|done]. rsimpl in H.
    inversion H. cbn. by rewrite (IH ys).
Qed.

Lemma normalizeModelStatus_row m r : normalizeModelStatus m = Ok r -> model_row r.
Proof.
  unfold normalizeModelStatus. intros H.
  destruct (JS.get m "model_id") as [mid|]; [|done]. rsimpl in H.
  destruct (normalizeModelId_total mid) as (model_id & Hmid & Hshape).
  rewrite Hmid in H. rsimpl in H.
  destruct (JS.get m "last_cmd_kind") as [a|]; [|done]. rsimpl in H.
  destruct (JS.get m "last_response") as [b|]; [|done]. rsimpl in H.
  destruct (JS.get m "effective_status") as [c|]; [|done]. rsimpl in H.
  inversion H. eexists _, _, _, _. split; [reflexivity|]. split; [done|].
  split; [by apply coalesce_not_nullish|].
  split; [by apply coalesce_defined|by apply coalesce_not_nullish].
Qed.

(** X27. A list of models that normalizes keeps one row per entry of the
    wire array, and nothing when the wire value is not an array.  Every
    row has its four members: a model id that is a string or
    [undefined], a command kind and a status that are never [null] (the
    text ["unknown"] stands in), and a response that is never
    [undefined]. *)
Theorem normalizeModels_rows_shape wire models :
  normalizeModels wire = Ok models ->
  exists ms, models = JArray ms /\
             (forall items, wire = JArray items -> length ms = length items) /\
             (JS.isArray wire = false -> ms = []) /\
             Forall model_row ms.
Proof.
  destruct wire as [| | | | |items|]; cbn;
    try (intros [= <-]; exists []; repeat split; [done|constructor]).
  destruct (mapM_result normalizeModelStatus items) as [ms|] eqn:E; [|done].
  rsimpl. intros [= <-]. exists ms. split; [done|]. split; [|split; [done|]].
  - intros items' [= <-]. by apply (mapM_result_length normalizeModelStatus).
  - apply (mapM_result_Forall normalizeModelStatus (fun _ => True) model_row items ms);
      [|by apply Forall_true|done].
    intros m r _. apply normalizeModelStatus_row.
Qed.

Lemma normalizeModels_rows_shape_witness :
  exists ms,
    JArray [JObject [("model_id", JString "gpt-small"); ("last_cmd_kind", JString "unknown");
                     ("last_response", JNull); ("effective_status", JString "loaded")];
            JObject [("model_id", JUndefined); ("last_cmd_kind", JString "unknown");
                     ("last_response", JNull); ("effective_status", JString "unknown")]]
    = JArray ms /\
    (forall items, wrapped_models = JArray items -> length ms = length items) /\
    (JS.isArray wrapped_models = false -> ms = []) /\
    Forall model_row ms.
Proof.
  apply (normalizeModels_rows_shape wrapped_models). reflexivity.
Defined.
